(** * MPPT-SP: the control-decision engine of the Atverter firmware

    A shallow embedding of the periodic [controlUpdate] callbacks of the
    repository's firmware variants, and the properties of the averaging
    buffer, the PI voltage regulator, the incremental-conductance (IC)
    decision engine and the safety interlock.

    Variants embedded (one module each):
    - [AvgIC]  : "Incremental Conductance MPPT Controller" with averaging,
                 no PI (first program of MPPT_wider_ranges_AVG_no_PID.cpp);
    - [PidAvg] : PI regulator followed by the IC engine with averaging;
    - [Hw]     : the AtverterH (hardware-layer) IC controller;
    - [Old]    : PID_MPPT_wider_ranges.old, PI followed by the first IC draft;
    - [Buck]   : "Voltage-targeting Buck Converter", PI only, with the
                 [+ 1] divisor guard.

    Number model.  Integer globals are [Z].  [uint16_t dutyCycle] wraps
    modulo 2^16, and every assignment to it is written with [u16].  Signed
    overflow is undefined in C++: the callbacks compute on unbounded signed
    variables, and their checked forms ([AvgIC_controlUpdate_checked],
    [PidAvg_controlUpdate_checked]) are undefined as soon as a signed
    variable leaves the range of its type.  A [double] is an exact rational
    or one of the IEEE-754 special values; the rounding of the doubles is
    a parameter of [ic_delta_rounded].  Integer division truncates toward
    zero ([Z.quot]). *)

From Stdlib Require Import String ZArith QArith List Bool Lia Lqa.
From Stdlib Require Import PrimFloat.
Import ListNotations.

Local Open Scope Z_scope.

(** ** Doubles *)

Inductive dbl : Type :=
| Fin (q : Q)
| PInf
| NInf
| NaN.

Definition Qlt_bool (x y : Q) : bool := negb (Qle_bool y x).

Definition of_int (z : Z) : dbl := Fin (inject_Z z).

Definition dneg (x : dbl) : dbl :=
  match x with
  | Fin q => Fin (- q)
  | PInf => NInf
  | NInf => PInf
  | NaN => NaN
  end.

Definition dadd (x y : dbl) : dbl :=
  match x, y with
  | NaN, _ | _, NaN => NaN
  | Fin a, Fin b => Fin (a + b)
  | PInf, NInf | NInf, PInf => NaN
  | PInf, _ | _, PInf => PInf
  | NInf, _ | _, NInf => NInf
  end.

Definition dsub (x y : dbl) : dbl := dadd x (dneg y).

Definition dmul (x y : dbl) : dbl :=
  match x, y with
  | NaN, _ | _, NaN => NaN
  | Fin a, Fin b => Fin (a * b)
  | Fin a, PInf | PInf, Fin a =>
      if Qlt_bool 0 a then PInf else if Qlt_bool a 0 then NInf else NaN
  | Fin a, NInf | NInf, Fin a =>
      if Qlt_bool 0 a then NInf else if Qlt_bool a 0 then PInf else NaN
  | PInf, PInf | NInf, NInf => PInf
  | PInf, NInf | NInf, PInf => NInf
  end.

(** Every divisor in the firmware is a converted integer, so a zero divisor
    is a positive zero and the sign of the quotient is that of the
    dividend. *)
Definition ddiv (x y : dbl) : dbl :=
  match x, y with
  | NaN, _ | _, NaN => NaN
  | Fin a, Fin b =>
      if Qeq_bool b 0
      then (if Qlt_bool 0 a then PInf else if Qlt_bool a 0 then NInf else NaN)
      else Fin (a / b)
  | Fin _, PInf | Fin _, NInf => Fin 0
  | PInf, Fin b => if Qlt_bool b 0 then NInf else PInf
  | NInf, Fin b => if Qlt_bool b 0 then PInf else NInf
  | _, _ => NaN
  end.

(** [x > y] and [x < y]; a comparison with NaN is false. *)
Definition dgt (x y : dbl) : bool :=
  match x, y with
  | NaN, _ | _, NaN => false
  | Fin a, Fin b => Qlt_bool b a
  | PInf, PInf => false
  | PInf, _ => true
  | _, NInf => match x with NInf => false | _ => true end
  | _, _ => false
  end.

Definition dlt (x y : dbl) : bool := dgt y x.

Definition is_zero (x : dbl) : bool :=
  match x with
  | Fin q => Qeq_bool q 0
  | _ => false
  end.

(** Equality of doubles up to the representation of the rational. *)
Definition deq (x y : dbl) : Prop :=
  match x, y with
  | Fin a, Fin b => a == b
  | PInf, PInf | NInf, NInf | NaN, NaN => True
  | _, _ => False
  end.

(** ** uint16_t *)

Definition u16 (z : Z) : Z := z mod 65536.

(** Truncation toward zero. *)
Definition Qtrunc (q : Q) : Z := Qnum q ÷ Zpos (Qden q).

(** Conversion of a double to [uint16_t]: the fractional part is dropped;
    the behaviour is undefined when the truncated value does not fit. *)
Definition to_u16 (x : dbl) : option Z :=
  match x with
  | Fin q =>
      let t := Qtrunc q in
      if (0 <=? t) && (t <=? 65535) then Some t else None
  | _ => None
  end.

(** Arduino's [constrain(amt, low, high)]. *)
Definition constrain (amt low high : Z) : Z :=
  if amt <? low then low else if amt >? high then high else amt.

(** ** Effects

    A callback produces a trace of events and, unless it runs into undefined
    behaviour, a result. *)

Inductive event : Type :=
| EvDivide (divisor : dbl)
| EvSetDutyCycle (d : Z)
| EvSetLED (level : bool)
| EvShutdownGates (code : Z)
| EvPrint (s : string)
| EvTransmit.

Definition M (A : Type) : Type := (list event * option A)%type.

Definition ret {A : Type} (a : A) : M A := ([], Some a).

Definition bind {A B : Type} (m : M A) (f : A -> M B) : M B :=
  match m with
  | (l, None) => (l, None)
  | (l, Some a) => let (l', r) := f a in (l ++ l', r)
  end.

Definition emit (e : event) : M unit := ([e], Some tt).

Definition undefined_behaviour {A : Type} : M A := ([], None).

Declare Scope fw_scope.
Delimit Scope fw_scope with fw.
Notation "x <- c1 ;; c2" := (bind c1 (fun x => c2))
  (at level 100, c1 at next level, right associativity) : fw_scope.
Notation "c1 ;;; c2" := (bind c1 (fun _ => c2))
  (at level 100, right associativity) : fw_scope.
Local Open Scope fw_scope.

Definition trace {A : Type} (m : M A) : list event := fst m.
Definition result {A : Type} (m : M A) : option A := snd m.

(** Floating-point division: never traps, the divisor is recorded. *)
Definition divide (x y : dbl) : M dbl :=
  emit (EvDivide y) ;;; ret (ddiv x y).

(** Integer division: undefined for a zero divisor. *)
Definition idivide (a b : Z) : M Z :=
  emit (EvDivide (of_int b)) ;;;
  if b =? 0 then undefined_behaviour else ret (a ÷ b).

Definition zero_divisor (e : event) : bool :=
  match e with
  | EvDivide d => is_zero d
  | _ => false
  end.

Definition divides_by_zero (l : list event) : bool := existsb zero_divisor l.

Definition duty_writes (l : list event) : list Z :=
  flat_map (fun e => match e with EvSetDutyCycle d => [d] | _ => [] end) l.

(** ** The IC decision engine *)

Record ic_params : Type := {
  DUTY_CYCLE_INCREMENT : Z;
  VOLTAGE_ERROR_RANGE : Z;
  CURRENT_ERROR_RANGE : Z
}.

(** The amount added to [dutyCycle] by the IC block of [AvgIC], [PidAvg]
    and [Hw] (the three are the same text).  The two quotients, which the
    source spells out again in every comparison and in the DEBUG prints,
    are evaluated once. *)
Definition ic_delta (p : ic_params) (dV dI I V : Z) : M Z :=
  if (- VOLTAGE_ERROR_RANGE p <? dV) && (dV <? VOLTAGE_ERROR_RANGE p) then
    if dI >? CURRENT_ERROR_RANGE p then ret (DUTY_CYCLE_INCREMENT p)
    else if dI <? - CURRENT_ERROR_RANGE p then ret (- DUTY_CYCLE_INCREMENT p)
    else ret 0
  else
    r <- divide (of_int dI) (of_int dV) ;;
    g <- divide (of_int I) (of_int V) ;;
    let k := of_int (CURRENT_ERROR_RANGE p ÷ VOLTAGE_ERROR_RANGE p) in
    if dgt r (dneg (dadd g k)) && dgt r (dneg (dsub g k))
    then ret (DUTY_CYCLE_INCREMENT p)
    else if dlt r (dneg (dadd g k)) && dlt r (dneg (dsub g k))
    then ret (- DUTY_CYCLE_INCREMENT p)
    else ret 0.

(** The IC block of [Old]: a chained comparison [-R < dV < R], which C++
    reads as [(-R < dV) < R], a current test against [+R] in the decrement
    arm, and integer quotients in the second branch. *)
Definition ic_delta_old (p : ic_params) (dV dI I V : Z) : M Z :=
  if Z.b2z (- VOLTAGE_ERROR_RANGE p <? dV) <? VOLTAGE_ERROR_RANGE p then
    if dI >? CURRENT_ERROR_RANGE p then ret (DUTY_CYCLE_INCREMENT p)
    else if dI <? CURRENT_ERROR_RANGE p then ret (- DUTY_CYCLE_INCREMENT p)
    else ret 0
  else
    q1 <- idivide dI dV ;;
    q2 <- idivide (- I) V ;;
    if q1 >? q2 then ret (DUTY_CYCLE_INCREMENT p) else ret 0.

Definition avg_ic_params : ic_params :=
  {| DUTY_CYCLE_INCREMENT := 20; VOLTAGE_ERROR_RANGE := 10; CURRENT_ERROR_RANGE := 20 |}.

Definition hw_ic_params : ic_params :=
  {| DUTY_CYCLE_INCREMENT := 1; VOLTAGE_ERROR_RANGE := 10; CURRENT_ERROR_RANGE := 10 |}.

Definition old_ic_params : ic_params :=
  {| DUTY_CYCLE_INCREMENT := 20; VOLTAGE_ERROR_RANGE := 100; CURRENT_ERROR_RANGE := 200 |}.

(** ** The PI voltage regulator *)

Record pi_params : Type := {
  kp : Q;
  ki : Q;
  desiredLowVoltage : Z;
  (** the divisor of the percent error, from the measured voltage *)
  denominator : Z -> dbl;
  DUTY_MIN : Z;
  DUTY_MAX : Z
}.

Definition percent_error (p : pi_params) (actualLowVoltage : Z) : M dbl :=
  let voltageError := actualLowVoltage - desiredLowVoltage p in
  divide (of_int voltageError) (denominator p actualLowVoltage).

Definition proportional_term (p : pi_params) (r : dbl) : dbl :=
  dneg (dmul (Fin (kp p)) r).

Definition integral_increment (p : pi_params) (r : dbl) : dbl :=
  dneg (dmul (Fin (ki p)) r).

(** The regulator block of [controlUpdate]: from the measured voltage, the
    duty cycle and the integral accumulator to the new duty cycle, handed
    to [setDutyCycle], and the new accumulator. *)
Definition pi_update (p : pi_params) (actualLowVoltage dutyCycle : Z)
    (integralControl : dbl) : M (Z * dbl) :=
  r1 <- percent_error p actualLowVoltage ;;
  let proportionalControl := proportional_term p r1 in
  r2 <- percent_error p actualLowVoltage ;;
  let integralControl := dadd integralControl (integral_increment p r2) in
  match to_u16 (dadd (of_int dutyCycle)
                     (dmul (of_int dutyCycle)
                           (dadd proportionalControl integralControl))) with
  | None => undefined_behaviour
  | Some d =>
      let d := constrain d (DUTY_MIN p) (DUTY_MAX p) in
      emit (EvSetDutyCycle d) ;;;
      ret (d, integralControl)
  end.

Definition pid_avg_pi_params : pi_params :=
  {| kp := 3 # 10; ki := 5 # 100; desiredLowVoltage := 8000;
     denominator := of_int; DUTY_MIN := 10; DUTY_MAX := 1023 |}.

Definition old_pi_params : pi_params :=
  {| kp := 3 # 10; ki := 5 # 100; desiredLowVoltage := 8000;
     denominator := of_int; DUTY_MIN := 10; DUTY_MAX := 1014 |}.

(** "add 1 to prevent divide by 0" *)
Definition buck_pi_params : pi_params :=
  {| kp := 3 # 10; ki := 0; desiredLowVoltage := 5000;
     denominator := fun v => dadd (of_int v) (of_int 1);
     DUTY_MIN := 10; DUTY_MAX := 1014 |}.

(** [dutyCycle = (desiredLowVoltage * 1024) / actualHighVoltage] in [setup]. *)
Definition setup_duty (desired actualHighVoltage : Z) : M Z :=
  q <- idivide (desired * 1024) actualHighVoltage ;;
  ret (u16 q).

(** ** The safety interlock *)

(** [dutyCycle = ((12000 / getCalibratedVH()) * 1024)], the duty cycle
    forced while the safety flag is up. *)
Definition protective_duty (calibratedVH : Z) : M Z :=
  q <- idivide 12000 calibratedVH ;;
  ret (u16 (q * 1024)).

Record avg_config : Type := {
  NUM_AVERAGES : Z;
  SAFETY_ENABLE : bool;
  LOW_SIDE_MAX_VOLTAGE : Z;
  ic : ic_params
}.

(** The configuration in the repository: the safety gate is compiled out. *)
Definition shipped : avg_config :=
  {| NUM_AVERAGES := 1000; SAFETY_ENABLE := false;
     LOW_SIDE_MAX_VOLTAGE := 15000; ic := avg_ic_params |}.

Definition with_safety (c : avg_config) : avg_config :=
  {| NUM_AVERAGES := NUM_AVERAGES c; SAFETY_ENABLE := true;
     LOW_SIDE_MAX_VOLTAGE := LOW_SIDE_MAX_VOLTAGE c; ic := ic c |}.

(** ** Running a callback over successive timer interrupts *)

Fixpoint run {R S : Type} (tick : R -> S -> M S) (rds : list R) (st : S) : M S :=
  match rds with
  | [] => ret st
  | rd :: rds' => st' <- tick rd st ;; run tick rds' st'
  end.

(** The sensor values of one interrupt (voltages after calibration). *)
Record sensors : Type := {
  IL : Z;
  IH : Z;
  VL : Z;
  VH : Z
}.

(** ** IC controller with averaging, no PI *)

Module AvgIC.

Record state : Type := {
  dutyCycle : Z;
  VOLTAGE_SAFETY : bool;
  avgCount : Z;
  avgLowCurrentSum : Z;
  avgHighCurrentSum : Z;
  avgLowVoltageSum : Z;
  avgHighVoltageSum : Z;
  avgLowCurrent : Z;
  avgPrevLowCurrent : Z;
  avgLowVoltage : Z;
  avgPrevLowVoltage : Z;
  avgHighCurrent : Z;
  avgHighVoltage : Z;
  dV : Z;
  dI : Z;
  ledState : bool
}.

(** After [setup]: 50% duty cycle, every other global zero. *)
Definition init : state :=
  {| dutyCycle := 512; VOLTAGE_SAFETY := false; avgCount := 0;
     avgLowCurrentSum := 0; avgHighCurrentSum := 0;
     avgLowVoltageSum := 0; avgHighVoltageSum := 0;
     avgLowCurrent := 0; avgPrevLowCurrent := 0;
     avgLowVoltage := 0; avgPrevLowVoltage := 0;
     avgHighCurrent := 0; avgHighVoltage := 0;
     dV := 0; dI := 0; ledState := true |}.

Definition shutdown (rd : sensors) (st : state) : M state :=
  d <- protective_duty (VH rd) ;;
  emit (EvSetDutyCycle d) ;;;
  emit (EvPrint "Safety Shutoff Triggered") ;;;
  ret {| dutyCycle := d; VOLTAGE_SAFETY := VOLTAGE_SAFETY st;
         avgCount := avgCount st;
         avgLowCurrentSum := avgLowCurrentSum st;
         avgHighCurrentSum := avgHighCurrentSum st;
         avgLowVoltageSum := avgLowVoltageSum st;
         avgHighVoltageSum := avgHighVoltageSum st;
         avgLowCurrent := avgLowCurrent st;
         avgPrevLowCurrent := avgPrevLowCurrent st;
         avgLowVoltage := avgLowVoltage st;
         avgPrevLowVoltage := avgPrevLowVoltage st;
         avgHighCurrent := avgHighCurrent st;
         avgHighVoltage := avgHighVoltage st;
         dV := dV st; dI := dI st; ledState := ledState st |}.

Definition controlUpdate (c : avg_config) (rd : sensors) (st : state) : M state :=
  if SAFETY_ENABLE c && VOLTAGE_SAFETY st then shutdown rd st
  else
    let lowCurrentSum := avgLowCurrentSum st + IL rd in
    let highCurrentSum := avgHighCurrentSum st + IH rd in
    let lowVoltageSum := avgLowVoltageSum st + VL rd in
    let highVoltageSum := avgHighVoltageSum st + VH rd in
    let count := avgCount st + 1 in
    emit (EvSetLED (ledState st)) ;;;
    if count =? NUM_AVERAGES c then
      let lowCurrent := lowCurrentSum ÷ (NUM_AVERAGES c + 1) in
      let lowVoltage := lowVoltageSum ÷ (NUM_AVERAGES c + 1) in
      let highCurrent := highCurrentSum ÷ (NUM_AVERAGES c + 1) in
      let highVoltage := highVoltageSum ÷ (NUM_AVERAGES c + 1) in
      let dv := lowVoltage - avgPrevLowVoltage st in
      let di := lowCurrent - avgPrevLowCurrent st in
      let over := lowVoltage >? LOW_SIDE_MAX_VOLTAGE c in
      (if over then emit (EvPrint "Low Side Overvoltage") else ret tt) ;;;
      delta <- ic_delta (ic c) dv di lowCurrent lowVoltage ;;
      let d := constrain (u16 (dutyCycle st + delta)) 10 1023 in
      emit (EvSetDutyCycle d) ;;;
      emit EvTransmit ;;;
      ret {| dutyCycle := d; VOLTAGE_SAFETY := VOLTAGE_SAFETY st || over;
             avgCount := 0;
             avgLowCurrentSum := 0; avgHighCurrentSum := 0;
             avgLowVoltageSum := 0; avgHighVoltageSum := 0;
             avgLowCurrent := lowCurrent; avgPrevLowCurrent := lowCurrent;
             avgLowVoltage := lowVoltage; avgPrevLowVoltage := lowVoltage;
             avgHighCurrent := highCurrent; avgHighVoltage := highVoltage;
             dV := dv; dI := di; ledState := negb (ledState st) |}
    else
      ret {| dutyCycle := dutyCycle st; VOLTAGE_SAFETY := VOLTAGE_SAFETY st;
             avgCount := count;
             avgLowCurrentSum := lowCurrentSum;
             avgHighCurrentSum := highCurrentSum;
             avgLowVoltageSum := lowVoltageSum;
             avgHighVoltageSum := highVoltageSum;
             avgLowCurrent := avgLowCurrent st;
             avgPrevLowCurrent := avgPrevLowCurrent st;
             avgLowVoltage := avgLowVoltage st;
             avgPrevLowVoltage := avgPrevLowVoltage st;
             avgHighCurrent := avgHighCurrent st;
             avgHighVoltage := avgHighVoltage st;
             dV := dV st; dI := dI st; ledState := negb (ledState st) |}.

End AvgIC.

(** ** PI regulator followed by the IC engine with averaging *)

Module PidAvg.

(** [getCalibratedVL] is called twice in an accumulating interrupt: by the
    regulator ([regulatorVL]) and for the running sum ([VL sample]). *)
Record reading : Type := {
  regulatorVL : Z;
  sample : sensors
}.

Record state : Type := {
  dutyCycle : Z;
  actualLowVoltage : Z;
  VOLTAGE_SAFETY : bool;
  integralControl : dbl;
  avgCount : Z;
  avgLowCurrentSum : Z;
  avgLowVoltageSum : Z;
  avgHighCurrentSum : Z;
  avgHighVoltageSum : Z;
  avgLowCurrent : Z;
  avgPrevLowCurrent : Z;
  avgLowVoltage : Z;
  avgPrevLowVoltage : Z;
  avgHighCurrent : Z;
  avgHighVoltage : Z;
  dV : Z;
  dI : Z;
  ledState : bool
}.

(** After [setup], which leaves [initialDuty] in [dutyCycle]. *)
Definition init (initialDuty : Z) : state :=
  {| dutyCycle := initialDuty; actualLowVoltage := 0;
     VOLTAGE_SAFETY := false; integralControl := Fin 0; avgCount := 0;
     avgLowCurrentSum := 0; avgLowVoltageSum := 0;
     avgHighCurrentSum := 0; avgHighVoltageSum := 0;
     avgLowCurrent := 0; avgPrevLowCurrent := 0;
     avgLowVoltage := 0; avgPrevLowVoltage := 0;
     avgHighCurrent := 0; avgHighVoltage := 0;
     dV := 0; dI := 0; ledState := true |}.

Definition shutdown (rd : reading) (st : state) : M state :=
  d <- protective_duty (VH (sample rd)) ;;
  emit (EvSetDutyCycle d) ;;;
  emit (EvPrint "Safety Shutoff Triggered") ;;;
  ret {| dutyCycle := d; actualLowVoltage := actualLowVoltage st;
         VOLTAGE_SAFETY := VOLTAGE_SAFETY st;
         integralControl := integralControl st;
         avgCount := avgCount st;
         avgLowCurrentSum := avgLowCurrentSum st;
         avgLowVoltageSum := avgLowVoltageSum st;
         avgHighCurrentSum := avgHighCurrentSum st;
         avgHighVoltageSum := avgHighVoltageSum st;
         avgLowCurrent := avgLowCurrent st;
         avgPrevLowCurrent := avgPrevLowCurrent st;
         avgLowVoltage := avgLowVoltage st;
         avgPrevLowVoltage := avgPrevLowVoltage st;
         avgHighCurrent := avgHighCurrent st;
         avgHighVoltage := avgHighVoltage st;
         dV := dV st; dI := dI st; ledState := ledState st |}.

Definition controlUpdate (c : avg_config) (rd : reading) (st : state) : M state :=
  if SAFETY_ENABLE c && VOLTAGE_SAFETY st then shutdown rd st
  else
    let vl := regulatorVL rd in
    di <- pi_update pid_avg_pi_params vl (dutyCycle st) (integralControl st) ;;
    let duty := fst di in
    let integral := snd di in
    emit (EvSetLED (ledState st)) ;;;
    if avgCount st =? NUM_AVERAGES c then
      let lowCurrent := avgLowCurrentSum st ÷ (NUM_AVERAGES c + 1) in
      let lowVoltage := avgLowVoltageSum st ÷ (NUM_AVERAGES c + 1) in
      let highCurrent := avgHighCurrentSum st ÷ (NUM_AVERAGES c + 1) in
      let highVoltage := avgHighVoltageSum st ÷ (NUM_AVERAGES c + 1) in
      let dv := lowVoltage - avgPrevLowVoltage st in
      let di := lowCurrent - avgPrevLowCurrent st in
      let over := lowVoltage >? LOW_SIDE_MAX_VOLTAGE c in
      (if over then emit (EvPrint "Low Side Overvoltage") else ret tt) ;;;
      delta <- ic_delta (ic c) dv di lowCurrent lowVoltage ;;
      emit EvTransmit ;;;
      ret {| dutyCycle := u16 (duty + delta); actualLowVoltage := vl;
             VOLTAGE_SAFETY := VOLTAGE_SAFETY st || over;
             integralControl := integral;
             avgCount := 0;
             avgLowCurrentSum := 0; avgLowVoltageSum := 0;
             avgHighCurrentSum := 0; avgHighVoltageSum := 0;
             avgLowCurrent := lowCurrent; avgPrevLowCurrent := lowCurrent;
             avgLowVoltage := lowVoltage; avgPrevLowVoltage := lowVoltage;
             avgHighCurrent := highCurrent; avgHighVoltage := highVoltage;
             dV := dv; dI := di; ledState := negb (ledState st) |}
    else
      ret {| dutyCycle := duty; actualLowVoltage := vl;
             VOLTAGE_SAFETY := VOLTAGE_SAFETY st;
             integralControl := integral;
             avgCount := avgCount st + 1;
             avgLowCurrentSum := avgLowCurrentSum st + IL (sample rd);
             avgLowVoltageSum := avgLowVoltageSum st + VL (sample rd);
             avgHighCurrentSum := avgHighCurrentSum st + IH (sample rd);
             avgHighVoltageSum := avgHighVoltageSum st + VH (sample rd);
             avgLowCurrent := avgLowCurrent st;
             avgPrevLowCurrent := avgPrevLowCurrent st;
             avgLowVoltage := avgLowVoltage st;
             avgPrevLowVoltage := avgPrevLowVoltage st;
             avgHighCurrent := avgHighCurrent st;
             avgHighVoltage := avgHighVoltage st;
             dV := dV st; dI := dI st; ledState := negb (ledState st) |}.

End PidAvg.

(** ** The AtverterH IC controller *)

Module Hw.

Definition LOW_SIDE_MAX_VOLTAGE : Z := 18000.
Definition LOW_VOLTAGE_RESET : Z := 9000.
Definition HIGH_VOLTAGE_RESET : Z := 15000.

(** What the hardware layer answers during one interrupt: the filtered
    sensor values and [isGateShutdown()]. *)
Record reading : Type := {
  V1 : Z;
  V2 : Z;
  I1 : Z;
  I2 : Z;
  isGateShutdown : bool
}.

Record state : Type := {
  dutyCycle : Z;
  slowInterruptCounter : Z;
  lowCurrent : Z;
  prevLowCurrent : Z;
  lowVoltage : Z;
  prevLowVoltage : Z;
  highCurrent : Z;
  highVoltage : Z;
  dV : Z;
  dI : Z;
  ledState : bool
}.

Definition init : state :=
  {| dutyCycle := 50; slowInterruptCounter := 0;
     lowCurrent := 0; prevLowCurrent := 0;
     lowVoltage := 0; prevLowVoltage := 0;
     highCurrent := 0; highVoltage := 0;
     dV := 0; dI := 0; ledState := true |}.

(** The sensor update, the current and thermal checks and the bootstrap
    refresh happen inside the hardware layer; what the callback sees of them
    is the reading.  The shutdown report also prints the layer's shutdown
    code. *)
Definition controlUpdate (rd : reading) (st : state) : M state :=
  (if V2 rd >? LOW_SIDE_MAX_VOLTAGE
   then emit (EvShutdownGates 4) ;;; emit (EvPrint "Low Side Overvoltage")
   else ret tt) ;;;
  if isGateShutdown rd then
    emit (EvPrint "Safety Shutoff Triggered") ;;;
    ret st
  else
    (if (V2 rd <? LOW_VOLTAGE_RESET) || (V2 rd >? HIGH_VOLTAGE_RESET)
     then emit (EvSetDutyCycle 50) else ret tt) ;;;
    let counter := slowInterruptCounter st + 1 in
    if counter >? 1000 then
      emit (EvSetLED (ledState st)) ;;;
      let lowCurrent := - I2 rd in
      let lowVoltage := V2 rd in
      let dv := lowVoltage - prevLowVoltage st in
      let di := lowCurrent - prevLowCurrent st in
      delta <- ic_delta hw_ic_params dv di lowCurrent lowVoltage ;;
      let d := u16 (dutyCycle st + delta) in
      emit (EvSetDutyCycle d) ;;;
      emit EvTransmit ;;;
      ret {| dutyCycle := d; slowInterruptCounter := 0;
             lowCurrent := lowCurrent; prevLowCurrent := lowCurrent;
             lowVoltage := lowVoltage; prevLowVoltage := lowVoltage;
             highCurrent := I1 rd; highVoltage := V1 rd;
             dV := dv; dI := di; ledState := negb (ledState st) |}
    else
      ret {| dutyCycle := dutyCycle st; slowInterruptCounter := counter;
             lowCurrent := lowCurrent st; prevLowCurrent := prevLowCurrent st;
             lowVoltage := lowVoltage st; prevLowVoltage := prevLowVoltage st;
             highCurrent := highCurrent st; highVoltage := highVoltage st;
             dV := dV st; dI := dI st; ledState := ledState st |}.

End Hw.

(** ** The first PI + IC draft *)

Module Old.

Record state : Type := {
  dutyCycle : Z;
  actualLowVoltage : Z;
  integralControl : dbl;
  actualLowCurrent : Z;
  prevActualLowVoltage : Z;
  prevActualLowCurrent : Z;
  dV : Z;
  dI : Z;
  ledState : bool
}.

Definition init (initialDuty : Z) : state :=
  {| dutyCycle := initialDuty; actualLowVoltage := 0;
     integralControl := Fin 0; actualLowCurrent := 0;
     prevActualLowVoltage := 1; prevActualLowCurrent := 1;
     dV := 0; dI := 0; ledState := true |}.

Definition controlUpdate (rd : sensors) (st : state) : M state :=
  let vl := VL rd in
  di <- pi_update old_pi_params vl (dutyCycle st) (integralControl st) ;;
  emit EvTransmit ;;;
  emit (EvSetLED (ledState st)) ;;;
  let current := IL rd in
  let dv := vl - prevActualLowVoltage st in
  let dc := current - prevActualLowCurrent st in
  delta <- ic_delta_old old_ic_params dv dc current vl ;;
  ret {| dutyCycle := u16 (fst di + delta); actualLowVoltage := vl;
         integralControl := snd di; actualLowCurrent := current;
         prevActualLowVoltage := vl; prevActualLowCurrent := current;
         dV := dv; dI := dc; ledState := negb (ledState st) |}.

End Old.

(** ** The voltage-targeting buck converter (PI only) *)

Module Buck.

Record state : Type := {
  dutyCycle : Z;
  actualLowVoltage : Z;
  integralControl : dbl;
  ledState : bool
}.

Definition init (initialDuty : Z) : state :=
  {| dutyCycle := initialDuty; actualLowVoltage := 0;
     integralControl := Fin 0; ledState := true |}.

Definition controlUpdate (rd : sensors) (st : state) : M state :=
  let vl := VL rd in
  di <- pi_update buck_pi_params vl (dutyCycle st) (integralControl st) ;;
  emit EvTransmit ;;;
  emit (EvSetLED (ledState st)) ;;;
  ret {| dutyCycle := fst di; actualLowVoltage := vl;
         integralControl := snd di; ledState := negb (ledState st) |}.

End Buck.

(** ** Vocabulary of the properties *)

(** [|dV| < VOLTAGE_ERROR_RANGE]. *)
Definition in_voltage_band (p : ic_params) (dV : Z) : Prop :=
  - VOLTAGE_ERROR_RANGE p < dV < VOLTAGE_ERROR_RANGE p.

Definition within (low high d : Z) : Prop := low <= d <= high.

Definition is_transmit (e : event) : bool :=
  match e with
  | EvTransmit => true
  | _ => false
  end.

(** Number of closed averaging windows in a trace: [transmitData] is called
    once at the end of each. *)
Definition closings (l : list event) : nat := length (filter is_transmit l).

Definition sum (l : list Z) : Z := fold_right Z.add 0 l.

(** ** Concrete inputs used below *)

Definition hw_reading (v2 i2 : Z) : Hw.reading :=
  {| Hw.V1 := 20000; Hw.V2 := v2; Hw.I1 := 0; Hw.I2 := i2;
     Hw.isGateShutdown := false |}.

(** One slow period (1001 interrupts) at a constant reading. *)
Definition hw_period (v2 i2 : Z) : list Hw.reading :=
  repeat (hw_reading v2 i2) 1001.

(** The panel at 12 V, then disconnected. *)
Definition hw_blackout : list Hw.reading :=
  hw_period 12000 (-5) ++ hw_period 0 0.

(** Fifty-two slow periods at 12 V during which the current read on side 2
    grows by 11 mA per period. *)
Definition hw_descent : list Hw.reading :=
  flat_map (fun k => hw_period 12000 (11 * Z.of_nat k)) (seq 0 52).

(** What an interrupt does while the safety gate holds. *)
Definition shutdown_trace (calibratedVH : Z) : list event :=
  [EvDivide (of_int calibratedVH);
   EvSetDutyCycle (u16 (12000 ÷ calibratedVH * 1024));
   EvPrint "Safety Shutoff Triggered"].

(** An averaging window at 16 V and 100 mA, then one at 200 mA. *)
Definition overvoltage_windows : list sensors * list sensors :=
  (repeat {| IL := 100; IH := 100; VL := 16000; VH := 20000 |} 1000,
   repeat {| IL := 200; IH := 100; VL := 16000; VH := 20000 |} 1000).

(** The four running sums and the four averages, in the order low current,
    low voltage, high current, high voltage. *)
Definition totals (rds : list sensors) : list Z :=
  [sum (map IL rds); sum (map VL rds); sum (map IH rds); sum (map VH rds)].

Definition AvgIC_sums (st : AvgIC.state) : list Z :=
  [AvgIC.avgLowCurrentSum st; AvgIC.avgLowVoltageSum st;
   AvgIC.avgHighCurrentSum st; AvgIC.avgHighVoltageSum st].

Definition AvgIC_averages (st : AvgIC.state) : list Z :=
  [AvgIC.avgLowCurrent st; AvgIC.avgLowVoltage st;
   AvgIC.avgHighCurrent st; AvgIC.avgHighVoltage st].

Definition PidAvg_sums (st : PidAvg.state) : list Z :=
  [PidAvg.avgLowCurrentSum st; PidAvg.avgLowVoltageSum st;
   PidAvg.avgHighCurrentSum st; PidAvg.avgHighVoltageSum st].

Definition PidAvg_averages (st : PidAvg.state) : list Z :=
  [PidAvg.avgLowCurrent st; PidAvg.avgLowVoltage st;
   PidAvg.avgHighCurrent st; PidAvg.avgHighVoltage st].

(** A state of [AvgIC] past the overvoltage trip. *)
Definition tripped : AvgIC.state :=
  {| AvgIC.dutyCycle := 512; AvgIC.VOLTAGE_SAFETY := true; AvgIC.avgCount := 0;
     AvgIC.avgLowCurrentSum := 0; AvgIC.avgHighCurrentSum := 0;
     AvgIC.avgLowVoltageSum := 0; AvgIC.avgHighVoltageSum := 0;
     AvgIC.avgLowCurrent := 99; AvgIC.avgPrevLowCurrent := 99;
     AvgIC.avgLowVoltage := 15984; AvgIC.avgPrevLowVoltage := 15984;
     AvgIC.avgHighCurrent := 99; AvgIC.avgHighVoltage := 19980;
     AvgIC.dV := 15984; AvgIC.dI := 99; AvgIC.ledState := true |}.

(** The regulator block alone, as a step on (duty cycle, accumulator). *)
Definition pi_tick (p : pi_params) (actualLowVoltage : Z) (s : Z * dbl) : M (Z * dbl) :=
  pi_update p actualLowVoltage (fst s) (snd s).

(** The measured voltage far above the target for twenty interrupts, then
    at zero. *)
Definition buck_collapse : list sensors * sensors :=
  (repeat {| IL := 0; IH := 0; VL := 50000; VH := 12000 |} 20,
   {| IL := 0; IH := 0; VL := 0; VH := 12000 |}).

(** ** Further parts of the firmware *)

(** Conversion of a double to [int32_t], as [to_u16]. *)
Definition to_i32 (x : dbl) : option Z :=
  match x with
  | Fin q =>
      let t := Qtrunc q in
      if (-2147483648 <=? t) && (t <=? 2147483647) then Some t else None
  | _ => None
  end.

(** [getCalibratedVL] of the IC controller with averaging:
    [(int32_t)(((double)getActualVL() * VL_scale) + VL_offset)] with a scale
    of 1.00 and an offset of 36. *)
Definition AvgIC_getCalibratedVL (actualVL : Z) : option Z :=
  to_i32 (dadd (dmul (of_int actualVL) (Fin 1)) (Fin 36)).

(** The low-side differences computed by the interrupt of [AvgIC] that
    closes a window. *)
Definition AvgIC_closing_dV (c : avg_config) (rd : sensors) (st : AvgIC.state) : Z :=
  (AvgIC.avgLowVoltageSum st + VL rd) ÷ (NUM_AVERAGES c + 1)
  - AvgIC.avgPrevLowVoltage st.

Definition AvgIC_closing_dI (c : avg_config) (rd : sensors) (st : AvgIC.state) : Z :=
  (AvgIC.avgLowCurrentSum st + IL rd) ÷ (NUM_AVERAGES c + 1)
  - AvgIC.avgPrevLowCurrent st.

(** [setup] of the regulating variants: the initial duty cycle goes to
    [setDutyCycle] as computed. *)
Definition PidAvg_setup (actualHighVoltage : Z) : M PidAvg.state :=
  d <- setup_duty 8000 actualHighVoltage ;;
  emit (EvSetDutyCycle d) ;;;
  ret (PidAvg.init d).

Definition Old_setup (actualHighVoltage : Z) : M Old.state :=
  d <- setup_duty 8000 actualHighVoltage ;;
  emit (EvSetDutyCycle d) ;;;
  ret (Old.init d).

Definition Buck_setup (actualHighVoltage : Z) : M Buck.state :=
  d <- setup_duty 5000 actualHighVoltage ;;
  emit (EvSetDutyCycle d) ;;;
  ret (Buck.init d).

(** [V2] outside the normal operating range of the AtverterH controller. *)
Definition hw_out_of_range (v2 : Z) : bool :=
  (v2 <? Hw.LOW_VOLTAGE_RESET) || (v2 >? Hw.HIGH_VOLTAGE_RESET).

(** ** The dashboard's charts *)

Module Dashboard.

(** A chart's data: the time labels and the two series. *)
Record chart (T V : Type) : Type := {
  labels : list T;
  voltages : list V;
  currents : list V
}.
Arguments labels {T V} _.
Arguments voltages {T V} _.
Arguments currents {T V} _.

Definition maxPoints : nat := 120.

(** [Array.prototype.shift]: drops the first element, if any. *)
Definition shift {A : Type} (l : list A) : list A := tl l.

Definition updateChart {T V : Type} (c : chart T V) (time : T) (voltage current : V)
  : chart T V :=
  let ls := labels c ++ [time] in
  let vs := voltages c ++ [voltage] in
  let cs := currents c ++ [current] in
  if (maxPoints <? length ls)%nat
  then {| labels := shift ls; voltages := shift vs; currents := shift cs |}
  else {| labels := ls; voltages := vs; currents := cs |}.

(** The chart part of [clearGraphs]. *)
Definition clearGraphs {T V : Type} (c : chart T V) : chart T V :=
  {| labels := []; voltages := []; currents := [] |}.

(** The last [n] elements. *)
Definition lastn {A : Type} (n : nat) (l : list A) : list A :=
  skipn (length l - n) l.

(** Successive calls of [updateChart], one per point. *)
Definition feed {T V : Type} (c : chart T V) (points : list (T * V * V)) : chart T V :=
  fold_left (fun c p => updateChart c (fst (fst p)) (snd (fst p)) (snd p)) points c.

End Dashboard.

(** ** More concrete inputs *)

(** Twenty-seven averaging windows at 12 V in which the low-side current
    falls by 50 mA per window. *)
Definition avg_descent : list sensors :=
  flat_map (fun k => repeat {| IL := 5000 - 50 * Z.of_nat k; IH := 0;
                               VL := 12000; VH := 20000 |} 1000)
           (seq 0 27).

(** A state of [AvgIC] one accumulation short of a window, at a duty cycle
    of 12, after a window that averaged 100 mA. *)
Definition near_floor : AvgIC.state :=
  {| AvgIC.dutyCycle := 12; AvgIC.VOLTAGE_SAFETY := false; AvgIC.avgCount := 999;
     AvgIC.avgLowCurrentSum := 0; AvgIC.avgHighCurrentSum := 0;
     AvgIC.avgLowVoltageSum := 0; AvgIC.avgHighVoltageSum := 0;
     AvgIC.avgLowCurrent := 100; AvgIC.avgPrevLowCurrent := 100;
     AvgIC.avgLowVoltage := 0; AvgIC.avgPrevLowVoltage := 0;
     AvgIC.avgHighCurrent := 0; AvgIC.avgHighVoltage := 0;
     AvgIC.dV := 0; AvgIC.dI := 0; AvgIC.ledState := true |}.

(** The low-side differences computed by the interrupt of [PidAvg] that
    closes a window (it does not accumulate). *)
Definition PidAvg_closing_dV (c : avg_config) (st : PidAvg.state) : Z :=
  PidAvg.avgLowVoltageSum st ÷ (NUM_AVERAGES c + 1) - PidAvg.avgPrevLowVoltage st.

Definition PidAvg_closing_dI (c : avg_config) (st : PidAvg.state) : Z :=
  PidAvg.avgLowCurrentSum st ÷ (NUM_AVERAGES c + 1) - PidAvg.avgPrevLowCurrent st.

(** A state of [PidAvg] about to close a window, the duty cycle at its
    floor of 10, after a window that averaged 100 mA. *)
Definition pid_at_floor : PidAvg.state :=
  {| PidAvg.dutyCycle := 10; PidAvg.actualLowVoltage := 8000;
     PidAvg.VOLTAGE_SAFETY := false; PidAvg.integralControl := Fin 0;
     PidAvg.avgCount := 1000;
     PidAvg.avgLowCurrentSum := 0; PidAvg.avgLowVoltageSum := 0;
     PidAvg.avgHighCurrentSum := 0; PidAvg.avgHighVoltageSum := 0;
     PidAvg.avgLowCurrent := 100; PidAvg.avgPrevLowCurrent := 100;
     PidAvg.avgLowVoltage := 0; PidAvg.avgPrevLowVoltage := 0;
     PidAvg.avgHighCurrent := 0; PidAvg.avgHighVoltage := 0;
     PidAvg.dV := 0; PidAvg.dI := 0; PidAvg.ledState := true |}.

(** ** Ranges of the signed variables *)

(** The model keeps the signed variables in [Z].  It computes what the
    program computes as long as no signed operation leaves the range of its
    C type; beyond that range C++ leaves the behaviour undefined.  [int] is
    read at 16 bits, the least the language allows and its width on the
    8-bit microcontroller of the board: a run within these ranges is within
    them for every width of [int]. *)
Definition fits_int (z : Z) : bool := (-32768 <=? z) && (z <=? 32767).

Definition fits_int32 (z : Z) : bool := (-2147483648 <=? z) && (z <=? 2147483647).

(** One interrupt of [AvgIC] keeps every signed variable within its type:
    the current readings and their sums are [int], the voltage readings and
    their sums [int32_t], the counter [int16_t], and on the closing
    interrupt [NUM_AVERAGES + 1] is [int], [dV] is [int32_t] and [dI] is
    [int].  While the gate holds, the interrupt touches none of them. *)
Definition AvgIC_interrupt_fits (c : avg_config) (rd : sensors) (st : AvgIC.state)
  : bool :=
  if SAFETY_ENABLE c && AvgIC.VOLTAGE_SAFETY st then true
  else
    fits_int (IL rd) && fits_int (IH rd) &&
    fits_int32 (VL rd) && fits_int32 (VH rd) &&
    fits_int (AvgIC.avgLowCurrentSum st + IL rd) &&
    fits_int (AvgIC.avgHighCurrentSum st + IH rd) &&
    fits_int32 (AvgIC.avgLowVoltageSum st + VL rd) &&
    fits_int32 (AvgIC.avgHighVoltageSum st + VH rd) &&
    fits_int (AvgIC.avgCount st + 1) &&
    (if AvgIC.avgCount st + 1 =? NUM_AVERAGES c
     then fits_int (NUM_AVERAGES c + 1) &&
          fits_int32 (AvgIC_closing_dV c rd st) &&
          fits_int (AvgIC_closing_dI c rd st)
     else true).

(** Every interrupt of a run of [AvgIC] does. *)
Fixpoint AvgIC_run_fits (c : avg_config) (rds : list sensors) (st : AvgIC.state)
  : bool :=
  match rds with
  | [] => true
  | rd :: rds' =>
      AvgIC_interrupt_fits c rd st &&
      match result (AvgIC.controlUpdate c rd st) with
      | Some st' => AvgIC_run_fits c rds' st'
      | None => true
      end
  end.

(** The same for [PidAvg], whose sums, averages and differences are all
    [int32_t]; the current readings are [int], the counter is [int16_t],
    and the regulator computes the [int32_t] voltage error. *)
Definition PidAvg_interrupt_fits (c : avg_config) (rd : PidAvg.reading)
    (st : PidAvg.state) : bool :=
  if SAFETY_ENABLE c && PidAvg.VOLTAGE_SAFETY st then true
  else
    fits_int32 (PidAvg.regulatorVL rd) &&
    fits_int32 (PidAvg.regulatorVL rd - desiredLowVoltage pid_avg_pi_params) &&
    (if PidAvg.avgCount st =? NUM_AVERAGES c
     then fits_int (NUM_AVERAGES c + 1) &&
          fits_int32 (PidAvg_closing_dV c st) &&
          fits_int32 (PidAvg_closing_dI c st)
     else
       fits_int (IL (PidAvg.sample rd)) && fits_int (IH (PidAvg.sample rd)) &&
       fits_int32 (VL (PidAvg.sample rd)) && fits_int32 (VH (PidAvg.sample rd)) &&
       fits_int32 (PidAvg.avgLowCurrentSum st + IL (PidAvg.sample rd)) &&
       fits_int32 (PidAvg.avgHighCurrentSum st + IH (PidAvg.sample rd)) &&
       fits_int32 (PidAvg.avgLowVoltageSum st + VL (PidAvg.sample rd)) &&
       fits_int32 (PidAvg.avgHighVoltageSum st + VH (PidAvg.sample rd)) &&
       fits_int (PidAvg.avgCount st + 1)).

Fixpoint PidAvg_run_fits (c : avg_config) (rds : list PidAvg.reading)
    (st : PidAvg.state) : bool :=
  match rds with
  | [] => true
  | rd :: rds' =>
      PidAvg_interrupt_fits c rd st &&
      match result (PidAvg.controlUpdate c rd st) with
      | Some st' => PidAvg_run_fits c rds' st'
      | None => true
      end
  end.

(** The interrupts with their signed arithmetic checked: an interrupt that
    takes a signed variable out of its type is undefined. *)
Definition AvgIC_controlUpdate_checked (c : avg_config) (rd : sensors)
    (st : AvgIC.state) : M AvgIC.state :=
  if AvgIC_interrupt_fits c rd st then AvgIC.controlUpdate c rd st
  else undefined_behaviour.

Definition PidAvg_controlUpdate_checked (c : avg_config) (rd : PidAvg.reading)
    (st : PidAvg.state) : M PidAvg.state :=
  if PidAvg_interrupt_fits c rd st then PidAvg.controlUpdate c rd st
  else undefined_behaviour.

(** The regulator of [PidAvg] reads the target voltage. *)
Definition at_target (rd : PidAvg.reading) : Prop :=
  PidAvg.regulatorVL rd = desiredLowVoltage pid_avg_pi_params.

(** Readings that fit 16 bits: the currents are [int], the voltages stay
    below 65.536 V in magnitude. *)
Definition reading_within_16_bits (s : sensors) : bool :=
  fits_int (IL s) && fits_int (IH s) &&
  (Z.abs (VL s) <=? 65535) && (Z.abs (VH s) <=? 65535).

(** A reading at 12 V whose currents, summed over a window of 1000, stay
    within a 16-bit [int]. *)
Definition low_current : sensors :=
  {| IL := 30; IH := 20; VL := 12000; VH := 20000 |}.

(** A reading of [PidAvg] with the low side on the 8 V target. *)
Definition on_target : PidAvg.reading :=
  {| PidAvg.regulatorVL := 8000;
     PidAvg.sample := {| IL := 100; IH := 50; VL := 8000; VH := 12000 |} |}.

(** A window of 1000 interrupts at 100 mA. *)
Definition window_100mA : list sensors :=
  repeat {| IL := 100; IH := 50; VL := 12000; VH := 20000 |} 1000.

(** Two interrupts of [PidAvg] whose low-side voltage reads the largest
    [int32_t]. *)
Definition top_of_int32 : list PidAvg.reading :=
  repeat {| PidAvg.regulatorVL := 8000;
            PidAvg.sample := {| IL := 0; IH := 0; VL := 2147483647; VH := 0 |} |} 2.

(** ** Rounding of doubles *)

(** An operation on doubles returns its exact result rounded to a value of
    the format; the special values are kept.  [rnd] is the rounding of the
    platform's [double]: nondecreasing, and exact on 0, 1 and -1, in every
    IEEE-754 binary format and rounding direction.  The exact doubles of
    the sections above are the case where [rnd] changes nothing. *)
Definition rounded (rnd : Q -> Q) (x : dbl) : dbl :=
  match x with
  | Fin q => Fin (rnd q)
  | _ => x
  end.

(** [ic_delta] with every conversion to [double] and every operation on
    doubles rounded.  A negation is exact. *)
Definition ic_delta_rounded (rnd : Q -> Q) (p : ic_params) (dV dI I V : Z) : M Z :=
  if (- VOLTAGE_ERROR_RANGE p <? dV) && (dV <? VOLTAGE_ERROR_RANGE p) then
    if dI >? CURRENT_ERROR_RANGE p then ret (DUTY_CYCLE_INCREMENT p)
    else if dI <? - CURRENT_ERROR_RANGE p then ret (- DUTY_CYCLE_INCREMENT p)
    else ret 0
  else
    let cast z := rounded rnd (of_int z) in
    r <- divide (cast dI) (cast dV) ;;
    g <- divide (cast I) (cast V) ;;
    let r := rounded rnd r in
    let g := rounded rnd g in
    let k := cast (CURRENT_ERROR_RANGE p ÷ VOLTAGE_ERROR_RANGE p) in
    let lower := dneg (rounded rnd (dadd g k)) in
    let upper := dneg (rounded rnd (dsub g k)) in
    if dgt r lower && dgt r upper then ret (DUTY_CYCLE_INCREMENT p)
    else if dlt r lower && dlt r upper then ret (- DUTY_CYCLE_INCREMENT p)
    else ret 0.

(** The comparisons of the second branch in IEEE-754 binary64 arithmetic,
    rounding to nearest, on operands already converted to [double]. *)
Definition ic_branch2_binary64 (step : Z) (dI dV I V k : float) : Z :=
  let r := PrimFloat.div dI dV in
  let g := PrimFloat.div I V in
  let lower := PrimFloat.opp (PrimFloat.add g k) in
  let upper := PrimFloat.opp (PrimFloat.sub g k) in
  if PrimFloat.ltb lower r && PrimFloat.ltb upper r then step
  else if PrimFloat.ltb r lower && PrimFloat.ltb r upper then - step
  else 0.

(** The measured voltage on five interrupts: twice the target on the first
    two, the target on the last three. *)
Definition overshoot_then_target : list Z := [16000; 16000; 8000; 8000; 8000].
(** * Properties *)

(** ** Numbers *)

Lemma Qlt_bool_iff (x y : Q) : Qlt_bool x y = true <-> (x < y)%Q.
Proof.
  unfold Qlt_bool. rewrite negb_true_iff. split; intro H.
  - apply Qnot_le_lt. intro Hle. apply Qle_bool_iff in Hle. congruence.
  - destruct (Qle_bool y x) eqn:E; [|reflexivity].
    apply Qle_bool_iff in E. exfalso. exact (Qlt_not_le _ _ H E).
Qed.

Lemma Qlt_bool_false_iff (x y : Q) : Qlt_bool x y = false <-> (y <= x)%Q.
Proof.
  unfold Qlt_bool. rewrite negb_false_iff. apply Qle_bool_iff.
Qed.

Lemma is_zero_of_int (z : Z) : is_zero (of_int z) = (z =? 0).
Proof.
  unfold is_zero, of_int, Qeq_bool. simpl. now rewrite Z.mul_1_r.
Qed.

Lemma ddiv_of_int (a b : Z) :
  b <> 0 -> ddiv (of_int a) (of_int b) = Fin (inject_Z a / inject_Z b).
Proof.
  intro Hb. unfold ddiv, of_int.
  change (Qeq_bool (inject_Z b) 0) with (is_zero (of_int b)).
  rewrite is_zero_of_int. apply Z.eqb_neq in Hb. now rewrite Hb.
Qed.

Lemma constrain_bounds (amt low high : Z) :
  low <= high -> low <= constrain amt low high <= high.
Proof.
  intro H. unfold constrain.
  destruct (amt <? low) eqn:E1; [lia|].
  destruct (amt >? high) eqn:E2; lia.
Qed.

Lemma constrain_id (amt low high : Z) :
  low <= amt <= high -> constrain amt low high = amt.
Proof.
  intro H. unfold constrain.
  destruct (amt <? low) eqn:E1; [lia|].
  destruct (amt >? high) eqn:E2; lia.
Qed.

(** ** The IC engine, first branch *)

Lemma in_voltage_band_test (p : ic_params) (dV : Z) :
  ((- VOLTAGE_ERROR_RANGE p <? dV) && (dV <? VOLTAGE_ERROR_RANGE p) = true)
  <-> in_voltage_band p dV.
Proof.
  unfold in_voltage_band. rewrite andb_true_iff, !Z.ltb_lt. tauto.
Qed.

(** In the maintained variants the first branch follows the current
    deadband: up for [dI > R], down for [dI < -R], hold in between, and no
    division is evaluated. *)
Lemma ic_delta_branch1 (p : ic_params) (dV dI I V : Z) :
  in_voltage_band p dV ->
  ic_delta p dV dI I V =
  ret (if dI >? CURRENT_ERROR_RANGE p then DUTY_CYCLE_INCREMENT p
       else if dI <? - CURRENT_ERROR_RANGE p then - DUTY_CYCLE_INCREMENT p
       else 0).
Proof.
  intro H. apply in_voltage_band_test in H. unfold ic_delta. rewrite H.
  destruct (dI >? CURRENT_ERROR_RANGE p); [reflexivity|].
  destruct (dI <? - CURRENT_ERROR_RANGE p); reflexivity.
Qed.

Lemma ic_delta_hold_in_current_band (p : ic_params) (dV dI I V : Z) :
  in_voltage_band p dV ->
  - CURRENT_ERROR_RANGE p <= dI <= CURRENT_ERROR_RANGE p ->
  ic_delta p dV dI I V = ret 0.
Proof.
  intros HV HI. rewrite ic_delta_branch1 by assumption.
  destruct (dI >? CURRENT_ERROR_RANGE p) eqn:E1; [lia|].
  destruct (dI <? - CURRENT_ERROR_RANGE p) eqn:E2; [lia|reflexivity].
Qed.

(** End-to-end scenario 3: [dV = 5] within the range of 10 and [dI = 25]
    above the range of 20 add the step. *)
Lemma ic_branch1_scenario (I V : Z) :
  ic_delta avg_ic_params 5 25 I V = ret (DUTY_CYCLE_INCREMENT avg_ic_params).
Proof.
  rewrite ic_delta_branch1 by (unfold in_voltage_band; simpl; lia). reflexivity.
Qed.

(** The chained comparison of the first draft holds for every [dV] as soon
    as the range exceeds 1, so its second branch is dead code. *)
Lemma ic_delta_old_branch1 (p : ic_params) (dV dI I V : Z) :
  1 < VOLTAGE_ERROR_RANGE p ->
  ic_delta_old p dV dI I V =
  ret (if dI >? CURRENT_ERROR_RANGE p then DUTY_CYCLE_INCREMENT p
       else if dI <? CURRENT_ERROR_RANGE p then - DUTY_CYCLE_INCREMENT p
       else 0).
Proof.
  intro H. unfold ic_delta_old.
  assert (E : (Z.b2z (- VOLTAGE_ERROR_RANGE p <? dV) <? VOLTAGE_ERROR_RANGE p) = true).
  { apply Z.ltb_lt. destruct (- VOLTAGE_ERROR_RANGE p <? dV); simpl; lia. }
  rewrite E.
  destruct (dI >? CURRENT_ERROR_RANGE p); [reflexivity|].
  destruct (dI <? CURRENT_ERROR_RANGE p); reflexivity.
Qed.

(** ** The IC engine, second branch *)

Lemma ic_delta_branch2 (p : ic_params) (dV dI I V : Z) :
  ~ in_voltage_band p dV ->
  ic_delta p dV dI I V =
  (let r := ddiv (of_int dI) (of_int dV) in
   let g := ddiv (of_int I) (of_int V) in
   let k := of_int (CURRENT_ERROR_RANGE p ÷ VOLTAGE_ERROR_RANGE p) in
   ([EvDivide (of_int dV); EvDivide (of_int V)],
    Some (if dgt r (dneg (dadd g k)) && dgt r (dneg (dsub g k))
          then DUTY_CYCLE_INCREMENT p
          else if dlt r (dneg (dadd g k)) && dlt r (dneg (dsub g k))
          then - DUTY_CYCLE_INCREMENT p
          else 0))).
Proof.
  intro H. unfold ic_delta.
  destruct ((- VOLTAGE_ERROR_RANGE p <? dV) && (dV <? VOLTAGE_ERROR_RANGE p)) eqn:E.
  - apply in_voltage_band_test in E. contradiction.
  - cbv zeta. unfold divide, bind, emit, ret. simpl.
    destruct (dgt _ _ && dgt _ _); [reflexivity|].
    destruct (dlt _ _ && dlt _ _); reflexivity.
Qed.

Lemma quot_band_exact (c v : Z) :
  0 < v -> (v | c) -> (inject_Z (c ÷ v) == inject_Z c / inject_Z v)%Q.
Proof.
  intros Hv [m ->]. rewrite Z.quot_mul by lia.
  rewrite inject_Z_mult. field.
  intro E. apply (Qeq_bool_neq (inject_Z v) 0); [|exact E].
  change (is_zero (of_int v) = false). rewrite is_zero_of_int. apply Z.eqb_neq. lia.
Qed.

(** C4, as amended.  With a positive voltage range the guard of the first
    branch catches [dV = 0]: the engine then evaluates no division at all,
    and whenever it does evaluate [dI / dV] the divisor is nonzero.  The
    guard says nothing about the averaged voltage: the second branch
    evaluates [I / V] for whatever [V] it is given, so a division by zero is
    evaluated exactly when [V = 0] outside the voltage band.  In the first
    draft, the second branch is never reached. *)
Theorem ic_guard_protects_dV_only (p : ic_params) (dV dI I V : Z) :
  0 < VOLTAGE_ERROR_RANGE p ->
  (dV = 0 -> trace (ic_delta p dV dI I V) = []) /\
  (trace (ic_delta p dV dI I V) = [] \/
   dV <> 0 /\
   trace (ic_delta p dV dI I V) = [EvDivide (of_int dV); EvDivide (of_int V)]) /\
  (divides_by_zero (trace (ic_delta p dV dI I V)) = true
   <-> V = 0 /\ ~ in_voltage_band p dV) /\
  trace (ic_delta_old old_ic_params dV dI I V) = [].
Proof.
  intro Hpos.
  assert (Hold : trace (ic_delta_old old_ic_params dV dI I V) = []).
  { rewrite ic_delta_old_branch1 by (simpl; lia).
    destruct (dI >? _); [reflexivity|]. destruct (dI <? _); reflexivity. }
  assert (Hzero : in_voltage_band p 0) by (unfold in_voltage_band; lia).
  assert (Hdec : in_voltage_band p dV \/ ~ in_voltage_band p dV)
    by (unfold in_voltage_band; lia).
  destruct Hdec as [Hb|Hb].
  - assert (E : trace (ic_delta p dV dI I V) = []).
    { rewrite ic_delta_branch1 by assumption.
      destruct (dI >? _); [reflexivity|]. destruct (dI <? _); reflexivity. }
    rewrite E. split; [reflexivity|]. split; [now left|].
    split; [|exact Hold]. simpl. split; [discriminate|]. intros [_ Hn]. contradiction.
  - assert (Hd : dV <> 0) by (intro; subst; contradiction).
    assert (E : trace (ic_delta p dV dI I V)
                = [EvDivide (of_int dV); EvDivide (of_int V)]).
    { rewrite ic_delta_branch2 by assumption. reflexivity. }
    rewrite E. split; [intro; contradiction|]. split; [right; now split|].
    split; [|exact Hold].
    unfold divides_by_zero. cbn [existsb zero_divisor]. rewrite !is_zero_of_int.
    apply Z.eqb_neq in Hd. rewrite Hd. simpl. rewrite orb_false_r, Z.eqb_eq.
    tauto.
Qed.

Lemma ic_guard_protects_dV_only_witness :
  0 < VOLTAGE_ERROR_RANGE avg_ic_params /\
  trace (ic_delta avg_ic_params 0 25 2000 8000) = [].
Proof.
  assert (Hrange : 0 < VOLTAGE_ERROR_RANGE avg_ic_params) by reflexivity.
  split; [exact Hrange|].
  exact (proj1 (ic_guard_protects_dV_only avg_ic_params 0 25 2000 8000 Hrange)
               eq_refl).
Defined.

(** C4 as stated fails: the AtverterH controller divides by a zero voltage
    on the period after the panel voltage drops from 12 V to 0. *)
Lemma ic_divides_by_zero_voltage :
  divides_by_zero (trace (run Hw.controlUpdate hw_blackout Hw.init)) = true /\
  ~ in_voltage_band hw_ic_params (0 - 12000) /\
  trace (ic_delta hw_ic_params (0 - 12000) (0 - 5) 0 0)
  = [EvDivide (of_int (-12000)); EvDivide (of_int 0)].
Proof.
  split; [vm_compute; reflexivity|].
  split; [unfold in_voltage_band; simpl; lia | reflexivity].
Qed.

(** C5, on the first draft.  With [|dV| = 50 < 100] and [dI = 100] inside
    the current band of 200, the draft decrements the duty cycle by the
    step, where the engine of the maintained variants holds. *)
Theorem old_branch1_decrements_inside_current_band (I V : Z) :
  ic_delta_old old_ic_params 50 100 I V = ret (-20) /\
  ic_delta old_ic_params 50 100 I V = ret 0.
Proof.
  split; reflexivity.
Qed.

(** C7, on the first draft.  With [dV = 0] and [dI = 0] the draft's engine
    yields minus the step; at constant readings equal to the target
    voltage, the duty cycle left by [controlUpdate] drops by 20 on each
    interrupt. *)
Theorem old_steady_input_moves_duty (I V : Z) :
  ic_delta_old old_ic_params 0 0 I V = ret (-20) /\
  let rd := {| IL := 1; IH := 0; VL := 8000; VH := 12000 |} in
  option_map Old.dutyCycle
    (result (run Old.controlUpdate [rd; rd; rd] (Old.init 682))) = Some 622.
Proof.
  split; [reflexivity | vm_compute; reflexivity].
Qed.

(** ** Traces *)

Lemma bind_Some {A B : Type} (m : M A) (f : A -> M B) l1 a l2 (r : option B) :
  m = (l1, Some a) -> f a = (l2, r) -> bind m f = (l1 ++ l2, r).
Proof.
  intros -> H. simpl. now rewrite H.
Qed.

Lemma run_app {R S : Type} (tick : R -> S -> M S) (l1 l2 : list R) (st : S) :
  run tick (l1 ++ l2) st = bind (run tick l1 st) (run tick l2).
Proof.
  revert st. induction l1 as [|rd l1 IH]; intro st; cbn [run app].
  - unfold ret, bind. destruct (run tick l2 st); reflexivity.
  - unfold bind at 1 3. destruct (tick rd st) as [l [st'|]]; [|reflexivity].
    rewrite IH. unfold bind.
    destruct (run tick l1 st') as [l' [st''|]].
    + destruct (run tick l2 st''). now rewrite app_assoc.
    + reflexivity.
Qed.

Lemma duty_writes_app (l1 l2 : list event) :
  duty_writes (l1 ++ l2) = duty_writes l1 ++ duty_writes l2.
Proof. apply flat_map_app. Qed.

Lemma closings_app (l1 l2 : list event) :
  closings (l1 ++ l2) = (closings l1 + closings l2)%nat.
Proof. unfold closings. now rewrite filter_app, length_app. Qed.

(** The IC engine always yields a decision; its trace holds divisions only. *)
Lemma ic_delta_shape (p : ic_params) (dV dI I V : Z) :
  exists delta,
    ic_delta p dV dI I V = ([], Some delta) \/
    ic_delta p dV dI I V = ([EvDivide (of_int dV); EvDivide (of_int V)], Some delta).
Proof.
  assert (Hdec : in_voltage_band p dV \/ ~ in_voltage_band p dV)
    by (unfold in_voltage_band; lia).
  destruct Hdec as [Hb|Hb].
  - rewrite ic_delta_branch1 by assumption. eexists. left. reflexivity.
  - rewrite ic_delta_branch2 by assumption. eexists. right. reflexivity.
Qed.

(** The regulator either stops at the conversion to [uint16_t] or hands
    over one clamped value. *)
Lemma pi_update_shape (p : pi_params) (vl d : Z) (i : dbl) :
  let den := EvDivide (denominator p vl) in
  pi_update p vl d i = ([den; den], None) \/
  exists x i',
    pi_update p vl d i
    = ([den; den; EvSetDutyCycle (constrain x (DUTY_MIN p) (DUTY_MAX p))],
       Some (constrain x (DUTY_MIN p) (DUTY_MAX p), i')).
Proof.
  unfold pi_update, percent_error, divide. cbn [bind emit ret app].
  destruct (to_u16 _) as [x|]; [right|left; reflexivity].
  eexists x, _. reflexivity.
Qed.

(** ** Duty-cycle bounds *)

Lemma AvgIC_writes_bounded (c : avg_config) (rd : sensors) (st : AvgIC.state) :
  SAFETY_ENABLE c && AvgIC.VOLTAGE_SAFETY st = false ->
  Forall (within 10 1023) (duty_writes (trace (AvgIC.controlUpdate c rd st))) /\
  (AvgIC.avgCount st + 1 = NUM_AVERAGES c ->
   exists d, duty_writes (trace (AvgIC.controlUpdate c rd st)) = [d]).
Proof.
  intro Hgate. unfold AvgIC.controlUpdate. rewrite Hgate.
  destruct (AvgIC.avgCount st + 1 =? NUM_AVERAGES c) eqn:E.
  - match goal with
    | |- context [ic_delta ?p ?a ?b ?x ?y] =>
        destruct (ic_delta_shape p a b x y) as [delta [H|H]]; rewrite H
    end;
    destruct (_ >? LOW_SIDE_MAX_VOLTAGE c);
    cbn [bind emit ret trace fst app duty_writes flat_map];
    (split; [repeat constructor; apply constrain_bounds; lia | intros _; eexists; reflexivity]).
  - cbn [bind emit ret trace fst app duty_writes flat_map].
    split; [constructor|]. intro H. apply Z.eqb_neq in E. contradiction.
Qed.

Lemma PidAvg_writes_bounded (c : avg_config) (rd : PidAvg.reading) (st : PidAvg.state) :
  SAFETY_ENABLE c && PidAvg.VOLTAGE_SAFETY st = false ->
  Forall (within 10 1023) (duty_writes (trace (PidAvg.controlUpdate c rd st))).
Proof.
  intro Hgate. unfold PidAvg.controlUpdate. rewrite Hgate.
  destruct (pi_update_shape pid_avg_pi_params (PidAvg.regulatorVL rd)
              (PidAvg.dutyCycle st) (PidAvg.integralControl st))
    as [H|(x & i' & H)]; cbv zeta in H; rewrite H.
  - constructor.
  - destruct (PidAvg.avgCount st =? NUM_AVERAGES c).
    + match goal with
      | |- context [ic_delta ?p ?a ?b ?x ?y] =>
          destruct (ic_delta_shape p a b x y) as [delta [H'|H']]; rewrite H'
      end;
      destruct (_ >? LOW_SIDE_MAX_VOLTAGE c);
      cbn [bind emit ret trace fst snd app duty_writes flat_map];
      repeat constructor; apply (constrain_bounds x 10 1023); lia.
    + cbn [bind emit ret trace fst snd app duty_writes flat_map].
      repeat constructor; apply (constrain_bounds x 10 1023); lia.
Qed.

Lemma Old_writes_bounded (rd : sensors) (st : Old.state) :
  Forall (within 10 1014) (duty_writes (trace (Old.controlUpdate rd st))).
Proof.
  unfold Old.controlUpdate.
  destruct (pi_update_shape old_pi_params (VL rd)
              (Old.dutyCycle st) (Old.integralControl st))
    as [H|(x & i' & H)]; cbv zeta in H; rewrite H.
  - constructor.
  - rewrite ic_delta_old_branch1 by (simpl; lia).
    cbn [bind emit ret trace fst snd app duty_writes flat_map].
    repeat constructor; apply (constrain_bounds x 10 1014); lia.
Qed.

Lemma Buck_writes_bounded (rd : sensors) (st : Buck.state) :
  Forall (within 10 1014) (duty_writes (trace (Buck.controlUpdate rd st))).
Proof.
  unfold Buck.controlUpdate.
  destruct (pi_update_shape buck_pi_params (VL rd)
              (Buck.dutyCycle st) (Buck.integralControl st))
    as [H|(x & i' & H)]; cbv zeta in H; rewrite H.
  - constructor.
  - cbn [bind emit ret trace fst snd app duty_writes flat_map].
    repeat constructor; apply (constrain_bounds x 10 1014); lia.
Qed.

(** C1, as amended.  In the variants that clamp before the hand-off, every
    value an interrupt not taken by the safety gate hands to [setDutyCycle]
    lies between 10 and 1023 (1014 in the first draft and in the buck
    converter), whatever the value before the clamp; the interrupt of
    [AvgIC] that closes a window hands over exactly one value. *)
Theorem clamped_variants_keep_duty_in_bounds
    (c : avg_config) (rd : sensors) (st1 : AvgIC.state)
    (rd2 : PidAvg.reading) (st2 : PidAvg.state)
    (st3 : Old.state) (st4 : Buck.state) :
  SAFETY_ENABLE c && AvgIC.VOLTAGE_SAFETY st1 = false ->
  SAFETY_ENABLE c && PidAvg.VOLTAGE_SAFETY st2 = false ->
  (forall amt, within 10 1023 (constrain amt 10 1023)) /\
  Forall (within 10 1023) (duty_writes (trace (AvgIC.controlUpdate c rd st1))) /\
  (AvgIC.avgCount st1 + 1 = NUM_AVERAGES c ->
   exists d, duty_writes (trace (AvgIC.controlUpdate c rd st1)) = [d]) /\
  Forall (within 10 1023) (duty_writes (trace (PidAvg.controlUpdate c rd2 st2))) /\
  Forall (within 10 1014) (duty_writes (trace (Old.controlUpdate rd st3))) /\
  Forall (within 10 1014) (duty_writes (trace (Buck.controlUpdate rd st4))).
Proof.
  intros H1 H2.
  split; [intro; apply constrain_bounds; lia|].
  split; [apply AvgIC_writes_bounded; assumption|].
  split; [apply AvgIC_writes_bounded; assumption|].
  split; [apply PidAvg_writes_bounded; assumption|].
  split; [apply Old_writes_bounded | apply Buck_writes_bounded].
Qed.

(** C1 as stated fails on the AtverterH controller, which hands its 16-bit
    counter over unclamped: from the state after [setup], the 42nd slow
    period hands over 9 and the 52nd hands over 65535. *)
Lemma hw_duty_leaves_bounds :
  let writes := duty_writes (trace (run Hw.controlUpdate hw_descent Hw.init)) in
  nth 41 writes 0 = 9 /\ nth 51 writes 0 = 65535 /\
  ~ within 10 1023 9 /\ ~ within 10 1023 65535.
Proof.
  split; [vm_compute; reflexivity|].
  split; [vm_compute; reflexivity|].
  unfold within. split; lia.
Qed.

Lemma clamped_variants_keep_duty_in_bounds_witness :
  let rd := {| IL := 100; IH := 100; VL := 12000; VH := 20000 |} in
  SAFETY_ENABLE shipped && AvgIC.VOLTAGE_SAFETY AvgIC.init = false /\
  SAFETY_ENABLE shipped && PidAvg.VOLTAGE_SAFETY (PidAvg.init 682) = false /\
  Forall (within 10 1014)
         (duty_writes (trace (Buck.controlUpdate rd (Buck.init 682)))).
Proof.
  intro rd.
  assert (H1 : SAFETY_ENABLE shipped && AvgIC.VOLTAGE_SAFETY AvgIC.init = false)
    by reflexivity.
  assert (H2 : SAFETY_ENABLE shipped && PidAvg.VOLTAGE_SAFETY (PidAvg.init 682) = false)
    by reflexivity.
  split; [exact H1|]. split; [exact H2|].
  exact (proj2 (proj2 (proj2 (proj2 (proj2
    (clamped_variants_keep_duty_in_bounds shipped rd AvgIC.init
       {| PidAvg.regulatorVL := 8000; PidAvg.sample := rd |} (PidAvg.init 682)
       (Old.init 682) (Buck.init 682) H1 H2)))))).
Defined.

(** ** The safety gate *)

Lemma protective_duty_defined (vh : Z) :
  vh <> 0 ->
  protective_duty vh = ([EvDivide (of_int vh)], Some (u16 (12000 ÷ vh * 1024))).
Proof.
  intro H. unfold protective_duty, idivide. apply Z.eqb_neq in H.
  cbn [bind emit ret app]. rewrite H. reflexivity.
Qed.

Lemma AvgIC_shutdown_tick (c : avg_config) (rd : sensors) (st : AvgIC.state) :
  SAFETY_ENABLE c = true -> AvgIC.VOLTAGE_SAFETY st = true -> VH rd <> 0 ->
  exists st',
    AvgIC.controlUpdate c rd st = (shutdown_trace (VH rd), Some st') /\
    AvgIC.VOLTAGE_SAFETY st' = true.
Proof.
  intros Hc Hf Hv. unfold AvgIC.controlUpdate, AvgIC.shutdown.
  rewrite Hc, Hf, protective_duty_defined by assumption.
  cbn [andb bind emit ret app]. eexists. split; reflexivity.
Qed.

Lemma PidAvg_shutdown_tick (c : avg_config) (rd : PidAvg.reading) (st : PidAvg.state) :
  SAFETY_ENABLE c = true -> PidAvg.VOLTAGE_SAFETY st = true ->
  VH (PidAvg.sample rd) <> 0 ->
  exists st',
    PidAvg.controlUpdate c rd st = (shutdown_trace (VH (PidAvg.sample rd)), Some st') /\
    PidAvg.VOLTAGE_SAFETY st' = true.
Proof.
  intros Hc Hf Hv. unfold PidAvg.controlUpdate, PidAvg.shutdown.
  rewrite Hc, Hf, protective_duty_defined by assumption.
  cbn [andb bind emit ret app]. eexists. split; reflexivity.
Qed.

(** A window whose low-side average exceeds the maximum raises the flag,
    whether or not the gate is compiled in. *)
Lemma AvgIC_overvoltage_raises_flag (c : avg_config) (rd : sensors) (st : AvgIC.state) :
  SAFETY_ENABLE c && AvgIC.VOLTAGE_SAFETY st = false ->
  AvgIC.avgCount st + 1 = NUM_AVERAGES c ->
  LOW_SIDE_MAX_VOLTAGE c < (AvgIC.avgLowVoltageSum st + VL rd) ÷ (NUM_AVERAGES c + 1) ->
  exists tr st',
    AvgIC.controlUpdate c rd st = (tr, Some st') /\
    AvgIC.VOLTAGE_SAFETY st' = true.
Proof.
  intros Hgate Hn Hover. unfold AvgIC.controlUpdate. rewrite Hgate.
  apply Z.eqb_eq in Hn. rewrite Hn.
  apply Z.gt_lt_iff, Z.gtb_gt in Hover. rewrite Hover.
  match goal with
  | |- context [ic_delta ?p ?a ?b ?x ?y] =>
      destruct (ic_delta_shape p a b x y) as [delta [H|H]]; rewrite H
  end;
  cbn [bind emit ret app]; eexists _, _; (split; [reflexivity|]);
  cbn [AvgIC.VOLTAGE_SAFETY]; apply orb_true_r.
Qed.

Lemma AvgIC_shutdown_run (c : avg_config) (rds : list sensors) :
  SAFETY_ENABLE c = true ->
  Forall (fun rd => VH rd <> 0) rds ->
  forall st, AvgIC.VOLTAGE_SAFETY st = true ->
  exists st',
    run (AvgIC.controlUpdate c) rds st
    = (flat_map (fun rd => shutdown_trace (VH rd)) rds, Some st') /\
    AvgIC.VOLTAGE_SAFETY st' = true.
Proof.
  intros Hc Hall. induction Hall as [|rd rds Hv _ IH]; intros st Hf.
  - exists st. split; [reflexivity|exact Hf].
  - destruct (AvgIC_shutdown_tick c rd st Hc Hf Hv) as (st1 & E1 & Hf1).
    destruct (IH st1 Hf1) as (st2 & E2 & Hf2).
    exists st2. split; [|exact Hf2].
    cbn [run flat_map]. exact (bind_Some _ _ _ _ _ _ E1 E2).
Qed.

Lemma PidAvg_shutdown_run (c : avg_config) (rds : list PidAvg.reading) :
  SAFETY_ENABLE c = true ->
  Forall (fun rd => VH (PidAvg.sample rd) <> 0) rds ->
  forall st, PidAvg.VOLTAGE_SAFETY st = true ->
  exists st',
    run (PidAvg.controlUpdate c) rds st
    = (flat_map (fun rd => shutdown_trace (VH (PidAvg.sample rd))) rds, Some st') /\
    PidAvg.VOLTAGE_SAFETY st' = true.
Proof.
  intros Hc Hall. induction Hall as [|rd rds Hv _ IH]; intros st Hf.
  - exists st. split; [reflexivity|exact Hf].
  - destruct (PidAvg_shutdown_tick c rd st Hc Hf Hv) as (st1 & E1 & Hf1).
    destruct (IH st1 Hf1) as (st2 & E2 & Hf2).
    exists st2. split; [|exact Hf2].
    cbn [run flat_map]. exact (bind_Some _ _ _ _ _ _ E1 E2).
Qed.

(** C2, as amended.  With the safety gate compiled in ([SAFETY_ENABLE]),
    once the flag is up every later interrupt does nothing but hand the
    protective value [(12000 / VH) * 1024] to [setDutyCycle] and report;
    no regulation runs and the flag is never cleared. *)
Theorem safety_gate_forwards_protective_value_only
    (c : avg_config) (rds1 : list sensors) (st1 : AvgIC.state)
    (rds2 : list PidAvg.reading) (st2 : PidAvg.state) :
  SAFETY_ENABLE c = true ->
  AvgIC.VOLTAGE_SAFETY st1 = true ->
  PidAvg.VOLTAGE_SAFETY st2 = true ->
  Forall (fun rd => VH rd <> 0) rds1 ->
  Forall (fun rd => VH (PidAvg.sample rd) <> 0) rds2 ->
  (exists st1',
     run (AvgIC.controlUpdate c) rds1 st1
     = (flat_map (fun rd => shutdown_trace (VH rd)) rds1, Some st1') /\
     AvgIC.VOLTAGE_SAFETY st1' = true) /\
  (exists st2',
     run (PidAvg.controlUpdate c) rds2 st2
     = (flat_map (fun rd => shutdown_trace (VH (PidAvg.sample rd))) rds2, Some st2') /\
     PidAvg.VOLTAGE_SAFETY st2' = true).
Proof.
  intros Hc H1 H2 Hv1 Hv2. split.
  - apply AvgIC_shutdown_run; assumption.
  - apply PidAvg_shutdown_run; assumption.
Qed.

(** C2 as stated fails in the repository's configuration, where the gate
    is compiled out: a window averaging 15984 mV raises the flag, and the
    next window still hands the regulated duty cycle 532 to the actuator,
    where the protective value for the same reading is 0. *)
Lemma shipped_gate_lets_regulation_through :
  exists st,
    result (run (AvgIC.controlUpdate shipped) (fst overvoltage_windows) AvgIC.init)
    = Some st /\
    AvgIC.avgLowVoltage st = 15984 /\
    AvgIC.VOLTAGE_SAFETY st = true /\
    duty_writes (trace (run (AvgIC.controlUpdate shipped) (snd overvoltage_windows) st))
    = [532] /\
    result (protective_duty 20000) = Some 0.
Proof.
  eexists. split; [vm_compute; reflexivity|].
  split; [reflexivity|]. split; [reflexivity|].
  split; vm_compute; reflexivity.
Qed.

Lemma safety_gate_forwards_protective_value_only_witness :
  let rds := [ {| IL := 100; IH := 100; VL := 16000; VH := 20000 |};
               {| IL := 100; IH := 100; VL := 16000; VH := 9000 |} ] in
  SAFETY_ENABLE (with_safety shipped) = true /\
  AvgIC.VOLTAGE_SAFETY tripped = true /\
  duty_writes (trace (run (AvgIC.controlUpdate (with_safety shipped)) rds tripped))
  = [0; 1024].
Proof.
  intro rds.
  assert (Hc : SAFETY_ENABLE (with_safety shipped) = true) by reflexivity.
  assert (Hf : AvgIC.VOLTAGE_SAFETY tripped = true) by reflexivity.
  assert (Hv : Forall (fun rd => VH rd <> 0) rds)
    by (repeat constructor; discriminate).
  split; [exact Hc|]. split; [exact Hf|].
  destruct (safety_gate_forwards_protective_value_only
              (with_safety shipped) rds tripped []
              {| PidAvg.dutyCycle := 512; PidAvg.actualLowVoltage := 0;
                 PidAvg.VOLTAGE_SAFETY := true; PidAvg.integralControl := Fin 0;
                 PidAvg.avgCount := 0;
                 PidAvg.avgLowCurrentSum := 0; PidAvg.avgLowVoltageSum := 0;
                 PidAvg.avgHighCurrentSum := 0; PidAvg.avgHighVoltageSum := 0;
                 PidAvg.avgLowCurrent := 0; PidAvg.avgPrevLowCurrent := 0;
                 PidAvg.avgLowVoltage := 0; PidAvg.avgPrevLowVoltage := 0;
                 PidAvg.avgHighCurrent := 0; PidAvg.avgHighVoltage := 0;
                 PidAvg.dV := 0; PidAvg.dI := 0; PidAvg.ledState := true |}
              Hc Hf eq_refl Hv (Forall_nil _)) as [(st' & E & _) _].
  rewrite E. reflexivity.
Defined.

(** ** The averaging buffer *)

Lemma sum_app (l1 l2 : list Z) : sum (l1 ++ l2) = sum l1 + sum l2.
Proof.
  induction l1 as [|x l1 IH]; simpl; [reflexivity|]. rewrite IH. lia.
Qed.

Lemma split_last {A : Type} (l : list A) (n : Z) :
  0 < n -> Z.of_nat (length l) = n ->
  exists l' x, l = l' ++ [x] /\ Z.of_nat (length l') + 1 = n.
Proof.
  intros Hn Hl. destruct (exists_last (l := l)) as (l' & x & ->).
  - intros ->. simpl in Hl. lia.
  - exists l', x. split; [reflexivity|]. rewrite length_app in Hl. simpl in Hl. lia.
Qed.

(** Interrupts that do not complete the window only accumulate. *)
Lemma AvgIC_accumulate (c : avg_config) (rds : list sensors) :
  forall st,
    SAFETY_ENABLE c && AvgIC.VOLTAGE_SAFETY st = false ->
    AvgIC.avgCount st + Z.of_nat (length rds) < NUM_AVERAGES c ->
    exists tr st',
      run (AvgIC.controlUpdate c) rds st = (tr, Some st') /\
      closings tr = 0%nat /\
      AvgIC.VOLTAGE_SAFETY st' = AvgIC.VOLTAGE_SAFETY st /\
      AvgIC.avgCount st' = AvgIC.avgCount st + Z.of_nat (length rds) /\
      AvgIC.avgLowCurrentSum st' = AvgIC.avgLowCurrentSum st + sum (map IL rds) /\
      AvgIC.avgLowVoltageSum st' = AvgIC.avgLowVoltageSum st + sum (map VL rds) /\
      AvgIC.avgHighCurrentSum st' = AvgIC.avgHighCurrentSum st + sum (map IH rds) /\
      AvgIC.avgHighVoltageSum st' = AvgIC.avgHighVoltageSum st + sum (map VH rds).
Proof.
  induction rds as [|rd rds IHrds]; intros st Hgate Hlen.
  - exists [], st. cbn [run length map sum fold_right Z.of_nat].
    rewrite !Z.add_0_r. repeat split; reflexivity.
  - cbn [length] in Hlen. rewrite Nat2Z.inj_succ in Hlen.
    cbn [run]. unfold AvgIC.controlUpdate at 1. rewrite Hgate.
    assert (E : (AvgIC.avgCount st + 1 =? NUM_AVERAGES c) = false)
      by (apply Z.eqb_neq; lia).
    rewrite E. cbn [bind emit ret app].
    match goal with
    | |- context [run _ rds ?s] => destruct (IHrds s) as (tr & st' & Hrun & Hcl & Hf & Hn & H1 & H2 & H3 & H4)
    end.
    + exact Hgate.
    + cbn [AvgIC.avgCount]. lia.
    + rewrite Hrun. eexists _, st'. split; [reflexivity|].
      cbn [AvgIC.avgCount AvgIC.VOLTAGE_SAFETY AvgIC.avgLowCurrentSum
           AvgIC.avgLowVoltageSum AvgIC.avgHighCurrentSum
           AvgIC.avgHighVoltageSum] in *.
      unfold sum in *. cbn [length map fold_right]. rewrite Nat2Z.inj_succ.
      repeat split; try assumption; try lia.
Qed.

(** The interrupt that completes the window divides the sums by
    [NUM_AVERAGES + 1] and clears them. *)
Lemma AvgIC_close (c : avg_config) (rd : sensors) (st : AvgIC.state) :
  SAFETY_ENABLE c && AvgIC.VOLTAGE_SAFETY st = false ->
  AvgIC.avgCount st + 1 = NUM_AVERAGES c ->
  exists tr st',
    AvgIC.controlUpdate c rd st = (tr, Some st') /\
    closings tr = 1%nat /\
    AvgIC_averages st'
    = map (fun s => s ÷ (NUM_AVERAGES c + 1))
          [AvgIC.avgLowCurrentSum st + IL rd; AvgIC.avgLowVoltageSum st + VL rd;
           AvgIC.avgHighCurrentSum st + IH rd; AvgIC.avgHighVoltageSum st + VH rd] /\
    AvgIC_sums st' = [0; 0; 0; 0] /\
    AvgIC.avgCount st' = 0.
Proof.
  intros Hgate Hn. unfold AvgIC.controlUpdate. rewrite Hgate.
  apply Z.eqb_eq in Hn. rewrite Hn.
  match goal with
  | |- context [ic_delta ?p ?a ?b ?x ?y] =>
      destruct (ic_delta_shape p a b x y) as [delta [H|H]]; rewrite H
  end;
  destruct (_ >? LOW_SIDE_MAX_VOLTAGE c);
  cbn [bind emit ret app]; eexists _, _; (split; [reflexivity|]);
  repeat split; reflexivity.
Qed.

Lemma AvgIC_window (c : avg_config) (rds : list sensors) (st : AvgIC.state) :
  0 < NUM_AVERAGES c ->
  SAFETY_ENABLE c && AvgIC.VOLTAGE_SAFETY st = false ->
  AvgIC.avgCount st = 0 ->
  AvgIC_sums st = [0; 0; 0; 0] ->
  Z.of_nat (length rds) = NUM_AVERAGES c ->
  exists tr st',
    run (AvgIC.controlUpdate c) rds st = (tr, Some st') /\
    closings tr = 1%nat /\
    AvgIC_averages st' = map (fun s => s ÷ (NUM_AVERAGES c + 1)) (totals rds) /\
    AvgIC_sums st' = [0; 0; 0; 0] /\
    AvgIC.avgCount st' = 0.
Proof.
  intros HN Hgate Hcount Hsums Hlen.
  destruct (split_last rds _ HN Hlen) as (l & rd & -> & Hl).
  destruct (AvgIC_accumulate c l st Hgate) as
    (tr1 & st1 & Hrun1 & Hcl1 & Hf1 & Hn1 & S1 & S2 & S3 & S4); [lia|].
  destruct (AvgIC_close c rd st1) as (tr2 & st2 & Hrun2 & Hcl2 & Havg & Hz & Hc0).
  { now rewrite Hf1. }
  { lia. }
  exists (tr1 ++ tr2), st2. split.
  - rewrite run_app. apply (bind_Some _ _ _ _ _ _ Hrun1).
    cbn [run]. rewrite (bind_Some _ _ _ _ [] (Some st2) Hrun2 eq_refl).
    now rewrite app_nil_r.
  - rewrite closings_app, Hcl1, Hcl2. split; [reflexivity|].
    split; [|split; assumption].
    rewrite Havg, S1, S2, S3, S4. unfold AvgIC_sums in Hsums.
    injection Hsums as -> -> -> ->.
    unfold totals. rewrite !map_app, !sum_app. cbn [map sum fold_right].
    rewrite !Z.add_0_l, !Z.add_0_r. reflexivity.
Qed.

Lemma PidAvg_accumulate_tick (c : avg_config) (rd : PidAvg.reading)
    (st st1 : PidAvg.state) :
  SAFETY_ENABLE c && PidAvg.VOLTAGE_SAFETY st = false ->
  PidAvg.avgCount st <> NUM_AVERAGES c ->
  result (PidAvg.controlUpdate c rd st) = Some st1 ->
  closings (trace (PidAvg.controlUpdate c rd st)) = 0%nat /\
  PidAvg.VOLTAGE_SAFETY st1 = PidAvg.VOLTAGE_SAFETY st /\
  PidAvg.avgCount st1 = PidAvg.avgCount st + 1 /\
  PidAvg_sums st1
  = [PidAvg.avgLowCurrentSum st + IL (PidAvg.sample rd);
     PidAvg.avgLowVoltageSum st + VL (PidAvg.sample rd);
     PidAvg.avgHighCurrentSum st + IH (PidAvg.sample rd);
     PidAvg.avgHighVoltageSum st + VH (PidAvg.sample rd)].
Proof.
  intros Hgate Hn. unfold PidAvg.controlUpdate. rewrite Hgate.
  destruct (pi_update_shape pid_avg_pi_params (PidAvg.regulatorVL rd)
              (PidAvg.dutyCycle st) (PidAvg.integralControl st))
    as [H|(x & i' & H)]; cbv zeta in H; rewrite H.
  - discriminate.
  - apply Z.eqb_neq in Hn. rewrite Hn.
    cbn [bind emit ret app trace result fst snd].
    intro E. injection E as <-. repeat split; reflexivity.
Qed.

Lemma PidAvg_accumulate (c : avg_config) (rds : list PidAvg.reading) :
  forall st st',
    SAFETY_ENABLE c && PidAvg.VOLTAGE_SAFETY st = false ->
    0 <= PidAvg.avgCount st ->
    PidAvg.avgCount st + Z.of_nat (length rds) <= NUM_AVERAGES c ->
    result (run (PidAvg.controlUpdate c) rds st) = Some st' ->
    closings (trace (run (PidAvg.controlUpdate c) rds st)) = 0%nat /\
    PidAvg.VOLTAGE_SAFETY st' = PidAvg.VOLTAGE_SAFETY st /\
    PidAvg.avgCount st' = PidAvg.avgCount st + Z.of_nat (length rds) /\
    PidAvg_sums st'
    = [PidAvg.avgLowCurrentSum st + sum (map IL (map PidAvg.sample rds));
       PidAvg.avgLowVoltageSum st + sum (map VL (map PidAvg.sample rds));
       PidAvg.avgHighCurrentSum st + sum (map IH (map PidAvg.sample rds));
       PidAvg.avgHighVoltageSum st + sum (map VH (map PidAvg.sample rds))].
Proof.
  induction rds as [|rd rds IHrds]; intros st st' Hgate H0 Hlen Hres.
  - cbn in Hres. injection Hres as <-. unfold PidAvg_sums.
    cbn [run length map sum fold_right Z.of_nat trace fst ret].
    rewrite !Z.add_0_r. repeat split; reflexivity.
  - cbn [length] in Hlen. rewrite Nat2Z.inj_succ in Hlen.
    cbn [run] in *.
    destruct (PidAvg.controlUpdate c rd st) as [l [st1|]] eqn:Etick;
      [|discriminate].
    destruct (PidAvg_accumulate_tick c rd st st1 Hgate) as (Hcl & Hf & Hn & Hs).
    { lia. }
    { now rewrite Etick. }
    rewrite Etick in Hcl. cbn [trace fst] in Hcl.
    unfold bind in *.
    destruct (run (PidAvg.controlUpdate c) rds st1) as [l' r] eqn:Erun.
    cbn [result trace fst snd] in *. subst r.
    destruct (IHrds st1 st') as (Hcl' & Hf' & Hn' & Hs').
    { now rewrite Hf. }
    { lia. }
    { lia. }
    { now rewrite Erun. }
    rewrite Erun in Hcl'. cbn [trace fst] in Hcl'.
    rewrite closings_app, Hcl, Hcl'. split; [reflexivity|].
    split; [congruence|]. split; [cbn [length]; rewrite Nat2Z.inj_succ; lia|].
    rewrite Hs'. unfold PidAvg_sums in Hs. injection Hs as -> -> -> ->.
    unfold sum. cbn [map fold_right]. rewrite !Z.add_assoc. reflexivity.
Qed.

Lemma PidAvg_close (c : avg_config) (rd : PidAvg.reading) (st st' : PidAvg.state) :
  SAFETY_ENABLE c && PidAvg.VOLTAGE_SAFETY st = false ->
  PidAvg.avgCount st = NUM_AVERAGES c ->
  result (PidAvg.controlUpdate c rd st) = Some st' ->
  closings (trace (PidAvg.controlUpdate c rd st)) = 1%nat /\
  PidAvg_averages st' = map (fun s => s ÷ (NUM_AVERAGES c + 1)) (PidAvg_sums st) /\
  PidAvg_sums st' = [0; 0; 0; 0] /\
  PidAvg.avgCount st' = 0.
Proof.
  intros Hgate Hn. unfold PidAvg.controlUpdate. rewrite Hgate.
  destruct (pi_update_shape pid_avg_pi_params (PidAvg.regulatorVL rd)
              (PidAvg.dutyCycle st) (PidAvg.integralControl st))
    as [H|(x & i' & H)]; cbv zeta in H; rewrite H.
  - discriminate.
  - apply Z.eqb_eq in Hn. rewrite Hn.
    match goal with
    | |- context [ic_delta ?p ?a ?b ?u ?v] =>
        destruct (ic_delta_shape p a b u v) as [delta [H'|H']]; rewrite H'
    end;
    destruct (_ >? LOW_SIDE_MAX_VOLTAGE c);
    cbn [bind emit ret app trace result fst snd];
    intro E; injection E as <-; repeat split; reflexivity.
Qed.

Lemma PidAvg_window (c : avg_config) (rds : list PidAvg.reading)
    (rd : PidAvg.reading) (st st' st'' : PidAvg.state) :
  SAFETY_ENABLE c && PidAvg.VOLTAGE_SAFETY st = false ->
  PidAvg.avgCount st = 0 ->
  PidAvg_sums st = [0; 0; 0; 0] ->
  Z.of_nat (length rds) = NUM_AVERAGES c ->
  result (run (PidAvg.controlUpdate c) rds st) = Some st' ->
  result (PidAvg.controlUpdate c rd st') = Some st'' ->
  closings (trace (run (PidAvg.controlUpdate c) rds st)) = 0%nat /\
  PidAvg_sums st' = totals (map PidAvg.sample rds) /\
  closings (trace (PidAvg.controlUpdate c rd st')) = 1%nat /\
  PidAvg_averages st''
  = map (fun s => s ÷ (NUM_AVERAGES c + 1)) (totals (map PidAvg.sample rds)) /\
  PidAvg_sums st'' = [0; 0; 0; 0] /\
  PidAvg.avgCount st'' = 0.
Proof.
  intros Hgate Hcount Hsums Hlen Hrun Htick.
  destruct (PidAvg_accumulate c rds st st' Hgate) as (Hcl & Hf & Hn & Hs);
    [lia | lia | exact Hrun |].
  destruct (PidAvg_close c rd st' st'') as (Hcl2 & Havg & Hz & Hc0);
    [now rewrite Hf | lia | exact Htick |].
  unfold PidAvg_sums in Hsums. injection Hsums as E1 E2 E3 E4.
  rewrite E1, E2, E3, E4, !Z.add_0_l in Hs. fold (totals (map PidAvg.sample rds)) in Hs.
  rewrite Hs in Havg. auto 10.
Qed.

(** ** The protective duty cycle *)

Lemma quot_12000_high (vh : Z) : 12000 < vh -> 12000 ÷ vh = 0.
Proof. intro H. apply Z.quot_small. lia. Qed.

Lemma quot_12000_mid (vh : Z) : 6000 < vh <= 12000 -> 12000 ÷ vh = 1.
Proof.
  intro H. rewrite Z.quot_div_nonneg by lia.
  symmetry. apply (Z.div_unique 12000 vh 1 (12000 - vh)); lia.
Qed.

(** End-to-end scenario 1: a target of 8000 mV under 12000 mV on the high
    side starts at a duty cycle of 682. *)
Lemma setup_duty_scenario : result (setup_duty 8000 12000) = Some 682.
Proof. reflexivity. Qed.

(** C10.  The protective duty cycle [(12000 / VH) * 1024] is computed in
    integers: it is 0 for every [VH] above 12000 mV and 1024 for every
    [VH] in (6000, 12000], and that is the value an interrupt taken by the
    safety gate hands to [setDutyCycle]. *)
Theorem protective_duty_is_a_step (c : avg_config) (rd : sensors)
    (st : AvgIC.state) (rd2 : PidAvg.reading) (st2 : PidAvg.state) :
  SAFETY_ENABLE c = true ->
  AvgIC.VOLTAGE_SAFETY st = true ->
  PidAvg.VOLTAGE_SAFETY st2 = true ->
  PidAvg.sample rd2 = rd ->
  (12000 < VH rd ->
   result (protective_duty (VH rd)) = Some 0 /\
   duty_writes (trace (AvgIC.controlUpdate c rd st)) = [0] /\
   duty_writes (trace (PidAvg.controlUpdate c rd2 st2)) = [0]) /\
  (6000 < VH rd <= 12000 ->
   result (protective_duty (VH rd)) = Some 1024 /\
   duty_writes (trace (AvgIC.controlUpdate c rd st)) = [1024] /\
   duty_writes (trace (PidAvg.controlUpdate c rd2 st2)) = [1024]).
Proof.
  intros Hc Hf Hf2 Hrd.
  assert (Hd : VH rd <> 0 ->
               result (protective_duty (VH rd)) = Some (u16 (12000 ÷ VH rd * 1024)) /\
               duty_writes (trace (AvgIC.controlUpdate c rd st))
               = [u16 (12000 ÷ VH rd * 1024)] /\
               duty_writes (trace (PidAvg.controlUpdate c rd2 st2))
               = [u16 (12000 ÷ VH rd * 1024)]).
  { intro Hv.
    destruct (AvgIC_shutdown_tick c rd st Hc Hf Hv) as (st' & E & _).
    assert (Hv2 : VH (PidAvg.sample rd2) <> 0) by now rewrite Hrd.
    destruct (PidAvg_shutdown_tick c rd2 st2 Hc Hf2 Hv2) as (st2' & E2 & _).
    rewrite E, E2, Hrd, protective_duty_defined by assumption.
    repeat split; reflexivity. }
  split; intro H.
  - assert (E : u16 (12000 ÷ VH rd * 1024) = 0)
      by (rewrite quot_12000_high by assumption; reflexivity).
    rewrite <- E. apply Hd. lia.
  - assert (E : u16 (12000 ÷ VH rd * 1024) = 1024)
      by (rewrite quot_12000_mid by assumption; reflexivity).
    rewrite <- E. apply Hd. lia.
Qed.

Lemma protective_duty_is_a_step_witness :
  let hi := {| IL := 0; IH := 0; VL := 16000; VH := 13000 |} in
  let lo := {| IL := 0; IH := 0; VL := 16000; VH := 9000 |} in
  (12000 < VH hi /\
   duty_writes (trace (AvgIC.controlUpdate (with_safety shipped) hi tripped)) = [0]) /\
  (6000 < VH lo <= 12000 /\
   duty_writes (trace (AvgIC.controlUpdate (with_safety shipped) lo tripped)) = [1024]).
Proof.
  intros hi lo.
  pose (st2 := {| PidAvg.dutyCycle := 512; PidAvg.actualLowVoltage := 0;
                  PidAvg.VOLTAGE_SAFETY := true; PidAvg.integralControl := Fin 0;
                  PidAvg.avgCount := 0;
                  PidAvg.avgLowCurrentSum := 0; PidAvg.avgLowVoltageSum := 0;
                  PidAvg.avgHighCurrentSum := 0; PidAvg.avgHighVoltageSum := 0;
                  PidAvg.avgLowCurrent := 0; PidAvg.avgPrevLowCurrent := 0;
                  PidAvg.avgLowVoltage := 0; PidAvg.avgPrevLowVoltage := 0;
                  PidAvg.avgHighCurrent := 0; PidAvg.avgHighVoltage := 0;
                  PidAvg.dV := 0; PidAvg.dI := 0; PidAvg.ledState := true |}).
  assert (Hhi : 12000 < VH hi) by reflexivity.
  assert (Hlo : 6000 < VH lo <= 12000) by (simpl; lia).
  split.
  - split; [exact Hhi|].
    exact (proj1 (proj2 (proj1 (protective_duty_is_a_step
             (with_safety shipped) hi tripped
             {| PidAvg.regulatorVL := 0; PidAvg.sample := hi |} st2
             eq_refl eq_refl eq_refl eq_refl) Hhi))).
  - split; [exact Hlo|].
    exact (proj1 (proj2 (proj2 (protective_duty_is_a_step
             (with_safety shipped) lo tripped
             {| PidAvg.regulatorVL := 0; PidAvg.sample := lo |} st2
             eq_refl eq_refl eq_refl eq_refl) Hlo))).
Defined.

(** ** The PI regulator *)

Lemma Qtrunc_inject_Z (q : Q) (z : Z) : (q == inject_Z z)%Q -> Qtrunc q = z.
Proof.
  unfold Qeq, Qtrunc. simpl. intro H. rewrite Z.mul_1_r in H. rewrite H.
  apply Z.quot_mul. discriminate.
Qed.

Lemma to_u16_inject_Z (q : Q) (z : Z) :
  (q == inject_Z z)%Q -> 0 <= z <= 65535 -> to_u16 (Fin q) = Some z.
Proof.
  intros H Hz. unfold to_u16. rewrite (Qtrunc_inject_Z q z H).
  destruct (0 <=? z) eqn:E1; [|lia]. destruct (z <=? 65535) eqn:E2; [reflexivity|lia].
Qed.

Lemma zero_error_value (k1 k2 q qi x : Q) :
  (qi == 0 -> x + x * (- (k1 * (0 / q)) + (qi + - (k2 * (0 / q)))) == x)%Q.
Proof.
  intro H. rewrite H. unfold Qdiv. ring.
Qed.

(** One regulator step at zero error, from an accumulator holding zero. *)
Lemma pi_update_zero_error (p : pi_params) (d : Z) (qi q : Q) :
  denominator p (desiredLowVoltage p) = Fin q ->
  ~ (q == 0)%Q ->
  (qi == 0)%Q ->
  DUTY_MIN p <= d <= DUTY_MAX p ->
  0 <= d <= 65535 ->
  exists qi',
    pi_update p (desiredLowVoltage p) d (Fin qi)
    = ([EvDivide (Fin q); EvDivide (Fin q); EvSetDutyCycle d], Some (d, Fin qi')) /\
    (qi' == 0)%Q.
Proof.
  intros Hden Hq Hqi Hd Hu.
  unfold pi_update, percent_error, divide. rewrite Hden, Z.sub_diag.
  cbn [bind emit ret app].
  unfold proportional_term, integral_increment, of_int, ddiv.
  assert (E : Qeq_bool q 0 = false).
  { destruct (Qeq_bool q 0) eqn:E; [|reflexivity].
    apply Qeq_bool_eq in E. contradiction. }
  rewrite E. cbn [dmul dneg dadd].
  rewrite (to_u16_inject_Z _ d); [|apply zero_error_value; exact Hqi|exact Hu].
  rewrite constrain_id by exact Hd.
  cbn [bind emit ret app]. eexists. split; [reflexivity|].
  rewrite Hqi. unfold Qdiv. ring.
Qed.

(** The buck converter, which is the regulator alone: at zero error its
    interrupts leave the duty cycle where it is. *)
Lemma Buck_zero_error_run (rd : sensors) (n : nat) :
  VL rd = 5000 ->
  forall st,
    deq (Buck.integralControl st) (Fin 0) ->
    10 <= Buck.dutyCycle st <= 1014 ->
    exists tr st',
      run Buck.controlUpdate (repeat rd n) st = (tr, Some st') /\
      Buck.dutyCycle st' = Buck.dutyCycle st /\
      duty_writes tr = repeat (Buck.dutyCycle st) n.
Proof.
  intro Hvl. induction n as [|n IHn]; intros st Hi Hd.
  - exists [], st. repeat split.
  - destruct st as [d avl i led].
    cbn [Buck.dutyCycle Buck.integralControl] in *.
    destruct i as [qi| | |]; try contradiction. cbn [deq] in Hi.
    destruct (pi_update_zero_error buck_pi_params d qi (inject_Z 5000 + inject_Z 1))
      as (qi' & Hstep & Hi'); try assumption; try reflexivity;
      [discriminate | lia |].
    cbn [repeat run]. unfold Buck.controlUpdate at 1. rewrite Hvl.
    cbn [Buck.dutyCycle Buck.integralControl Buck.ledState].
    change 5000 with (desiredLowVoltage buck_pi_params) at 1.
    rewrite Hstep. cbn [bind emit ret app fst snd].
    match goal with
    | |- context [run _ _ ?s] => destruct (IHn s) as (tr & st' & Hrun & Hduty & Hw)
    end; [exact Hi' | exact Hd |].
    rewrite Hrun. cbn [Buck.dutyCycle] in *.
    eexists _, st'. split; [reflexivity|]. split; [exact Hduty|].
    cbn [duty_writes flat_map app]. fold (duty_writes tr). now rewrite Hw.
Qed.

(** C9, as amended.  With the measured voltage equal to the target on every interrupt
    (and a nonzero divisor for the percent error), the proportional term
    and the increment of the integral accumulator are zero; from an
    accumulator that holds zero, as it does after [setup], and a duty cycle
    within the clamp bounds, any number of regulator steps hands the same
    duty cycle to [setDutyCycle] and leaves it unchanged. *)
Theorem pi_zero_error_is_a_fixpoint (p : pi_params) (d0 : Z) (i0 : dbl) (n : nat) :
  (exists q, denominator p (desiredLowVoltage p) = Fin q /\ ~ (q == 0)%Q) ->
  deq i0 (Fin 0) ->
  0 <= DUTY_MIN p ->
  DUTY_MIN p <= d0 <= DUTY_MAX p ->
  DUTY_MAX p <= 65535 ->
  let vl := desiredLowVoltage p in
  (exists r,
     result (percent_error p vl) = Some r /\
     deq (proportional_term p r) (Fin 0) /\
     deq (integral_increment p r) (Fin 0)) /\
  divides_by_zero (trace (percent_error p vl)) = false /\
  (exists tr i',
     run (pi_tick p) (repeat vl n) (d0, i0) = (tr, Some (d0, i')) /\
     deq i' (Fin 0) /\
     duty_writes tr = repeat d0 n).
Proof.
  intros (q & Hden & Hq) Hi Hmin Hd Hmax vl.
  assert (E : Qeq_bool q 0 = false).
  { destruct (Qeq_bool q 0) eqn:E; [|reflexivity].
    apply Qeq_bool_eq in E. contradiction. }
  split; [|split].
  - exists (Fin (0 / q)).
    unfold percent_error, divide, vl. rewrite Hden, Z.sub_diag.
    cbn [bind emit ret app result snd]. unfold of_int, ddiv. rewrite E.
    split; [reflexivity|].
    unfold proportional_term, integral_increment. cbn [dmul dneg deq].
    split; unfold Qdiv; ring.
  - unfold percent_error, divide, vl. rewrite Hden.
    cbn [bind emit ret app trace fst divides_by_zero existsb zero_divisor is_zero].
    now rewrite E.
  - destruct i0 as [qi| | |]; try contradiction. cbn [deq] in Hi.
    revert qi Hi. induction n as [|n IHn]; intros qi Hi.
    + exists [], (Fin qi). repeat split; [exact Hi].
    + destruct (pi_update_zero_error p d0 qi q Hden Hq Hi Hd) as (qi' & Hstep & Hi');
        [lia|].
      destruct (IHn qi' Hi') as (tr & i' & Hrun & Hdeq & Hw).
      exists ([EvDivide (Fin q); EvDivide (Fin q); EvSetDutyCycle d0] ++ tr), i'.
      split; [|split; [exact Hdeq|]].
      * cbn [repeat run]. apply (bind_Some _ _ _ _ _ _ Hstep Hrun).
      * rewrite duty_writes_app, Hw. reflexivity.
Qed.

Lemma pi_zero_error_is_a_fixpoint_witness :
  DUTY_MIN pid_avg_pi_params <= 682 <= DUTY_MAX pid_avg_pi_params /\
  exists tr i',
    run (pi_tick pid_avg_pi_params) (repeat 8000 5) (682, Fin 0) = (tr, Some (682, i')) /\
    deq i' (Fin 0) /\
    duty_writes tr = repeat 682 5.
Proof.
  assert (Hden : exists q, denominator pid_avg_pi_params (desiredLowVoltage pid_avg_pi_params)
                           = Fin q /\ ~ (q == 0)%Q)
    by (exists (inject_Z 8000); split; [reflexivity|discriminate]).
  assert (Hi : deq (Fin 0) (Fin 0)) by reflexivity.
  assert (Hd : DUTY_MIN pid_avg_pi_params <= 682 <= DUTY_MAX pid_avg_pi_params)
    by (simpl; lia).
  split; [exact Hd|].
  refine (proj2 (proj2 (pi_zero_error_is_a_fixpoint pid_avg_pi_params 682 (Fin 0) 5
                          Hden Hi _ Hd _))); simpl; lia.
Defined.

(** The unguarded regulators of [PidAvg] and [Old] divide by the measured
    voltage itself, zero included. *)
Lemma unguarded_regulator_divides_by_zero_voltage (d : Z) (i : dbl) :
  divides_by_zero (trace (pi_update pid_avg_pi_params 0 d i)) = true /\
  divides_by_zero (trace (pi_update old_pi_params 0 d i)) = true.
Proof.
  split.
  - destruct (pi_update_shape pid_avg_pi_params 0 d i) as [H|(x & i' & H)];
      cbv zeta in H; rewrite H; reflexivity.
  - destruct (pi_update_shape old_pi_params 0 d i) as [H|(x & i' & H)];
      cbv zeta in H; rewrite H; reflexivity.
Qed.

(** C8, as amended.  The buck converter guards the division by adding 1 to
    the measured voltage.  At a measured voltage of 0 no division by zero is
    evaluated and the update is applied, not skipped: from an accumulator
    holding zero the duty cycle [d] becomes [1501 * d], clamped to
    [10, 1014], as long as that product fits [uint16_t] ([d <= 43]); the
    accumulator keeps its value. *)
Theorem buck_guard_applies_update_at_zero_voltage (rd : sensors) (st : Buck.state) :
  VL rd = 0 ->
  deq (Buck.integralControl st) (Fin 0) ->
  0 <= Buck.dutyCycle st <= 43 ->
  exists st',
    Buck.controlUpdate rd st
    = ([EvDivide (Fin 1); EvDivide (Fin 1);
        EvSetDutyCycle (constrain (1501 * Buck.dutyCycle st) 10 1014);
        EvTransmit; EvSetLED (Buck.ledState st)], Some st') /\
    divides_by_zero (trace (Buck.controlUpdate rd st)) = false /\
    Buck.dutyCycle st' = constrain (1501 * Buck.dutyCycle st) 10 1014 /\
    deq (Buck.integralControl st') (Buck.integralControl st).
Proof.
  intros Hvl Hi Hd. destruct st as [d avl i led]. cbn [Buck.dutyCycle Buck.integralControl Buck.ledState] in *.
  destruct i as [qi| | |]; try contradiction. cbn [deq] in Hi.
  unfold Buck.controlUpdate. rewrite Hvl. cbn [Buck.dutyCycle Buck.integralControl Buck.ledState].
  unfold pi_update.
  change (percent_error buck_pi_params 0) with (([EvDivide (Fin 1)], Some (Fin (-5000))) : M dbl).
  cbn [bind emit ret app].
  change (proportional_term buck_pi_params (Fin (-5000))) with (Fin (15000 # 10)).
  change (integral_increment buck_pi_params (Fin (-5000))) with (Fin (-(0 * -5000))).
  unfold of_int. cbn [dadd dmul].
  rewrite (to_u16_inject_Z _ (1501 * d)).
  - cbn [bind emit ret app fst snd DUTY_MIN DUTY_MAX buck_pi_params].
    eexists. split; [reflexivity|].
    split; [reflexivity|]. split; [reflexivity|].
    cbn [Buck.integralControl deq]. ring.
  - rewrite inject_Z_mult, Hi. 
    change (inject_Z 1501) with (1501 # 1). ring.
  - lia.
Qed.

Lemma buck_guard_applies_update_at_zero_voltage_witness :
  let st := {| Buck.dutyCycle := 10; Buck.actualLowVoltage := 50000;
               Buck.integralControl := Fin 0; Buck.ledState := true |} in
  VL (snd buck_collapse) = 0 /\
  exists st',
    result (Buck.controlUpdate (snd buck_collapse) st) = Some st' /\
    Buck.dutyCycle st' = 1014.
Proof.
  intro st. split; [reflexivity|].
  destruct (buck_guard_applies_update_at_zero_voltage (snd buck_collapse) st)
    as (st' & Hrun & _ & Hduty & _).
  - reflexivity.
  - reflexivity.
  - simpl. lia.
  - exists st'. rewrite Hrun. split; [reflexivity|exact Hduty].
Defined.

(** Above 43 the recomputed value [1501 * d] no longer fits [uint16_t]: the
    conversion of the buck converter's update at 0 V is undefined. *)
Lemma buck_zero_voltage_conversion_undefined (rd : sensors) (st : Buck.state) :
  VL rd = 0 ->
  deq (Buck.integralControl st) (Fin 0) ->
  44 <= Buck.dutyCycle st ->
  result (Buck.controlUpdate rd st) = None.
Proof.
  intros Hvl Hi Hd. destruct st as [d avl i led].
  cbn [Buck.dutyCycle Buck.integralControl] in *.
  destruct i as [qi| | |]; try contradiction. cbn [deq] in Hi.
  unfold Buck.controlUpdate. rewrite Hvl.
  cbn [Buck.dutyCycle Buck.integralControl Buck.ledState].
  unfold pi_update.
  change (percent_error buck_pi_params 0)
    with (([EvDivide (Fin 1)], Some (Fin (-5000))) : M dbl).
  cbn [bind emit ret app].
  change (proportional_term buck_pi_params (Fin (-5000))) with (Fin (15000 # 10)).
  change (integral_increment buck_pi_params (Fin (-5000))) with (Fin (-(0 * -5000))).
  unfold of_int. cbn [dadd dmul]. unfold to_u16.
  rewrite (Qtrunc_inject_Z _ (1501 * d)).
  - destruct (1501 * d <=? 65535) eqn:E; [lia|].
    rewrite andb_false_r. reflexivity.
  - rewrite inject_Z_mult, Hi. change (inject_Z 1501) with (1501 # 1). ring.
Qed.

(** C8 as stated fails: after the duty cycle has settled at 10, an
    interrupt that measures 0 V moves it to 1014. *)
Lemma buck_zero_voltage_update_not_skipped :
  exists st st',
    result (run Buck.controlUpdate (fst buck_collapse) (Buck.init 682)) = Some st /\
    VL (snd buck_collapse) = 0 /\
    result (Buck.controlUpdate (snd buck_collapse) st) = Some st' /\
    Buck.dutyCycle st = 10 /\
    Buck.dutyCycle st' = 1014 /\
    duty_writes (trace (Buck.controlUpdate (snd buck_collapse) st)) = [1014].
Proof.
  eexists. eexists.
  split; [vm_compute; reflexivity|]. split; [reflexivity|].
  split; [vm_compute; reflexivity|].
  split; [reflexivity|]. split; [reflexivity|]. vm_compute. reflexivity.
Qed.

(** ** The second branch with rounded doubles *)

Lemma rounded_exact (x : dbl) : rounded (fun q => q) x = x.
Proof. destruct x; reflexivity. Qed.

(** Without rounding, [ic_delta_rounded] is [ic_delta]. *)
Lemma ic_delta_rounded_exact (p : ic_params) (dV dI I V : Z) :
  ic_delta_rounded (fun q => q) p dV dI I V = ic_delta p dV dI I V.
Proof.
  unfold ic_delta_rounded, ic_delta.
  destruct ((- VOLTAGE_ERROR_RANGE p <? dV) && (dV <? VOLTAGE_ERROR_RANGE p));
    [reflexivity|].
  cbv zeta. unfold divide, bind, emit, ret. cbn [fst snd app].
  rewrite !rounded_exact. reflexivity.
Qed.

Section Rounding.

Variable rnd : Q -> Q.
Hypothesis rnd_monotone : forall x y : Q, (x <= y)%Q -> (rnd x <= rnd y)%Q.
Hypothesis rnd_0 : (rnd 0 == 0)%Q.
Hypothesis rnd_1 : (rnd 1 == 1)%Q.
Hypothesis rnd_m1 : (rnd (-1) == -1)%Q.

Lemma rnd_nonzero_int (z : Z) : z <> 0 -> Qeq_bool (rnd (inject_Z z)) 0 = false.
Proof.
  intro Hz. destruct (Qeq_bool (rnd (inject_Z z)) 0) eqn:E; [|reflexivity].
  apply Qeq_bool_eq in E. exfalso.
  assert (Hcase : z <= -1 \/ 1 <= z) by lia.
  destruct Hcase as [H|H].
  - assert (Hq : (inject_Z z <= -1)%Q)
      by (change (-1)%Q with (inject_Z (-1)); rewrite <- Zle_Qle; exact H).
    apply rnd_monotone in Hq. rewrite rnd_m1, E in Hq. lra.
  - assert (Hq : (1 <= inject_Z z)%Q)
      by (change 1%Q with (inject_Z 1); rewrite <- Zle_Qle; exact H).
    apply rnd_monotone in Hq. rewrite rnd_1, E in Hq. lra.
Qed.

Lemma rnd_nonneg_int (z : Z) : 0 <= z -> (0 <= rnd (inject_Z z))%Q.
Proof.
  intro Hz. rewrite <- rnd_0. apply rnd_monotone.
  change 0%Q with (inject_Z 0). rewrite <- Zle_Qle. exact Hz.
Qed.

(** Outside the voltage band the rounded engine evaluates both quotients
    and compares them as [ic_delta] does. *)
Lemma ic_delta_rounded_branch2 (p : ic_params) (dV dI I V : Z) :
  ~ in_voltage_band p dV ->
  dV <> 0 ->
  V <> 0 ->
  let cast z := rnd (inject_Z z) in
  let r := rnd (cast dI / cast dV)%Q in
  let g := rnd (cast I / cast V)%Q in
  let w := cast (CURRENT_ERROR_RANGE p ÷ VOLTAGE_ERROR_RANGE p) in
  let lower := (- rnd (g + w))%Q in
  let upper := (- rnd (g - w))%Q in
  ic_delta_rounded rnd p dV dI I V =
  ([EvDivide (Fin (cast dV)); EvDivide (Fin (cast V))],
   Some (if Qlt_bool lower r && Qlt_bool upper r then DUTY_CYCLE_INCREMENT p
         else if Qlt_bool r lower && Qlt_bool r upper then - DUTY_CYCLE_INCREMENT p
         else 0)).
Proof.
  intros Hb HdV HV cast r g w lower upper. unfold ic_delta_rounded.
  destruct ((- VOLTAGE_ERROR_RANGE p <? dV) && (dV <? VOLTAGE_ERROR_RANGE p)) eqn:E.
  - apply in_voltage_band_test in E. contradiction.
  - cbv zeta. unfold divide, bind, emit, ret, of_int. cbn [rounded ddiv fst snd app].
    rewrite (rnd_nonzero_int dV HdV), (rnd_nonzero_int V HV).
    cbn [rounded dadd dsub dneg dgt dlt].
    subst cast r g w lower upper. cbv beta. unfold Qminus.
    destruct (Qlt_bool _ _ && Qlt_bool _ _); [reflexivity|].
    destruct (Qlt_bool _ _ && Qlt_bool _ _); reflexivity.
Qed.

End Rounding.

(** C6, as amended.  Outside the voltage band, with a nonzero averaged
    voltage, the engine evaluates [dI / dV] and [I / V] (both divisors
    nonzero) and decides on the doubles it has computed: with [r] the
    computed [dI / dV], [g] the computed [I / V] and [w] the integer
    quotient [CURRENT_ERROR_RANGE / VOLTAGE_ERROR_RANGE] as a double, the
    band runs from the computed [- (g + w)] to the computed [- (g - w)];
    the step is added above it, subtracted below it, and nothing is done
    within it, ends included.  This holds for every rounding [rnd] of the
    doubles that is nondecreasing and exact on 0, 1 and -1. *)
Theorem ic_branch2_tolerance_band (rnd : Q -> Q) (p : ic_params) (dV dI I V : Z) :
  (forall x y : Q, (x <= y)%Q -> (rnd x <= rnd y)%Q) ->
  (rnd 0 == 0)%Q ->
  (rnd 1 == 1)%Q ->
  (rnd (-1) == -1)%Q ->
  0 < VOLTAGE_ERROR_RANGE p ->
  0 <= CURRENT_ERROR_RANGE p ->
  ~ in_voltage_band p dV ->
  V <> 0 ->
  let cast z := rnd (inject_Z z) in
  let r := rnd (cast dI / cast dV)%Q in
  let g := rnd (cast I / cast V)%Q in
  let w := cast (CURRENT_ERROR_RANGE p ÷ VOLTAGE_ERROR_RANGE p) in
  let lower := (- rnd (g + w))%Q in
  let upper := (- rnd (g - w))%Q in
  divides_by_zero (trace (ic_delta_rounded rnd p dV dI I V)) = false /\
  (lower <= upper)%Q /\
  ((upper < r)%Q ->
   result (ic_delta_rounded rnd p dV dI I V) = Some (DUTY_CYCLE_INCREMENT p)) /\
  ((r < lower)%Q ->
   result (ic_delta_rounded rnd p dV dI I V) = Some (- DUTY_CYCLE_INCREMENT p)) /\
  ((lower <= r <= upper)%Q ->
   result (ic_delta_rounded rnd p dV dI I V) = Some 0).
Proof.
  intros Hmono H0 H1 Hm1 Hv Hc Hb HV cast r g w lower upper.
  assert (HdV : dV <> 0) by (intro; subst; apply Hb; unfold in_voltage_band; lia).
  assert (Hw : (0 <= w)%Q)
    by (apply (rnd_nonneg_int rnd Hmono H0); apply Z.quot_pos; lia).
  assert (Hband : (lower <= upper)%Q).
  { unfold lower, upper. apply Qopp_le_compat. apply Hmono.
    clearbody w g. clear - Hw. lra. }
  rewrite (ic_delta_rounded_branch2 rnd Hmono H1 Hm1 p dV dI I V Hb HdV HV).
  unfold trace, result, fst, snd.
  split.
  { unfold divides_by_zero. cbn [existsb zero_divisor is_zero].
    now rewrite (rnd_nonzero_int rnd Hmono H1 Hm1 dV HdV),
                (rnd_nonzero_int rnd Hmono H1 Hm1 V HV). }
  split; [exact Hband|].
  subst lower upper w g r cast. cbv beta zeta in *.
  repeat match goal with
         | |- context [Qlt_bool ?a ?b] =>
             let E := fresh "E" in destruct (Qlt_bool a b) eqn:E
         end;
  repeat match goal with
         | H : Qlt_bool _ _ = true |- _ => apply Qlt_bool_iff in H
         | H : Qlt_bool _ _ = false |- _ => apply Qlt_bool_false_iff in H
         end;
  cbn [andb];
  (split; [intro|split; intro]); try reflexivity; exfalso; lra.
Qed.

(** End-to-end scenario 4: [dV = 50], [dI = 10], [I = 2000], [V = 8000],
    where no operation needs rounding, lies within the band: the engine
    holds. *)
Lemma ic_branch2_scenario :
  ~ in_voltage_band avg_ic_params 50 /\
  result (ic_delta_rounded (fun q => q) avg_ic_params 50 10 2000 8000) = Some 0.
Proof.
  assert (Hout : ~ in_voltage_band avg_ic_params 50)
    by (unfold in_voltage_band; simpl; lia).
  split; [exact Hout|].
  refine (proj2 (proj2 (proj2 (proj2
    (ic_branch2_tolerance_band (fun q => q) avg_ic_params 50 10 2000 8000
       (fun x y H => H) _ _ _ _ _ Hout _)))) _).
  - reflexivity.
  - reflexivity.
  - reflexivity.
  - reflexivity.
  - discriminate.
  - discriminate.
  - split; discriminate.
Defined.

(** C6, counterexample.  At [dV = 15], [dI = 23], [I = 4200], [V = 9000]
    the ratio [dI / dV = 23/15] is the upper end of the band
    [- I / V + 20/10]: it does not exceed the bound, it lies within the
    band.  In binary64 arithmetic the quotient [23 / 15] comes out above
    the computed bound [- (4200 / 9000 - 2)], and the engine adds the
    step.  The same happens at [dV = 17], [dI = 24], [I = 5000],
    [V = 8500], where [24/17] is the upper end of the band. *)
Lemma ic_band_edge_steps_in_binary64 :
  let w := (inject_Z (CURRENT_ERROR_RANGE avg_ic_params)
            / inject_Z (VOLTAGE_ERROR_RANGE avg_ic_params))%Q in
  let step := DUTY_CYCLE_INCREMENT avg_ic_params in
  (~ in_voltage_band avg_ic_params 15 /\
   let r := (inject_Z 23 / inject_Z 15)%Q in
   let c := (- (inject_Z 4200 / inject_Z 9000))%Q in
   (c - w <= r <= c + w)%Q /\
   ic_branch2_binary64 step 23 15 4200 9000 2 = step) /\
  (~ in_voltage_band avg_ic_params 17 /\
   let r := (inject_Z 24 / inject_Z 17)%Q in
   let c := (- (inject_Z 5000 / inject_Z 8500))%Q in
   (c - w <= r <= c + w)%Q /\
   ic_branch2_binary64 step 24 17 5000 8500 2 = step).
Proof.
  split; (split; [unfold in_voltage_band; simpl; lia|]);
    (split; [split; discriminate|]); vm_compute; reflexivity.
Qed.

(** ** The regulator at zero error, away from its rest state *)

(** C9, counterexample.  Zero error alone does not hold the duty cycle.
    With 0.1 in the accumulator the regulator multiplies the duty cycle by
    1.1 on every interrupt at zero error: 500, then 550, 605, 665, the
    accumulator staying at 0.1.  A run reaches such a state: from the duty
    cycle 682 that [setup] computes for a supply of 12 V, two interrupts
    at twice the target leave -0.05 in the accumulator, and the three
    interrupts on target that follow write 426, 404 and 383.  With the
    accumulator at zero, the duty cycle 1024 that [setup] computes for a
    supply of 8 V lies above the clamp: the first interrupt on target
    writes 1023. *)
Lemma pi_zero_error_moves_duty :
  (exists i',
     result (run (pi_tick pid_avg_pi_params) (repeat 8000 3) (500, Fin (1 # 10)))
     = Some (665, i') /\
     deq i' (Fin (1 # 10))) /\
  duty_writes (trace (run (pi_tick pid_avg_pi_params) (repeat 8000 3) (500, Fin (1 # 10))))
  = [550; 605; 665] /\
  result (PidAvg_setup 12000) = Some (PidAvg.init 682) /\
  duty_writes (trace (run (pi_tick pid_avg_pi_params) overshoot_then_target (682, Fin 0)))
  = [562; 449; 426; 404; 383] /\
  result (PidAvg_setup 8000) = Some (PidAvg.init 1024) /\
  PidAvg.integralControl (PidAvg.init 1024) = Fin 0 /\
  duty_writes (trace (pi_tick pid_avg_pi_params 8000 (1024, Fin 0))) = [1023].
Proof.
  split.
  { eexists. split; [vm_compute; reflexivity|]. reflexivity. }
  do 5 (split; [vm_compute; reflexivity|]).
  vm_compute. reflexivity.
Qed.

(** ** The averaging window within the ranges of the C types *)

(** A run that stays within the types is the run of the arithmetic in
    [Z]. *)
Lemma AvgIC_checked_run (c : avg_config) (rds : list sensors) :
  forall st,
    AvgIC_run_fits c rds st = true ->
    run (AvgIC_controlUpdate_checked c) rds st = run (AvgIC.controlUpdate c) rds st.
Proof.
  induction rds as [|rd rds IHrds]; intros st H; [reflexivity|].
  cbn [AvgIC_run_fits] in H. apply andb_prop in H as [H1 H2].
  cbn [run]. unfold AvgIC_controlUpdate_checked at 1. rewrite H1.
  destruct (AvgIC.controlUpdate c rd st) as [l [st1|]]; [|reflexivity].
  cbn [result snd] in H2. unfold bind. now rewrite (IHrds st1 H2).
Qed.

Lemma PidAvg_checked_tick (c : avg_config) (rd : PidAvg.reading)
    (st st' : PidAvg.state) :
  result (PidAvg_controlUpdate_checked c rd st) = Some st' ->
  PidAvg_interrupt_fits c rd st = true /\
  PidAvg_controlUpdate_checked c rd st = PidAvg.controlUpdate c rd st.
Proof.
  unfold PidAvg_controlUpdate_checked.
  destruct (PidAvg_interrupt_fits c rd st); [auto|discriminate].
Qed.

(** A checked run that completes is the run of the arithmetic in [Z]. *)
Lemma PidAvg_checked_run (c : avg_config) (rds : list PidAvg.reading) :
  forall st st',
    result (run (PidAvg_controlUpdate_checked c) rds st) = Some st' ->
    run (PidAvg_controlUpdate_checked c) rds st = run (PidAvg.controlUpdate c) rds st.
Proof.
  induction rds as [|rd rds IHrds]; intros st st' H; [reflexivity|].
  cbn [run] in *.
  destruct (PidAvg_controlUpdate_checked c rd st) as [l [st1|]] eqn:E;
    [|discriminate].
  destruct (PidAvg_checked_tick c rd st st1) as [_ E']; [now rewrite E|].
  rewrite <- E', E. unfold bind in *.
  destruct (run (PidAvg_controlUpdate_checked c) rds st1) as [l' r] eqn:Erun.
  cbn [result snd] in H. subst r.
  rewrite <- (IHrds st1 st'), Erun; [reflexivity|now rewrite Erun].
Qed.

Lemma PidAvg_run_fits_complete (c : avg_config) (rds : list PidAvg.reading) :
  forall st st',
    PidAvg_run_fits c rds st = true ->
    result (run (PidAvg.controlUpdate c) rds st) = Some st' ->
    run (PidAvg_controlUpdate_checked c) rds st = run (PidAvg.controlUpdate c) rds st.
Proof.
  induction rds as [|rd rds IHrds]; intros st st' H Hres; [reflexivity|].
  cbn [PidAvg_run_fits] in H. apply andb_prop in H as [H1 H2].
  cbn [run] in *. unfold PidAvg_controlUpdate_checked at 1. rewrite H1.
  destruct (PidAvg.controlUpdate c rd st) as [l [st1|]]; [|reflexivity].
  cbn [result snd] in H2. unfold bind in *.
  destruct (run (PidAvg.controlUpdate c) rds st1) as [l' r] eqn:Erun.
  cbn [result snd] in Hres. subst r.
  rewrite (IHrds st1 st' H2), Erun; [reflexivity|now rewrite Erun].
Qed.

Lemma PidAvg_run_fits_app (c : avg_config) (l1 l2 : list PidAvg.reading) :
  forall st st',
    PidAvg_run_fits c (l1 ++ l2) st = true ->
    result (run (PidAvg.controlUpdate c) l1 st) = Some st' ->
    PidAvg_run_fits c l1 st = true /\ PidAvg_run_fits c l2 st' = true.
Proof.
  induction l1 as [|rd l1 IHl1]; intros st st' H Hres.
  - cbn in Hres. injection Hres as <-. split; [reflexivity|exact H].
  - cbn [app PidAvg_run_fits] in *. apply andb_prop in H as [H1 H2].
    cbn [run] in Hres.
    destruct (PidAvg.controlUpdate c rd st) as [l [st1|]]; [|discriminate].
    cbn [result snd] in H2 |- *. unfold bind in Hres.
    destruct (run (PidAvg.controlUpdate c) l1 st1) as [l' r] eqn:Erun.
    cbn [result snd] in Hres. subst r.
    destruct (IHl1 st1 st' H2) as [F1 F2]; [now rewrite Erun|].
    rewrite H1, F1. split; [reflexivity|exact F2].
Qed.

(** *** The regulator of [PidAvg] on target *)

(** One regulator step at zero error, from an accumulator holding zero and
    any duty cycle: the value handed over is the duty cycle, clamped. *)
Lemma pi_update_zero_error_clamps (p : pi_params) (d : Z) (qi q : Q) :
  denominator p (desiredLowVoltage p) = Fin q ->
  ~ (q == 0)%Q ->
  (qi == 0)%Q ->
  0 <= d <= 65535 ->
  exists qi',
    pi_update p (desiredLowVoltage p) d (Fin qi)
    = ([EvDivide (Fin q); EvDivide (Fin q);
        EvSetDutyCycle (constrain d (DUTY_MIN p) (DUTY_MAX p))],
       Some (constrain d (DUTY_MIN p) (DUTY_MAX p), Fin qi')) /\
    (qi' == 0)%Q.
Proof.
  intros Hden Hq Hqi Hu.
  unfold pi_update, percent_error, divide. rewrite Hden, Z.sub_diag.
  cbn [bind emit ret app].
  unfold proportional_term, integral_increment, of_int, ddiv.
  assert (E : Qeq_bool q 0 = false).
  { destruct (Qeq_bool q 0) eqn:E; [|reflexivity].
    apply Qeq_bool_eq in E. contradiction. }
  rewrite E. cbn [dmul dneg dadd].
  rewrite (to_u16_inject_Z _ d); [|apply zero_error_value; exact Hqi|exact Hu].
  cbn [bind emit ret app]. eexists. split; [reflexivity|].
  rewrite Hqi. unfold Qdiv. ring.
Qed.

(** With the regulator on target, an interrupt of [PidAvg] is defined and
    keeps the accumulator at zero. *)
Lemma PidAvg_on_target_tick (c : avg_config) (rd : PidAvg.reading)
    (st : PidAvg.state) :
  SAFETY_ENABLE c && PidAvg.VOLTAGE_SAFETY st = false ->
  at_target rd ->
  deq (PidAvg.integralControl st) (Fin 0) ->
  0 <= PidAvg.dutyCycle st <= 65535 ->
  exists st',
    result (PidAvg.controlUpdate c rd st) = Some st' /\
    deq (PidAvg.integralControl st') (Fin 0) /\
    0 <= PidAvg.dutyCycle st' <= 65535.
Proof.
  intros Hgate Hrd Hi Hd. unfold PidAvg.controlUpdate. rewrite Hgate, Hrd.
  destruct (PidAvg.integralControl st) as [qi| | |]; try contradiction.
  cbn [deq] in Hi.
  destruct (pi_update_zero_error_clamps pid_avg_pi_params (PidAvg.dutyCycle st)
              qi (inject_Z 8000)) as (qi' & Hstep & Hi');
    [reflexivity | discriminate | exact Hi | exact Hd |].
  rewrite Hstep.
  assert (Hc : 0 <= constrain (PidAvg.dutyCycle st) (DUTY_MIN pid_avg_pi_params)
                      (DUTY_MAX pid_avg_pi_params) <= 65535).
  { pose proof (constrain_bounds (PidAvg.dutyCycle st) 10 1023) as Hb.
    cbn [DUTY_MIN DUTY_MAX pid_avg_pi_params]. lia. }
  destruct (PidAvg.avgCount st =? NUM_AVERAGES c).
  - match goal with
    | |- context [ic_delta ?p ?a ?b ?u ?v] =>
        destruct (ic_delta_shape p a b u v) as [delta [H'|H']]; rewrite H'
    end;
    destruct (_ >? LOW_SIDE_MAX_VOLTAGE c);
    cbn [bind emit ret app result fst snd]; eexists; (split; [reflexivity|]);
    cbn [PidAvg.integralControl PidAvg.dutyCycle deq]; (split; [exact Hi'|]);
    unfold u16;
    match goal with |- context [?x mod 65536] =>
      pose proof (Z.mod_pos_bound x 65536) end; lia.
  - cbn [bind emit ret app result fst snd]. eexists. split; [reflexivity|].
    cbn [PidAvg.integralControl PidAvg.dutyCycle deq]. split; [exact Hi'|exact Hc].
Qed.

Lemma PidAvg_on_target_run (c : avg_config) (rds : list PidAvg.reading) :
  forall st,
    SAFETY_ENABLE c && PidAvg.VOLTAGE_SAFETY st = false ->
    0 <= PidAvg.avgCount st ->
    PidAvg.avgCount st + Z.of_nat (length rds) <= NUM_AVERAGES c ->
    Forall at_target rds ->
    deq (PidAvg.integralControl st) (Fin 0) ->
    0 <= PidAvg.dutyCycle st <= 65535 ->
    exists st',
      result (run (PidAvg.controlUpdate c) rds st) = Some st' /\
      deq (PidAvg.integralControl st') (Fin 0) /\
      0 <= PidAvg.dutyCycle st' <= 65535.
Proof.
  induction rds as [|rd rds IHrds]; intros st Hgate H0 Hlen Hall Hi Hd.
  - exists st. repeat split; [exact Hi|lia|lia].
  - cbn [length] in Hlen. rewrite Nat2Z.inj_succ in Hlen.
    inversion Hall as [|? ? Hrd Hall']; subst.
    destruct (PidAvg_on_target_tick c rd st Hgate Hrd Hi Hd) as (st1 & Htick & Hi1 & Hd1).
    destruct (PidAvg_accumulate_tick c rd st st1 Hgate) as (_ & Hf & Hn & _);
      [lia | exact Htick |].
    destruct (IHrds st1) as (st' & Hrun & Hi' & Hd'); try assumption;
      [now rewrite Hf | lia | lia |].
    exists st'. split; [|split; assumption].
    cbn [run].
    destruct (PidAvg.controlUpdate c rd st) as [l r]. cbn [result snd] in Htick. subst r.
    unfold bind.
    destruct (run (PidAvg.controlUpdate c) rds st1) as [l' r']. exact Hrun.
Qed.

(** *** Readings of 16 bits keep [PidAvg] within its types *)

Lemma quot_abs_bound (s d b : Z) :
  0 < d -> - (b * d) <= s <= b * d -> - b <= s ÷ d <= b.
Proof.
  intros Hd [H1 H2]. split.
  - rewrite <- (Z.quot_mul (- b) d) by lia.
    apply Z.quot_le_mono; lia.
  - rewrite <- (Z.quot_mul b d) by lia.
    apply Z.quot_le_mono; lia.
Qed.

Lemma PidAvg_accumulate_keeps_previous (c : avg_config) (rd : PidAvg.reading)
    (st st1 : PidAvg.state) :
  SAFETY_ENABLE c && PidAvg.VOLTAGE_SAFETY st = false ->
  PidAvg.avgCount st <> NUM_AVERAGES c ->
  result (PidAvg.controlUpdate c rd st) = Some st1 ->
  PidAvg.avgPrevLowVoltage st1 = PidAvg.avgPrevLowVoltage st /\
  PidAvg.avgPrevLowCurrent st1 = PidAvg.avgPrevLowCurrent st.
Proof.
  intros Hgate Hn. unfold PidAvg.controlUpdate. rewrite Hgate.
  destruct (pi_update_shape pid_avg_pi_params (PidAvg.regulatorVL rd)
              (PidAvg.dutyCycle st) (PidAvg.integralControl st))
    as [H|(x & i' & H)]; cbv zeta in H; rewrite H.
  - discriminate.
  - apply Z.eqb_neq in Hn. rewrite Hn.
    cbn [bind emit ret app trace result fst snd].
    intro E. injection E as <-. split; reflexivity.
Qed.

(** With the regulator on target, readings of 16 bits and a window of at
    most 32766 interrupts, a run of [PidAvg] up to the closing of the
    window stays within the types. *)
Lemma PidAvg_on_target_fits (c : avg_config) :
  NUM_AVERAGES c <= 32766 ->
  forall (rds : list PidAvg.reading) (st : PidAvg.state),
    SAFETY_ENABLE c && PidAvg.VOLTAGE_SAFETY st = false ->
    0 <= PidAvg.avgCount st ->
    PidAvg.avgCount st + Z.of_nat (length rds) <= NUM_AVERAGES c + 1 ->
    Forall at_target rds ->
    Forall (fun rd => reading_within_16_bits (PidAvg.sample rd) = true) rds ->
    deq (PidAvg.integralControl st) (Fin 0) ->
    0 <= PidAvg.dutyCycle st <= 65535 ->
    Z.abs (PidAvg.avgLowCurrentSum st) <= 32768 * PidAvg.avgCount st ->
    Z.abs (PidAvg.avgHighCurrentSum st) <= 32768 * PidAvg.avgCount st ->
    Z.abs (PidAvg.avgLowVoltageSum st) <= 65535 * PidAvg.avgCount st ->
    Z.abs (PidAvg.avgHighVoltageSum st) <= 65535 * PidAvg.avgCount st ->
    Z.abs (PidAvg.avgPrevLowVoltage st) <= 1073741824 ->
    Z.abs (PidAvg.avgPrevLowCurrent st) <= 1073741824 ->
    PidAvg_run_fits c rds st = true.
Proof.
  intro HN.
  induction rds as [|rd rds IHrds];
    intros st Hgate H0 Hlen Hall Hin Hi Hd S1 S2 S3 S4 P1 P2; [reflexivity|].
  cbn [length] in Hlen. rewrite Nat2Z.inj_succ in Hlen.
  inversion Hall as [|? ? Hrd Hall']; subst.
  inversion Hin as [|? ? Hrd16 Hin']; subst.
  destruct (PidAvg_on_target_tick c rd st Hgate Hrd Hi Hd) as (st1 & Htick & Hi1 & Hd1).
  cbn [PidAvg_run_fits]. rewrite Htick.
  unfold PidAvg_interrupt_fits. rewrite Hgate, Hrd.
  unfold reading_within_16_bits, fits_int in Hrd16.
  rewrite !andb_true_iff, !Z.leb_le in Hrd16.
  destruct (Z.eqb_spec (PidAvg.avgCount st) (NUM_AVERAGES c)) as [E|E].
  - assert (Hnil : rds = []) by (destruct rds; [reflexivity|cbn [length] in Hlen; lia]).
    subst rds. cbn [PidAvg_run_fits]. rewrite andb_true_r.
    pose proof (quot_abs_bound (PidAvg.avgLowVoltageSum st) (NUM_AVERAGES c + 1) 65535
                  ltac:(lia) ltac:(lia)) as Q1.
    pose proof (quot_abs_bound (PidAvg.avgLowCurrentSum st) (NUM_AVERAGES c + 1) 32768
                  ltac:(lia) ltac:(lia)) as Q2.
    unfold PidAvg_closing_dV, PidAvg_closing_dI, fits_int, fits_int32.
    cbn [desiredLowVoltage pid_avg_pi_params].
    rewrite !andb_true_iff, !Z.leb_le. lia.
  - unfold fits_int, fits_int32. cbn [desiredLowVoltage pid_avg_pi_params].
    destruct (PidAvg_accumulate_tick c rd st st1 Hgate E Htick) as (_ & Hf & Hn & Hs).
    destruct (PidAvg_accumulate_keeps_previous c rd st st1 Hgate E Htick) as (K1 & K2).
    unfold PidAvg_sums in Hs. injection Hs as E1 E2 E3 E4.
    cbn [result snd]. apply andb_true_intro. split.
    + rewrite !andb_true_iff, !Z.leb_le. lia.
    + apply IHrds; try assumption; try lia;
        rewrite ?Hf, ?E1, ?E2, ?E3, ?E4, ?Hn; try assumption; lia.
Qed.

(** C3, as amended.  From cleared sums and counter, with the safety gate
    not holding, and as long as no signed variable leaves the range of its
    C type, [NUM_AVERAGES] accumulations close the window exactly once:
    each average is the truncated quotient of the sum of the
    [NUM_AVERAGES] inputs by [NUM_AVERAGES + 1], and the four sums and the
    counter are cleared.  In [AvgIC] the interrupt of the last accumulation
    closes the window.  In [PidAvg] the interrupt after it does, and the
    regulator runs first on every interrupt: with the regulator on target
    the run is defined, and the same holds on every run on which the
    regulator's conversions are defined. *)
Theorem averaging_window_divides_by_N_plus_1 :
  (forall (c : avg_config) (rds : list sensors) (st : AvgIC.state),
      0 < NUM_AVERAGES c ->
      SAFETY_ENABLE c && AvgIC.VOLTAGE_SAFETY st = false ->
      AvgIC.avgCount st = 0 ->
      AvgIC_sums st = [0; 0; 0; 0] ->
      Z.of_nat (length rds) = NUM_AVERAGES c ->
      AvgIC_run_fits c rds st = true ->
      exists tr st',
        run (AvgIC_controlUpdate_checked c) rds st = (tr, Some st') /\
        closings tr = 1%nat /\
        AvgIC_averages st' = map (fun s => s ÷ (NUM_AVERAGES c + 1)) (totals rds) /\
        AvgIC_sums st' = [0; 0; 0; 0] /\
        AvgIC.avgCount st' = 0) /\
  (forall (c : avg_config) (rds : list PidAvg.reading) (rd : PidAvg.reading)
          (st : PidAvg.state),
      SAFETY_ENABLE c && PidAvg.VOLTAGE_SAFETY st = false ->
      PidAvg.avgCount st = 0 ->
      PidAvg_sums st = [0; 0; 0; 0] ->
      Z.of_nat (length rds) = NUM_AVERAGES c ->
      PidAvg_run_fits c (rds ++ [rd]) st = true ->
      Forall at_target (rds ++ [rd]) ->
      deq (PidAvg.integralControl st) (Fin 0) ->
      0 <= PidAvg.dutyCycle st <= 65535 ->
      exists st' st'',
        result (run (PidAvg_controlUpdate_checked c) rds st) = Some st' /\
        closings (trace (run (PidAvg_controlUpdate_checked c) rds st)) = 0%nat /\
        PidAvg_sums st' = totals (map PidAvg.sample rds) /\
        result (PidAvg_controlUpdate_checked c rd st') = Some st'' /\
        closings (trace (PidAvg_controlUpdate_checked c rd st')) = 1%nat /\
        PidAvg_averages st''
        = map (fun s => s ÷ (NUM_AVERAGES c + 1)) (totals (map PidAvg.sample rds)) /\
        PidAvg_sums st'' = [0; 0; 0; 0] /\
        PidAvg.avgCount st'' = 0) /\
  (forall (c : avg_config) (rds : list PidAvg.reading) (rd : PidAvg.reading)
          (st st' st'' : PidAvg.state),
      SAFETY_ENABLE c && PidAvg.VOLTAGE_SAFETY st = false ->
      PidAvg.avgCount st = 0 ->
      PidAvg_sums st = [0; 0; 0; 0] ->
      Z.of_nat (length rds) = NUM_AVERAGES c ->
      result (run (PidAvg_controlUpdate_checked c) rds st) = Some st' ->
      result (PidAvg_controlUpdate_checked c rd st') = Some st'' ->
      closings (trace (run (PidAvg_controlUpdate_checked c) rds st)) = 0%nat /\
      PidAvg_sums st' = totals (map PidAvg.sample rds) /\
      closings (trace (PidAvg_controlUpdate_checked c rd st')) = 1%nat /\
      PidAvg_averages st''
      = map (fun s => s ÷ (NUM_AVERAGES c + 1)) (totals (map PidAvg.sample rds)) /\
      PidAvg_sums st'' = [0; 0; 0; 0] /\
      PidAvg.avgCount st'' = 0).
Proof.
  split; [|split].
  - intros c rds st HN Hgate Hcount Hsums Hlen Hfits.
    rewrite (AvgIC_checked_run c rds st Hfits).
    now apply AvgIC_window.
  - intros c rds rd st Hgate Hcount Hsums Hlen Hfits Hall Hi Hd.
    apply Forall_app in Hall as [Hall Hrd]. inversion Hrd as [|? ? Hrd' _]; subst.
    destruct (PidAvg_on_target_run c rds st Hgate) as (st' & Hrun & Hi' & Hd');
      try assumption; [lia | lia |].
    destruct (PidAvg_accumulate c rds st st' Hgate) as (_ & Hf & _);
      [lia | lia | exact Hrun |].
    destruct (PidAvg_on_target_tick c rd st') as (st'' & Htick & _);
      try assumption; [now rewrite Hf|].
    destruct (PidAvg_run_fits_app c rds [rd] st st' Hfits Hrun) as [F1 F2].
    cbn [PidAvg_run_fits] in F2. apply andb_prop in F2 as [F2 _].
    pose proof (PidAvg_run_fits_complete c rds st st' F1 Hrun) as E1.
    assert (E2 : PidAvg_controlUpdate_checked c rd st' = PidAvg.controlUpdate c rd st')
      by (unfold PidAvg_controlUpdate_checked; now rewrite F2).
    exists st', st''. rewrite E1, E2.
    destruct (PidAvg_window c rds rd st st' st'' Hgate Hcount Hsums Hlen Hrun Htick)
      as (C1 & C2 & C3 & C4 & C5 & C6).
    auto 10.
  - intros c rds rd st st' st'' Hgate Hcount Hsums Hlen Hrun Htick.
    pose proof (PidAvg_checked_run c rds st st' Hrun) as E1.
    destruct (PidAvg_checked_tick c rd st' st'' Htick) as [_ E2].
    rewrite E1 in Hrun |- *. rewrite E2 in Htick |- *.
    exact (PidAvg_window c rds rd st st' st'' Hgate Hcount Hsums Hlen Hrun Htick).
Qed.

Lemma averaging_window_divides_by_N_plus_1_witness :
  (let rds := repeat low_current 1000 in
   Z.of_nat (length rds) = NUM_AVERAGES shipped /\
   AvgIC_run_fits shipped rds AvgIC.init = true /\
   exists tr st',
     run (AvgIC_controlUpdate_checked shipped) rds AvgIC.init = (tr, Some st') /\
     closings tr = 1%nat /\
     AvgIC_averages st' = [29; 11988; 19; 19980] /\
     AvgIC_sums st' = [0; 0; 0; 0] /\
     AvgIC.avgCount st' = 0) /\
  (let rds := repeat on_target 1000 in
   PidAvg_run_fits shipped (rds ++ [on_target]) (PidAvg.init 682) = true /\
   Forall at_target (rds ++ [on_target]) /\
   exists st' st'',
     result (run (PidAvg_controlUpdate_checked shipped) rds (PidAvg.init 682)) = Some st' /\
     closings (trace (run (PidAvg_controlUpdate_checked shipped) rds (PidAvg.init 682)))
     = 0%nat /\
     result (PidAvg_controlUpdate_checked shipped on_target st') = Some st'' /\
     closings (trace (PidAvg_controlUpdate_checked shipped on_target st')) = 1%nat /\
     PidAvg_averages st'' = [99; 7992; 49; 11988] /\
     PidAvg_sums st'' = [0; 0; 0; 0] /\
     PidAvg.avgCount st'' = 0).
Proof.
  split.
  - intro rds.
    assert (Hlen : Z.of_nat (length rds) = NUM_AVERAGES shipped)
      by (vm_compute; reflexivity).
    assert (Hfits : AvgIC_run_fits shipped rds AvgIC.init = true)
      by (vm_compute; reflexivity).
    split; [exact Hlen|]. split; [exact Hfits|].
    destruct (proj1 averaging_window_divides_by_N_plus_1 shipped rds AvgIC.init
                eq_refl eq_refl eq_refl eq_refl Hlen Hfits)
      as (tr & st' & Hrun & Hcl & Havg & Hs & Hc).
    exists tr, st'. rewrite Havg.
    split; [exact Hrun|]. split; [exact Hcl|].
    split; [vm_compute; reflexivity|]. split; assumption.
  - intro rds.
    assert (Hlen : Z.of_nat (length rds) = NUM_AVERAGES shipped)
      by (vm_compute; reflexivity).
    assert (Hall : Forall at_target (rds ++ [on_target])).
    { apply Forall_app. split; [|repeat constructor].
      apply Forall_forall. intros x Hx. apply repeat_spec in Hx. subst. reflexivity. }
    assert (Hfits : PidAvg_run_fits shipped (rds ++ [on_target]) (PidAvg.init 682) = true).
    { assert (H16 : Forall (fun rd => reading_within_16_bits (PidAvg.sample rd) = true)
                           (rds ++ [on_target])).
      { apply Forall_app. split; [|repeat constructor].
        apply Forall_forall. intros x Hx. apply repeat_spec in Hx. subst. reflexivity. }
      apply PidAvg_on_target_fits; try exact Hall; try exact H16; try reflexivity;
        try (split; vm_compute; discriminate); vm_compute; discriminate. }
    split; [exact Hfits|]. split; [exact Hall|].
    destruct (proj1 (proj2 averaging_window_divides_by_N_plus_1) shipped rds on_target
                (PidAvg.init 682) eq_refl eq_refl eq_refl Hlen Hfits Hall)
      as (st' & st'' & Hrun & Hcl & _ & Htick & Hcl' & Havg & Hs & Hc).
    + reflexivity.
    + simpl. lia.
    + exists st', st''. rewrite Havg.
      split; [exact Hrun|]. split; [exact Hcl|]. split; [exact Htick|].
      split; [exact Hcl'|]. split; [vm_compute; reflexivity|]. split; assumption.
Defined.

(** C3, counterexample.  The sums are signed variables, and a sequence of
    inputs can take them out of their types.  On a 16-bit [int] one window
    at 100 mA does: the sum of the low-side currents, 100000, is not a value
    of [int], and the 328th interrupt of [AvgIC] is undefined.  Whatever the
    width of [int], the voltage sums are [int32_t]: two readings at the top
    of [int32_t] make the second interrupt of [PidAvg] undefined. *)
Lemma averaging_sum_leaves_its_type :
  Z.of_nat (length window_100mA) = NUM_AVERAGES shipped /\
  sum (map IL window_100mA) = 100000 /\
  fits_int (sum (map IL window_100mA)) = false /\
  AvgIC_run_fits shipped (firstn 327 window_100mA) AvgIC.init = true /\
  result (run (AvgIC_controlUpdate_checked shipped) (firstn 328 window_100mA) AvgIC.init)
  = None /\
  result (run (AvgIC_controlUpdate_checked shipped) window_100mA AvgIC.init) = None /\
  result (run (PidAvg_controlUpdate_checked shipped) top_of_int32 (PidAvg.init 682))
  = None.
Proof.
  do 6 (split; [vm_compute; reflexivity|]). vm_compute. reflexivity.
Qed.

(** * Further properties *)

(** ** The duty cycle of the IC controller with averaging *)

(** Case analysis on the integer comparisons of a goal. *)
Ltac zcases :=
  repeat match goal with
         | |- context [?a <? ?b] => destruct (Z.ltb_spec a b)
         | |- context [?a >? ?b] => destruct (Z.gtb_spec a b)
         | |- context [?a <=? ?b] => destruct (Z.leb_spec a b)
         | |- context [?a =? ?b] => destruct (Z.eqb_spec a b)
         end;
  try lia.

Lemma u16_small (z : Z) : 0 <= z < 65536 -> u16 z = z.
Proof. intro H. apply Z.mod_small. exact H. Qed.

Lemma u16_below_zero (z : Z) : -65536 <= z < 0 -> u16 z = z + 65536.
Proof.
  intro H. unfold u16. symmetry.
  apply (Z.mod_unique z 65536 (-1) (z + 65536)); lia.
Qed.

(** The interrupt of [AvgIC] that closes a window, for a given decision of
    the IC engine in its first branch. *)
Lemma AvgIC_close_branch1 (c : avg_config) (rd : sensors) (st : AvgIC.state) :
  SAFETY_ENABLE c && AvgIC.VOLTAGE_SAFETY st = false ->
  AvgIC.avgCount st + 1 = NUM_AVERAGES c ->
  in_voltage_band (ic c) (AvgIC_closing_dV c rd st) ->
  exists tr st',
    AvgIC.controlUpdate c rd st = (tr, Some st') /\
    duty_writes tr = [AvgIC.dutyCycle st'] /\
    AvgIC.dutyCycle st'
    = constrain
        (u16 (AvgIC.dutyCycle st
              + (if AvgIC_closing_dI c rd st >? CURRENT_ERROR_RANGE (ic c)
                 then DUTY_CYCLE_INCREMENT (ic c)
                 else if AvgIC_closing_dI c rd st <? - CURRENT_ERROR_RANGE (ic c)
                      then - DUTY_CYCLE_INCREMENT (ic c)
                      else 0)))
        10 1023.
Proof.
  intros Hgate Hn Hband. unfold AvgIC.controlUpdate. rewrite Hgate.
  apply Z.eqb_eq in Hn. rewrite Hn. cbv zeta.
  unfold AvgIC_closing_dV in Hband. rewrite ic_delta_branch1 by exact Hband.
  unfold AvgIC_closing_dI.
  destruct (_ >? LOW_SIDE_MAX_VOLTAGE c);
    cbn [bind emit ret app]; eexists _, _; (split; [reflexivity|]);
    split; reflexivity.
Qed.

(** X1.  In the IC controller with averaging, [dutyCycle] is a [uint16_t]
    that is stepped first and clamped afterwards.  From a duty cycle within
    10..1023 and a decision taken in the first branch, a step up saturates
    at 1023 and a hold keeps the value, but a step down from below 20 wraps
    around zero and is clamped to the maximum 1023; only from 20 on does it
    give [max 10 (d - 20)]. *)
Theorem AvgIC_step_down_wraps_to_maximum
    (c : avg_config) (rd : sensors) (st : AvgIC.state) :
  SAFETY_ENABLE c && AvgIC.VOLTAGE_SAFETY st = false ->
  AvgIC.avgCount st + 1 = NUM_AVERAGES c ->
  DUTY_CYCLE_INCREMENT (ic c) = 20 ->
  10 <= AvgIC.dutyCycle st <= 1023 ->
  in_voltage_band (ic c) (AvgIC_closing_dV c rd st) ->
  let d := AvgIC.dutyCycle st in
  let written := duty_writes (trace (AvgIC.controlUpdate c rd st)) in
  (AvgIC_closing_dI c rd st < - CURRENT_ERROR_RANGE (ic c) ->
   0 <= CURRENT_ERROR_RANGE (ic c) ->
   written = [if d <? 20 then 1023 else Z.max 10 (d - 20)]) /\
  (CURRENT_ERROR_RANGE (ic c) < AvgIC_closing_dI c rd st ->
   written = [Z.min 1023 (d + 20)]) /\
  (- CURRENT_ERROR_RANGE (ic c) <= AvgIC_closing_dI c rd st
   <= CURRENT_ERROR_RANGE (ic c) ->
   written = [d]).
Proof.
  intros Hgate Hn Hstep Hd Hband d written.
  destruct (AvgIC_close_branch1 c rd st Hgate Hn Hband) as (tr & st' & Hrun & Hw & Hduty).
  subst written. rewrite Hrun. cbn [trace fst]. rewrite Hw, Hduty, Hstep. fold d.
  unfold constrain.
  split; [|split]; intros; f_equal;
    destruct (Z.gtb_spec (AvgIC_closing_dI c rd st) (CURRENT_ERROR_RANGE (ic c)));
    try lia.
  - destruct (Z.ltb_spec (AvgIC_closing_dI c rd st) (- CURRENT_ERROR_RANGE (ic c)));
      try lia.
    destruct (Z.ltb_spec d 20).
    + rewrite u16_below_zero by lia. zcases.
    + rewrite u16_small by lia. zcases.
  - rewrite u16_small by lia. zcases.
  - destruct (Z.ltb_spec (AvgIC_closing_dI c rd st) (- CURRENT_ERROR_RANGE (ic c)));
      try lia.
    rewrite u16_small by lia. zcases.
Qed.

Lemma AvgIC_step_down_wraps_to_maximum_witness :
  let rd := {| IL := 0; IH := 0; VL := 0; VH := 20000 |} in
  10 <= AvgIC.dutyCycle near_floor <= 1023 /\
  AvgIC_closing_dI shipped rd near_floor < - CURRENT_ERROR_RANGE (ic shipped) /\
  duty_writes (trace (AvgIC.controlUpdate shipped rd near_floor)) = [1023].
Proof.
  intro rd.
  assert (Hd : 10 <= AvgIC.dutyCycle near_floor <= 1023) by (simpl; lia).
  assert (Hband : in_voltage_band (ic shipped) (AvgIC_closing_dV shipped rd near_floor))
    by (unfold in_voltage_band; vm_compute; split; reflexivity).
  assert (Hdown : AvgIC_closing_dI shipped rd near_floor
                  < - CURRENT_ERROR_RANGE (ic shipped)) by reflexivity.
  split; [exact Hd|]. split; [exact Hdown|].
  refine (proj1 (AvgIC_step_down_wraps_to_maximum shipped rd near_floor
                   eq_refl eq_refl eq_refl Hd Hband) Hdown _).
  discriminate.
Defined.

(** The wrap is reached from the state after [setup]: 25 steps down take
    the duty cycle from 512 to 12, the 26th hands 1023 to the actuator. *)
Lemma AvgIC_descent_reaches_maximum :
  let writes := duty_writes (trace (run (AvgIC.controlUpdate shipped) avg_descent AvgIC.init)) in
  nth 25 writes 0 = 12 /\ nth 26 writes 0 = 1023.
Proof.
  split; vm_compute; reflexivity.
Qed.

(** ** The overvoltage flag *)





Lemma AvgIC_flag_tick (c : avg_config) (rd : sensors) (st st' : AvgIC.state) :
  result (AvgIC.controlUpdate c rd st) = Some st' ->
  AvgIC.VOLTAGE_SAFETY st = true ->
  AvgIC.VOLTAGE_SAFETY st' = true.
Proof.
  intros Hres Hf. unfold AvgIC.controlUpdate, AvgIC.shutdown in Hres.
  rewrite Hf in Hres. destruct (SAFETY_ENABLE c); cbn [andb] in Hres.
  - unfold protective_duty, idivide in Hres.
    destruct (VH rd =? 0); cbn [bind emit ret app result snd] in Hres;
      [discriminate|]. now injection Hres as <-.
  - destruct (AvgIC.avgCount st + 1 =? NUM_AVERAGES c).
    + revert Hres.
      match goal with
      | |- context [ic_delta ?p ?a ?b ?x ?y] =>
          destruct (ic_delta_shape p a b x y) as [delta [H|H]]; rewrite H
      end;
      destruct (_ >? LOW_SIDE_MAX_VOLTAGE c);
      cbn [bind emit ret app result snd]; intro Hres; now injection Hres as <-.
    + cbn [bind emit ret app result snd] in Hres. now injection Hres as <-.
Qed.

Lemma PidAvg_flag_tick (c : avg_config) (rd : PidAvg.reading) (st st' : PidAvg.state) :
  result (PidAvg.controlUpdate c rd st) = Some st' ->
  PidAvg.VOLTAGE_SAFETY st = true ->
  PidAvg.VOLTAGE_SAFETY st' = true.
Proof.
  intros Hres Hf. unfold PidAvg.controlUpdate, PidAvg.shutdown in Hres.
  rewrite Hf in Hres. destruct (SAFETY_ENABLE c); cbn [andb] in Hres.
  - unfold protective_duty, idivide in Hres.
    destruct (VH (PidAvg.sample rd) =? 0); cbn [bind emit ret app result snd] in Hres;
      [discriminate|]. now injection Hres as <-.
  - revert Hres.
    destruct (pi_update_shape pid_avg_pi_params (PidAvg.regulatorVL rd)
                (PidAvg.dutyCycle st) (PidAvg.integralControl st))
      as [H|(x & i' & H)]; cbv zeta in H; rewrite H; [discriminate|].
    destruct (PidAvg.avgCount st =? NUM_AVERAGES c).
    + match goal with
      | |- context [ic_delta ?p ?a ?b ?u ?v] =>
          destruct (ic_delta_shape p a b u v) as [delta [H'|H']]; rewrite H'
      end;
      destruct (_ >? LOW_SIDE_MAX_VOLTAGE c);
      cbn [bind emit ret app result snd]; intro Hres; now injection Hres as <-.
    + cbn [bind emit ret app result snd]. intro Hres. now injection Hres as <-.
Qed.

Lemma run_invariant {R S : Type} (tick : R -> S -> M S) (P : S -> Prop) :
  (forall rd st st', result (tick rd st) = Some st' -> P st -> P st') ->
  forall rds st st', result (run tick rds st) = Some st' -> P st -> P st'.
Proof.
  intro Hstep. induction rds as [|rd rds IHrds]; intros st st' Hres HP.
  - cbn in Hres. now injection Hres as <-.
  - cbn [run] in Hres. unfold bind in Hres.
    destruct (tick rd st) as [l [st1|]] eqn:E; [|discriminate].
    destruct (run tick rds st1) as [l' r] eqn:E'. cbn [result snd] in Hres. subst r.
    apply (IHrds st1 st'); [now rewrite E'|].
    apply (Hstep rd st st1); [now rewrite E|exact HP].
Qed.

(** X3.  The overvoltage flag is a latch: in either configuration of the
    safety gate, no sequence of interrupts of the two averaging variants
    brings a raised flag down again. *)
Theorem safety_flag_is_never_cleared (c : avg_config) :
  (forall (rds : list sensors) (st st' : AvgIC.state),
      result (run (AvgIC.controlUpdate c) rds st) = Some st' ->
      AvgIC.VOLTAGE_SAFETY st = true ->
      AvgIC.VOLTAGE_SAFETY st' = true) /\
  (forall (rds : list PidAvg.reading) (st st' : PidAvg.state),
      result (run (PidAvg.controlUpdate c) rds st) = Some st' ->
      PidAvg.VOLTAGE_SAFETY st = true ->
      PidAvg.VOLTAGE_SAFETY st' = true).
Proof.
  split.
  - apply (run_invariant (AvgIC.controlUpdate c)
             (fun st => AvgIC.VOLTAGE_SAFETY st = true)).
    apply AvgIC_flag_tick.
  - apply (run_invariant (PidAvg.controlUpdate c)
             (fun st => PidAvg.VOLTAGE_SAFETY st = true)).
    apply PidAvg_flag_tick.
Qed.

Lemma safety_flag_is_never_cleared_witness :
  exists st',
    result (run (AvgIC.controlUpdate shipped) (snd overvoltage_windows) tripped)
    = Some st' /\
    AvgIC.VOLTAGE_SAFETY tripped = true /\
    AvgIC.VOLTAGE_SAFETY st' = true.
Proof.
  eexists. split; [vm_compute; reflexivity|]. split; [reflexivity|].
  refine (proj1 (safety_flag_is_never_cleared shipped)
                (snd overvoltage_windows) tripped _ _ eq_refl).
  vm_compute. reflexivity.
Defined.

(** ** Zero divisors in the IC controller with averaging *)

Lemma to_i32_inject_Z (q : Q) (z : Z) :
  (q == inject_Z z)%Q -> to_i32 (Fin q) = Some z \/ to_i32 (Fin q) = None.
Proof.
  intro H. unfold to_i32. rewrite (Qtrunc_inject_Z q z H).
  destruct ((-2147483648 <=? z) && (z <=? 2147483647)); auto.
Qed.

(** With a scale of 1.00 and an offset of 36, the calibrated low-side
    voltage is the reading plus 36 whenever the conversion is defined. *)
Lemma AvgIC_getCalibratedVL_value (actualVL v : Z) :
  AvgIC_getCalibratedVL actualVL = Some v -> v = actualVL + 36.
Proof.
  unfold AvgIC_getCalibratedVL, of_int. cbn [dmul dadd]. intro H.
  destruct (to_i32_inject_Z (inject_Z actualVL * 1 + 36) (actualVL + 36)) as [E|E].
  - rewrite inject_Z_plus. change (inject_Z 36) with 36%Q. ring.
  - congruence.
  - congruence.
Qed.

Lemma divides_by_zero_app (l1 l2 : list event) :
  divides_by_zero (l1 ++ l2) = divides_by_zero l1 || divides_by_zero l2.
Proof. apply existsb_app. Qed.

(** The engine evaluates a zero divisor only for a zero averaged voltage. *)
Lemma ic_delta_nonzero_voltage (p : ic_params) (dV dI I V : Z) :
  0 < VOLTAGE_ERROR_RANGE p -> V <> 0 ->
  divides_by_zero (trace (ic_delta p dV dI I V)) = false.
Proof.
  intros Hpos HV.
  assert (Hdec : in_voltage_band p dV \/ ~ in_voltage_band p dV)
    by (unfold in_voltage_band; lia).
  destruct Hdec as [Hb|Hb].
  - rewrite ic_delta_branch1 by assumption. reflexivity.
  - assert (Hd : dV <> 0) by (intro; subst; apply Hb; unfold in_voltage_band; lia).
    rewrite ic_delta_branch2 by assumption. cbv zeta.
    unfold trace, fst, divides_by_zero. cbn [existsb zero_divisor].
    rewrite !is_zero_of_int. apply Z.eqb_neq in Hd, HV. now rewrite Hd, HV.
Qed.

Lemma AvgIC_floor_tick (c : avg_config) (rd : sensors) (st : AvgIC.state) :
  SAFETY_ENABLE c = false ->
  0 < VOLTAGE_ERROR_RANGE (ic c) ->
  0 <= AvgIC.avgCount st < NUM_AVERAGES c ->
  36 * AvgIC.avgCount st <= AvgIC.avgLowVoltageSum st ->
  36 <= VL rd ->
  exists tr st',
    AvgIC.controlUpdate c rd st = (tr, Some st') /\
    divides_by_zero tr = false /\
    0 <= AvgIC.avgCount st' < NUM_AVERAGES c /\
    36 * AvgIC.avgCount st' <= AvgIC.avgLowVoltageSum st'.
Proof.
  intros Hc Hrange Hcount Hsum Hvl. unfold AvgIC.controlUpdate. rewrite Hc.
  cbn [andb]. destruct (Z.eqb_spec (AvgIC.avgCount st + 1) (NUM_AVERAGES c)) as [Hn|Hn].
  - set (V := (AvgIC.avgLowVoltageSum st + VL rd) ÷ (NUM_AVERAGES c + 1)).
    assert (HV : V <> 0).
    { assert (1 <= V); [|lia]. unfold V.
      rewrite Z.quot_div_nonneg by lia. apply Z.div_le_lower_bound; lia. }
    match goal with
    | |- context [ic_delta ?p ?a ?b ?x ?y] =>
        pose proof (ic_delta_nonzero_voltage p a b x y Hrange HV) as Hdiv;
        destruct (ic_delta p a b x y) as [l [delta|]] eqn:E;
        [|destruct (ic_delta_shape p a b x y) as [? [H|H]]; congruence]
    end.
    cbn [trace fst] in Hdiv.
    destruct (V >? LOW_SIDE_MAX_VOLTAGE c);
      cbn [bind emit ret app]; eexists _, _; (split; [reflexivity|]);
      cbn [AvgIC.avgCount AvgIC.avgLowVoltageSum];
      (split; [|lia]);
      unfold divides_by_zero in *; cbn [existsb zero_divisor orb];
      rewrite ?existsb_app, Hdiv; reflexivity.
  - cbn [bind emit ret app]. eexists _, _. split; [reflexivity|].
    cbn [AvgIC.avgCount AvgIC.avgLowVoltageSum]. split; [reflexivity|]. lia.
Qed.

(** On the arithmetic in [Z]: readings that are not negative never lead
    to a division by zero. *)
Lemma AvgIC_no_zero_divisor (c : avg_config) (rds : list sensors) :
  SAFETY_ENABLE c = false ->
  0 < VOLTAGE_ERROR_RANGE (ic c) ->
  Forall (fun rd => exists actualVL,
              0 <= actualVL /\ AvgIC_getCalibratedVL actualVL = Some (VL rd)) rds ->
  forall st,
    0 <= AvgIC.avgCount st < NUM_AVERAGES c ->
    36 * AvgIC.avgCount st <= AvgIC.avgLowVoltageSum st ->
    exists tr st',
      run (AvgIC.controlUpdate c) rds st = (tr, Some st') /\
      divides_by_zero tr = false.
Proof.
  intros Hc Hrange Hall.
  induction Hall as [|rd rds (raw & Hraw & Hcal) _ IHrds]; intros st Hcount Hsum.
  - exists [], st. split; reflexivity.
  - apply AvgIC_getCalibratedVL_value in Hcal.
    destruct (AvgIC_floor_tick c rd st Hc Hrange Hcount Hsum) as
      (tr1 & st1 & Htick & Hdiv1 & Hcount1 & Hsum1); [lia|].
    destruct (IHrds st1 Hcount1 Hsum1) as (tr2 & st2 & Hrun & Hdiv2).
    exists (tr1 ++ tr2), st2. split.
    + cbn [run]. exact (bind_Some _ _ _ _ _ _ Htick Hrun).
    + now rewrite divides_by_zero_app, Hdiv1, Hdiv2.
Qed.

(** X4.  In the configuration of the repository (gate compiled out), on a
    run that keeps every signed variable within its type, the IC controller
    with averaging never evaluates a division by zero as long as the
    low-side voltage readings are not negative: the calibration adds 36 to
    each of them, so every window average is at least 1. *)
Theorem AvgIC_never_divides_by_zero (c : avg_config) (rds : list sensors)
    (st : AvgIC.state) :
  SAFETY_ENABLE c = false ->
  0 < VOLTAGE_ERROR_RANGE (ic c) ->
  Forall (fun rd => exists actualVL,
              0 <= actualVL /\ AvgIC_getCalibratedVL actualVL = Some (VL rd)) rds ->
  0 <= AvgIC.avgCount st < NUM_AVERAGES c ->
  36 * AvgIC.avgCount st <= AvgIC.avgLowVoltageSum st ->
  AvgIC_run_fits c rds st = true ->
  exists tr st',
    run (AvgIC_controlUpdate_checked c) rds st = (tr, Some st') /\
    divides_by_zero tr = false.
Proof.
  intros Hc Hrange Hall Hcount Hsum Hfits.
  rewrite (AvgIC_checked_run c rds st Hfits).
  now apply AvgIC_no_zero_divisor.
Qed.

Lemma AvgIC_never_divides_by_zero_witness :
  let rds := repeat {| IL := 0; IH := 0; VL := 36; VH := 0 |} 2000 in
  SAFETY_ENABLE shipped = false /\
  AvgIC_getCalibratedVL 0 = Some 36 /\
  AvgIC_run_fits shipped rds AvgIC.init = true /\
  exists tr st',
    run (AvgIC_controlUpdate_checked shipped) rds AvgIC.init = (tr, Some st') /\
    divides_by_zero tr = false.
Proof.
  intro rds.
  assert (Hfits : AvgIC_run_fits shipped rds AvgIC.init = true)
    by (vm_compute; reflexivity).
  split; [reflexivity|]. split; [reflexivity|]. split; [exact Hfits|].
  apply (AvgIC_never_divides_by_zero shipped rds AvgIC.init eq_refl eq_refl).
  - apply Forall_forall. intros rd Hrd. apply repeat_spec in Hrd. subst.
    exists 0. split; [lia|reflexivity].
  - simpl. lia.
  - simpl. lia.
  - exact Hfits.
Defined.

(** ** The AtverterH controller *)

(** The decision of the IC engine is one step up, one step down or none. *)
Lemma ic_delta_three_valued (p : ic_params) (dV dI I V : Z) :
  exists tr delta,
    ic_delta p dV dI I V = (tr, Some delta) /\
    duty_writes tr = [] /\ closings tr = 0%nat /\
    (delta = DUTY_CYCLE_INCREMENT p \/ delta = - DUTY_CYCLE_INCREMENT p \/ delta = 0).
Proof.
  assert (Hdec : in_voltage_band p dV \/ ~ in_voltage_band p dV)
    by (unfold in_voltage_band; lia).
  destruct Hdec as [Hb|Hb].
  - rewrite ic_delta_branch1 by assumption. eexists [], _.
    split; [reflexivity|]. split; [reflexivity|]. split; [reflexivity|].
    destruct (dI >? _); [auto|]. destruct (dI <? _); auto.
  - rewrite ic_delta_branch2 by assumption. cbv zeta. eexists _, _.
    split; [reflexivity|]. split; [reflexivity|]. split; [reflexivity|].
    destruct (_ && _); [auto|]. destruct (_ && _); auto.
Qed.

Lemma Hw_shutdown_tick (rd : Hw.reading) (st : Hw.state) :
  Hw.isGateShutdown rd = true ->
  result (Hw.controlUpdate rd st) = Some st /\
  duty_writes (trace (Hw.controlUpdate rd st)) = [].
Proof.
  intro H. unfold Hw.controlUpdate. rewrite H.
  destruct (Hw.V2 rd >? Hw.LOW_SIDE_MAX_VOLTAGE); split; reflexivity.
Qed.

(** X6.  While the hardware layer reports its gates shut down, the
    AtverterH controller writes no duty cycle at all and keeps its whole
    state, interrupt after interrupt. *)
Theorem Hw_shutdown_freezes_controller (rds : list Hw.reading) (st : Hw.state) :
  Forall (fun rd => Hw.isGateShutdown rd = true) rds ->
  result (run Hw.controlUpdate rds st) = Some st /\
  duty_writes (trace (run Hw.controlUpdate rds st)) = [].
Proof.
  induction 1 as [|rd rds Hrd _ IHrds]; [split; reflexivity|].
  destruct (Hw_shutdown_tick rd st Hrd) as [Hres Hw].
  cbn [run]. destruct (Hw.controlUpdate rd st) as [l r].
  cbn [result trace fst snd] in *. subst r. unfold bind.
  destruct (run Hw.controlUpdate rds st) as [l' r'].
  cbn [result trace fst snd] in *. destruct IHrds as [-> Hw'].
  split; [reflexivity|]. now rewrite duty_writes_app, Hw, Hw'.
Qed.

Lemma Hw_shutdown_freezes_controller_witness :
  let rd := {| Hw.V1 := 20000; Hw.V2 := 19000; Hw.I1 := 0; Hw.I2 := 0;
               Hw.isGateShutdown := true |} in
  Hw.isGateShutdown rd = true /\
  duty_writes (trace (run Hw.controlUpdate [rd; rd; rd] Hw.init)) = [].
Proof.
  intro rd. split; [reflexivity|].
  apply (Hw_shutdown_freezes_controller [rd; rd; rd] Hw.init).
  repeat constructor.
Defined.

Lemma Hw_fast_tick (rd : Hw.reading) (st : Hw.state) :
  Hw.isGateShutdown rd = false ->
  Hw.slowInterruptCounter st + 1 <= 1000 ->
  exists tr st',
    Hw.controlUpdate rd st = (tr, Some st') /\
    closings tr = 0%nat /\
    duty_writes tr = (if hw_out_of_range (Hw.V2 rd) then [50] else []) /\
    Hw.dutyCycle st' = Hw.dutyCycle st /\
    Hw.slowInterruptCounter st' = Hw.slowInterruptCounter st + 1.
Proof.
  intros Hs Hc. unfold Hw.controlUpdate, hw_out_of_range. rewrite Hs.
  destruct (Z.gtb_spec (Hw.slowInterruptCounter st + 1) 1000); [lia|].
  destruct (Hw.V2 rd >? Hw.LOW_SIDE_MAX_VOLTAGE);
    destruct ((Hw.V2 rd <? Hw.LOW_VOLTAGE_RESET) || (Hw.V2 rd >? Hw.HIGH_VOLTAGE_RESET));
    cbn [bind emit ret app]; eexists _, _; repeat split; reflexivity.
Qed.

Lemma Hw_slow_tick (rd : Hw.reading) (st : Hw.state) :
  Hw.isGateShutdown rd = false ->
  1000 < Hw.slowInterruptCounter st + 1 ->
  exists tr st' delta,
    Hw.controlUpdate rd st = (tr, Some st') /\
    closings tr = 1%nat /\
    duty_writes tr
    = (if hw_out_of_range (Hw.V2 rd) then [50] else []) ++ [Hw.dutyCycle st'] /\
    -1 <= delta <= 1 /\
    Hw.dutyCycle st' = u16 (Hw.dutyCycle st + delta) /\
    Hw.slowInterruptCounter st' = 0.
Proof.
  intros Hs Hc. unfold Hw.controlUpdate, hw_out_of_range. rewrite Hs.
  destruct (Z.gtb_spec (Hw.slowInterruptCounter st + 1) 1000); [|lia].
  match goal with
  | |- context [ic_delta ?p ?a ?b ?x ?y] =>
      destruct (ic_delta_three_valued p a b x y) as (l & delta & E & Hw & Hcl & Hdelta);
      rewrite E
  end.
  assert (Hd : -1 <= delta <= 1) by (cbn in Hdelta; lia).
  destruct (Hw.V2 rd >? Hw.LOW_SIDE_MAX_VOLTAGE);
    destruct ((Hw.V2 rd <? Hw.LOW_VOLTAGE_RESET) || (Hw.V2 rd >? Hw.HIGH_VOLTAGE_RESET));
    cbn [bind emit ret app]; eexists _, _, delta; (split; [reflexivity|]);
    cbn [Hw.dutyCycle Hw.slowInterruptCounter];
    unfold closings, duty_writes in *;
    cbn [filter flat_map is_transmit app length];
    rewrite ?filter_app, ?flat_map_app, ?length_app, ?Hw, ?Hcl;
    repeat split; try reflexivity; try lia.
Qed.

Lemma Hw_fast_run (rds : list Hw.reading) :
  Forall (fun rd => Hw.isGateShutdown rd = false) rds ->
  forall st,
    Hw.slowInterruptCounter st + Z.of_nat (length rds) <= 1000 ->
    exists tr st',
      run Hw.controlUpdate rds st = (tr, Some st') /\
      closings tr = 0%nat /\
      Forall (eq 50) (duty_writes tr) /\
      Hw.dutyCycle st' = Hw.dutyCycle st /\
      Hw.slowInterruptCounter st' = Hw.slowInterruptCounter st + Z.of_nat (length rds).
Proof.
  induction 1 as [|rd rds Hrd _ IHrds]; intros st Hlen.
  - exists [], st. cbn [run length Z.of_nat]. rewrite Z.add_0_r.
    repeat split; constructor.
  - cbn [length] in Hlen. rewrite Nat2Z.inj_succ in Hlen.
    destruct (Hw_fast_tick rd st Hrd) as (tr1 & st1 & Htick & Hcl1 & Hw1 & Hd1 & Hc1);
      [lia|].
    destruct (IHrds st1) as (tr2 & st2 & Hrun & Hcl2 & Hw2 & Hd2 & Hc2); [lia|].
    exists (tr1 ++ tr2), st2. split.
    + cbn [run]. exact (bind_Some _ _ _ _ _ _ Htick Hrun).
    + rewrite closings_app, Hcl1, Hcl2, duty_writes_app, Hw1.
      split; [reflexivity|]. split.
      * apply Forall_app. split; [|exact Hw2].
        destruct (hw_out_of_range (Hw.V2 rd)); repeat constructor.
      * cbn [length]. rewrite Nat2Z.inj_succ. split; [congruence|lia].
Qed.

(** X5.  The IC block of the AtverterH controller runs on every 1001st
    interrupt (the counter is incremented before it is compared with 1000):
    from a counter at zero and without gate shutdown, 1000 interrupts leave
    the duty cycle alone, writing at most the reset value 50, and the next
    one runs the engine and clears the counter. *)
Theorem Hw_engine_runs_every_1001st_interrupt
    (rds : list Hw.reading) (rd : Hw.reading) (st : Hw.state) :
  Hw.slowInterruptCounter st = 0 ->
  length rds = 1000%nat ->
  Forall (fun rd => Hw.isGateShutdown rd = false) rds ->
  Hw.isGateShutdown rd = false ->
  exists tr st1 tr' st2,
    run Hw.controlUpdate rds st = (tr, Some st1) /\
    closings tr = 0%nat /\
    Forall (eq 50) (duty_writes tr) /\
    Hw.dutyCycle st1 = Hw.dutyCycle st /\
    Hw.controlUpdate rd st1 = (tr', Some st2) /\
    closings tr' = 1%nat /\
    Hw.slowInterruptCounter st2 = 0.
Proof.
  intros Hc Hlen Hall Hrd.
  destruct (Hw_fast_run rds Hall st) as (tr & st1 & Hrun & Hcl & Hw & Hd & Hc1).
  { rewrite Hc, Hlen. simpl. lia. }
  destruct (Hw_slow_tick rd st1 Hrd) as (tr' & st2 & delta & Htick & Hcl' & _ & _ & _ & Hc2).
  { rewrite Hc1, Hc, Hlen. simpl. lia. }
  exists tr, st1, tr', st2. auto 10.
Qed.

Lemma Hw_engine_runs_every_1001st_interrupt_witness :
  let rd := hw_reading 12000 0 in
  let rds := repeat rd 1000 in
  length rds = 1000%nat /\
  exists tr st1 tr' st2,
    run Hw.controlUpdate rds Hw.init = (tr, Some st1) /\
    closings tr = 0%nat /\
    Forall (eq 50) (duty_writes tr) /\
    Hw.dutyCycle st1 = Hw.dutyCycle Hw.init /\
    Hw.controlUpdate rd st1 = (tr', Some st2) /\
    closings tr' = 1%nat /\
    Hw.slowInterruptCounter st2 = 0.
Proof.
  intros rd rds.
  assert (Hlen : length rds = 1000%nat) by apply repeat_length.
  split; [exact Hlen|].
  apply (Hw_engine_runs_every_1001st_interrupt rds rd Hw.init eq_refl Hlen);
    [|reflexivity].
  apply Forall_forall. intros x Hx. apply repeat_spec in Hx. now subst.
Defined.

(** X7.  Outside the 9000..15000 mV operating range the AtverterH
    controller writes 50 to the actuator on every interrupt, but it never
    stores that value: its own duty cycle stays where it was, moves by at
    most one step (modulo 2^16) on a slow interrupt, and is then written
    after the 50. *)
Theorem Hw_reset_value_is_written_but_not_stored (rd : Hw.reading) (st : Hw.state) :
  Hw.isGateShutdown rd = false ->
  exists st' delta,
    result (Hw.controlUpdate rd st) = Some st' /\
    -1 <= delta <= 1 /\
    Hw.dutyCycle st'
    = (if Hw.slowInterruptCounter st + 1 >? 1000
       then u16 (Hw.dutyCycle st + delta) else Hw.dutyCycle st) /\
    duty_writes (trace (Hw.controlUpdate rd st))
    = (if hw_out_of_range (Hw.V2 rd) then [50] else [])
      ++ (if Hw.slowInterruptCounter st + 1 >? 1000 then [Hw.dutyCycle st'] else []).
Proof.
  intro Hrd.
  destruct (Z.gtb_spec (Hw.slowInterruptCounter st + 1) 1000) as [Hslow|Hfast].
  - destruct (Hw_slow_tick rd st Hrd Hslow) as
      (tr & st' & delta & Htick & _ & Hw & Hdelta & Hd & _).
    exists st', delta. rewrite Htick. auto.
  - destruct (Hw_fast_tick rd st Hrd Hfast) as (tr & st' & Htick & _ & Hw & Hd & _).
    exists st', 0. rewrite Htick. cbn [result trace fst snd].
    rewrite app_nil_r. repeat split; try assumption; lia.
Qed.

Lemma Hw_reset_value_is_written_but_not_stored_witness :
  let rd := hw_reading 8000 0 in
  let st := {| Hw.dutyCycle := 70; Hw.slowInterruptCounter := 1000;
               Hw.lowCurrent := 0; Hw.prevLowCurrent := 0;
               Hw.lowVoltage := 8000; Hw.prevLowVoltage := 8000;
               Hw.highCurrent := 0; Hw.highVoltage := 20000;
               Hw.dV := 0; Hw.dI := 0; Hw.ledState := true |} in
  Hw.isGateShutdown rd = false /\
  duty_writes (trace (Hw.controlUpdate rd st)) = [50; 70].
Proof.
  intros rd st. split; [reflexivity|].
  destruct (Hw_reset_value_is_written_but_not_stored rd st eq_refl)
    as (st' & delta & Hres & _ & Hd & Hw).
  rewrite Hw. vm_compute in Hres. injection Hres as <-. reflexivity.
Defined.

(** ** [setup] *)

Lemma setup_duty_defined (desired vh : Z) :
  vh <> 0 ->
  setup_duty desired vh = ([EvDivide (of_int vh)], Some (u16 (desired * 1024 ÷ vh))).
Proof.
  intro H. unfold setup_duty, idivide. apply Z.eqb_neq in H.
  cbn [bind emit ret app]. rewrite H. reflexivity.
Qed.

Lemma quot_between (a b lo hi : Z) :
  0 <= a -> 0 < b -> lo * b <= a -> a < (hi + 1) * b -> lo <= a ÷ b <= hi.
Proof.
  intros Ha Hb Hlo Hhi. rewrite Z.quot_div_nonneg by lia. split.
  - apply Z.div_le_lower_bound; lia.
  - apply Z.lt_succ_r. apply Z.div_lt_upper_bound; lia.
Qed.

(** X8.  [setup] hands the initial duty cycle
    [(desiredLowVoltage * 1024) / actualHighVoltage] to the actuator as
    computed, without the clamp of [controlUpdate].  With the 8000 mV
    target it lies within 10..1023 for a high-side voltage of 8001 to
    819200 mV, and exceeds 1023 for one of 126 to 8000 mV; with the buck
    converter's 5000 mV target it exceeds 1014 from 79 to 5044 mV. *)
Theorem setup_duty_is_not_clamped (vh : Z) :
  0 < vh ->
  (exists st st',
     PidAvg_setup vh = ([EvDivide (of_int vh); EvSetDutyCycle (PidAvg.dutyCycle st)],
                        Some st) /\
     Old_setup vh = ([EvDivide (of_int vh); EvSetDutyCycle (Old.dutyCycle st')],
                     Some st') /\
     PidAvg.dutyCycle st = Old.dutyCycle st' /\
     (8001 <= vh <= 819200 -> within 10 1023 (PidAvg.dutyCycle st)) /\
     (126 <= vh <= 8000 -> 1023 < PidAvg.dutyCycle st < 65536)) /\
  (exists st,
     Buck_setup vh = ([EvDivide (of_int vh); EvSetDutyCycle (Buck.dutyCycle st)],
                      Some st) /\
     (5045 <= vh <= 512000 -> within 10 1014 (Buck.dutyCycle st)) /\
     (79 <= vh <= 5044 -> 1014 < Buck.dutyCycle st < 65536)).
Proof.
  intro Hvh. assert (Hnz : vh <> 0) by lia.
  unfold PidAvg_setup, Old_setup, Buck_setup.
  rewrite !setup_duty_defined by exact Hnz. cbn [bind emit ret app].
  split.
  - exists (PidAvg.init (u16 (8000 * 1024 ÷ vh))), (Old.init (u16 (8000 * 1024 ÷ vh))).
    split; [reflexivity|]. split; [reflexivity|].
    cbn [PidAvg.dutyCycle PidAvg.init Old.dutyCycle Old.init].
    split; [reflexivity|]. split; intro H.
    + assert (Hq : 10 <= 8000 * 1024 ÷ vh <= 1023) by (apply quot_between; lia).
      rewrite u16_small by lia. exact Hq.
    + assert (Hq : 1024 <= 8000 * 1024 ÷ vh <= 65535) by (apply quot_between; lia).
      rewrite u16_small by lia. lia.
  - exists (Buck.init (u16 (5000 * 1024 ÷ vh))). split; [reflexivity|].
    cbn [Buck.dutyCycle Buck.init]. split; intro H.
    + assert (Hq : 10 <= 5000 * 1024 ÷ vh <= 1014) by (apply quot_between; lia).
      rewrite u16_small by lia. exact Hq.
    + assert (Hq : 1015 <= 5000 * 1024 ÷ vh <= 65535) by (apply quot_between; lia).
      rewrite u16_small by lia. lia.
Qed.

Lemma setup_duty_is_not_clamped_witness :
  0 < 8000 /\ duty_writes (trace (PidAvg_setup 8000)) = [1024].
Proof.
  split; [reflexivity|].
  destruct (setup_duty_is_not_clamped 8000 eq_refl) as [(st & st' & E & _) _].
  assert (Hst : result (PidAvg_setup 8000) = Some st) by now rewrite E.
  vm_compute in Hst. injection Hst as <-. rewrite E. reflexivity.
Defined.

(** ** The IC engine at a zero averaged voltage *)

(** X10.  Outside the voltage band, an averaged voltage of zero makes the
    engine divide the averaged current by zero; the comparisons that follow
    are then decided by the sign of that current alone: a step up for a
    positive current, a step down for a negative one, none for zero. *)
Theorem ic_zero_voltage_follows_current_sign (p : ic_params) (dV dI I : Z) :
  0 < VOLTAGE_ERROR_RANGE p ->
  ~ in_voltage_band p dV ->
  divides_by_zero (trace (ic_delta p dV dI I 0)) = true /\
  result (ic_delta p dV dI I 0)
  = Some (if 0 <? I then DUTY_CYCLE_INCREMENT p
          else if I <? 0 then - DUTY_CYCLE_INCREMENT p
          else 0).
Proof.
  intros Hpos Hb.
  assert (Hd : dV <> 0) by (intro; subst; apply Hb; unfold in_voltage_band; lia).
  rewrite ic_delta_branch2 by assumption. cbv zeta. unfold trace, result, fst, snd.
  split.
  - unfold divides_by_zero. cbn [existsb zero_divisor]. rewrite !is_zero_of_int.
    cbn. apply orb_true_r.
  - rewrite (ddiv_of_int dI dV Hd).
    assert (Hg : ddiv (of_int I) (of_int 0)
                 = if 0 <? I then PInf else if I <? 0 then NInf else NaN).
    { unfold ddiv, of_int. change (Qeq_bool (inject_Z 0) 0) with true. cbv iota.
      unfold Qlt_bool, Qle_bool. cbn [Qnum Qden inject_Z].
      rewrite !Z.mul_1_r. cbn [Z.mul].
      rewrite (Z.leb_antisym 0 I), (Z.leb_antisym I 0), !negb_involutive.
      reflexivity. }
    rewrite Hg. unfold of_int. destruct (0 <? I); [reflexivity|].
    destruct (I <? 0); reflexivity.
Qed.

Lemma ic_zero_voltage_follows_current_sign_witness :
  ~ in_voltage_band hw_ic_params (-12000) /\
  result (ic_delta hw_ic_params (-12000) 0 5 0) = Some 1.
Proof.
  assert (Hb : ~ in_voltage_band hw_ic_params (-12000))
    by (unfold in_voltage_band; simpl; lia).
  split; [exact Hb|].
  exact (proj2 (ic_zero_voltage_follows_current_sign hw_ic_params (-12000) 0 5
                  eq_refl Hb)).
Defined.

(** ** The buck converter's regulator *)

Lemma Qtrunc_bounds (q : Q) (a b : Z) :
  0 <= a -> (inject_Z a <= q)%Q -> (q <= inject_Z b)%Q -> a <= Qtrunc q <= b.
Proof.
  destruct q as [n m]. unfold Qle, Qtrunc. cbn [Qnum Qden inject_Z].
  rewrite !Z.mul_1_r. intros Ha Hlo Hhi.
  assert (Hn : 0 <= n) by nia.
  rewrite Z.quot_div_nonneg by lia. split.
  - apply Z.div_le_lower_bound; lia.
  - apply Z.lt_succ_r. apply Z.div_lt_upper_bound; lia.
Qed.

Lemma Qtrunc_lower (q : Q) (a : Z) :
  0 <= a -> (inject_Z a <= q)%Q -> a <= Qtrunc q.
Proof.
  destruct q as [n m]. unfold Qle, Qtrunc. cbn [Qnum Qden inject_Z].
  rewrite !Z.mul_1_r. intros Ha Hlo.
  assert (Hn : 0 <= n) by nia.
  rewrite Z.quot_div_nonneg by lia. apply Z.div_le_lower_bound; lia.
Qed.

(** The buck converter's regulator step, with the percent error [rho]
    spelled out. *)
Lemma buck_pi_update_value (vl d : Z) (qi : Q) :
  0 <= vl ->
  let rho := (inject_Z (vl - 5000) / (inject_Z vl + inject_Z 1))%Q in
  let value := (inject_Z d + inject_Z d * (- ((3 # 10) * rho) + (qi + - (0 * rho))))%Q in
  pi_update buck_pi_params vl d (Fin qi)
  = match to_u16 (Fin value) with
    | None => ([EvDivide (Fin (inject_Z vl + inject_Z 1));
                EvDivide (Fin (inject_Z vl + inject_Z 1))], None)
    | Some x => ([EvDivide (Fin (inject_Z vl + inject_Z 1));
                  EvDivide (Fin (inject_Z vl + inject_Z 1));
                  EvSetDutyCycle (constrain x 10 1014)],
                 Some (constrain x 10 1014, Fin (qi + - (0 * rho))%Q))
    end.
Proof.
  intros Hvl rho value.
  assert (E : Qeq_bool (inject_Z vl + inject_Z 1) 0 = false).
  { destruct (Qeq_bool (inject_Z vl + inject_Z 1) 0) eqn:E; [|reflexivity].
    apply Qeq_bool_eq in E. rewrite <- inject_Z_plus in E.
    unfold Qeq in E. cbn in E. lia. }
  unfold pi_update, percent_error, divide.
  cbn [denominator buck_pi_params desiredLowVoltage kp ki DUTY_MIN DUTY_MAX].
  unfold of_int. cbn [dadd]. unfold ddiv. rewrite E.
  cbn [bind emit ret app]. unfold proportional_term, integral_increment.
  cbn [kp ki buck_pi_params dmul dneg dadd]. fold rho. fold value.
  destruct (to_u16 (Fin value)); reflexivity.
Qed.

Lemma buck_rho_above (vl : Z) :
  5000 <= vl ->
  (0 <= inject_Z (vl - 5000) / (inject_Z vl + inject_Z 1) <= 1)%Q.
Proof.
  intro H. rewrite <- inject_Z_plus.
  assert (Hpos : (0 < inject_Z (vl + 1))%Q)
    by (change 0%Q with (inject_Z 0); rewrite <- Zlt_Qlt; lia).
  split.
  - apply Qle_shift_div_l; [exact Hpos|]. rewrite Qmult_0_l.
    change 0%Q with (inject_Z 0). rewrite <- Zle_Qle. lia.
  - apply Qle_shift_div_r; [exact Hpos|]. rewrite Qmult_1_l.
    rewrite <- Zle_Qle. lia.
Qed.

Lemma buck_rho_below (vl : Z) :
  0 <= vl <= 5000 ->
  (inject_Z (vl - 5000) / (inject_Z vl + inject_Z 1) <= 0)%Q.
Proof.
  intro H. rewrite <- inject_Z_plus.
  assert (Hpos : (0 < inject_Z (vl + 1))%Q)
    by (change 0%Q with (inject_Z 0); rewrite <- Zlt_Qlt; lia).
  apply Qle_shift_div_r; [exact Hpos|]. rewrite Qmult_0_l.
  change 0%Q with (inject_Z 0). rewrite <- Zle_Qle. lia.
Qed.

(** X9.  The buck converter's regulator never moves the duty cycle away
    from the target.  From an accumulator holding zero and a duty cycle
    within 10..1014: when the measured voltage is at or above the 5000 mV
    target, the step is defined and the new duty cycle lies between 10 and
    the old one; when it is at or below the target (and not negative), a
    step that is defined yields a duty cycle between the old one and 1014.
    The accumulator stays at zero. *)
Theorem Buck_regulator_moves_toward_target (rd : sensors) (st : Buck.state) :
  deq (Buck.integralControl st) (Fin 0) ->
  10 <= Buck.dutyCycle st <= 1014 ->
  (5000 <= VL rd ->
   exists st',
     result (Buck.controlUpdate rd st) = Some st' /\
     10 <= Buck.dutyCycle st' <= Buck.dutyCycle st /\
     deq (Buck.integralControl st') (Fin 0)) /\
  (0 <= VL rd <= 5000 ->
   forall st',
     result (Buck.controlUpdate rd st) = Some st' ->
     Buck.dutyCycle st <= Buck.dutyCycle st' <= 1014 /\
     deq (Buck.integralControl st') (Fin 0)).
Proof.
  intros Hi Hd. destruct st as [d avl i led].
  cbn [Buck.dutyCycle Buck.integralControl] in *.
  destruct i as [qi| | |]; try contradiction. cbn [deq] in Hi.
  unfold Buck.controlUpdate. cbn [Buck.dutyCycle Buck.integralControl Buck.ledState].
  split.
  - intro Hvl. rewrite buck_pi_update_value by lia. cbv zeta.
    pose proof (buck_rho_above (VL rd) Hvl) as Hrho.
    set (rho := (inject_Z (VL rd - 5000) / (inject_Z (VL rd) + inject_Z 1))%Q) in *.
    set (value := (inject_Z d + inject_Z d * (- ((3 # 10) * rho) + (qi + - (0 * rho))))%Q).
    assert (Hx : (0 <= inject_Z d)%Q)
      by (change 0%Q with (inject_Z 0); rewrite <- Zle_Qle; lia).
    assert (Hvalue : (inject_Z 0 <= value /\ value <= inject_Z d)%Q).
    { unfold value. rewrite Hi. change (inject_Z 0) with 0%Q.
      clearbody rho. set (x := inject_Z d) in *. clearbody x. split; nra. }
    destruct (Qtrunc_bounds value 0 d) as [Hlo Hhi]; [lia|tauto|tauto|].
    unfold to_u16. destruct (Z.leb_spec 0 (Qtrunc value)); [|lia].
    destruct (Z.leb_spec (Qtrunc value) 65535); [|lia].
    cbn [andb bind emit ret app result snd fst]. eexists. split; [reflexivity|].
    cbn [Buck.dutyCycle Buck.integralControl deq]. split.
    + unfold constrain. zcases.
    + rewrite Hi. ring.
  - intros Hvl st'. rewrite buck_pi_update_value by lia. cbv zeta.
    pose proof (buck_rho_below (VL rd) Hvl) as Hrho.
    set (rho := (inject_Z (VL rd - 5000) / (inject_Z (VL rd) + inject_Z 1))%Q) in *.
    set (value := (inject_Z d + inject_Z d * (- ((3 # 10) * rho) + (qi + - (0 * rho))))%Q).
    assert (Hx : (0 <= inject_Z d)%Q)
      by (change 0%Q with (inject_Z 0); rewrite <- Zle_Qle; lia).
    assert (Hvalue : (inject_Z d <= value)%Q).
    { unfold value. rewrite Hi.
      clearbody rho. set (x := inject_Z d) in *. clearbody x. nra. }
    unfold to_u16. destruct (Z.leb_spec 0 (Qtrunc value));
      [|cbn [andb]; discriminate].
    destruct (Z.leb_spec (Qtrunc value) 65535); [|cbn [andb]; discriminate].
    assert (Hlo : d <= Qtrunc value) by (apply Qtrunc_lower; [lia|exact Hvalue]).
    cbn [andb bind emit ret app result snd fst]. intro E. injection E as <-.
    cbn [Buck.dutyCycle Buck.integralControl deq]. split.
    + unfold constrain. zcases.
    + rewrite Hi. ring.
Qed.

Lemma Buck_regulator_moves_toward_target_witness :
  let rd := {| IL := 0; IH := 0; VL := 6000; VH := 12000 |} in
  10 <= Buck.dutyCycle (Buck.init 682) <= 1014 /\
  5000 <= VL rd /\
  exists st',
    result (Buck.controlUpdate rd (Buck.init 682)) = Some st' /\
    10 <= Buck.dutyCycle st' <= 682.
Proof.
  intro rd.
  assert (Hd : 10 <= Buck.dutyCycle (Buck.init 682) <= 1014) by (simpl; lia).
  assert (Hvl : 5000 <= VL rd) by (simpl; lia).
  split; [exact Hd|]. split; [exact Hvl|].
  destruct (proj1 (Buck_regulator_moves_toward_target rd (Buck.init 682)
                     (Qeq_refl 0) Hd) Hvl) as (st' & Hres & Hduty & _).
  exists st'. split; [exact Hres|exact Hduty].
Defined.

(** ** PI and IC in one interrupt *)

(** X12.  In the PI + IC variant the decision of the IC engine is never
    written to the actuator by the interrupt that takes it: every interrupt
    not taken by the safety gate writes exactly one value, the clamped
    output of the regulator.  The step of the engine is added to the stored
    duty cycle afterwards, unclamped and modulo 2^16, and is seen by the
    regulator of the next interrupt. *)
Theorem PidAvg_engine_step_is_stored_not_written
    (c : avg_config) (rd : PidAvg.reading) (st st' : PidAvg.state) :
  SAFETY_ENABLE c && PidAvg.VOLTAGE_SAFETY st = false ->
  result (PidAvg.controlUpdate c rd st) = Some st' ->
  exists w delta,
    duty_writes (trace (PidAvg.controlUpdate c rd st)) = [w] /\
    within 10 1023 w /\
    (delta = DUTY_CYCLE_INCREMENT (ic c) \/ delta = - DUTY_CYCLE_INCREMENT (ic c)
     \/ delta = 0) /\
    PidAvg.dutyCycle st'
    = (if PidAvg.avgCount st =? NUM_AVERAGES c then u16 (w + delta) else w).
Proof.
  intros Hgate. unfold PidAvg.controlUpdate. rewrite Hgate.
  destruct (pi_update_shape pid_avg_pi_params (PidAvg.regulatorVL rd)
              (PidAvg.dutyCycle st) (PidAvg.integralControl st))
    as [H|(x & i' & H)]; cbv zeta in H; rewrite H; [discriminate|].
  assert (Hw : within 10 1023 (constrain x 10 1023))
    by (apply constrain_bounds; lia).
  destruct (PidAvg.avgCount st =? NUM_AVERAGES c).
  - match goal with
    | |- context [ic_delta ?p ?a ?b ?u ?v] =>
        destruct (ic_delta_three_valued p a b u v)
          as (l & delta & E & Hwr & Hcl & Hdelta); rewrite E
    end.
    destruct (_ >? LOW_SIDE_MAX_VOLTAGE c);
      cbn [bind emit ret app result trace fst snd];
      intro Hres; injection Hres as <-;
      exists (constrain x 10 1023), delta;
      cbn [PidAvg.dutyCycle DUTY_MIN DUTY_MAX pid_avg_pi_params];
      unfold duty_writes in *; cbn [flat_map app];
      rewrite ?flat_map_app, ?Hwr; cbn [flat_map app]; auto.
  - cbn [bind emit ret app result trace fst snd].
    intro Hres. injection Hres as <-.
    exists (constrain x 10 1023), 0. cbn [PidAvg.dutyCycle]. auto 6.
Qed.

Lemma PidAvg_engine_step_is_stored_not_written_witness :
  let rd := {| PidAvg.regulatorVL := 8000;
               PidAvg.sample := {| IL := 0; IH := 0; VL := 8000; VH := 12000 |} |} in
  exists st' w,
    result (PidAvg.controlUpdate shipped rd (PidAvg.init 682)) = Some st' /\
    duty_writes (trace (PidAvg.controlUpdate shipped rd (PidAvg.init 682))) = [w] /\
    within 10 1023 w.
Proof.
  intro rd. eexists.
  assert (Hres : result (PidAvg.controlUpdate shipped rd (PidAvg.init 682)) = Some _)
    by (vm_compute; reflexivity).
  destruct (PidAvg_engine_step_is_stored_not_written shipped rd (PidAvg.init 682) _
              eq_refl Hres) as (w & delta & Hw & Hin & _).
  exists w. split; [exact Hres|]. split; assumption.
Defined.

(** ** The dashboard's charts *)

Lemma skipn_succ_tl {A : Type} (k : nat) (l : list A) :
  skipn (S k) l = tl (skipn k l).
Proof.
  revert l. induction k as [|k IHk]; intros [|x l]; try reflexivity.
  cbn [skipn] in *. apply IHk.
Qed.

Lemma lastn_length {A : Type} (n : nat) (l : list A) :
  length (Dashboard.lastn n l) = Nat.min n (length l).
Proof. unfold Dashboard.lastn. rewrite length_skipn. lia. Qed.

(** Appending a point and dropping the oldest one beyond [n] points keeps
    the last [n]. *)
Lemma lastn_push {A : Type} (n : nat) (l : list A) (x : A) :
  Dashboard.lastn n (l ++ [x])
  = if (n <? length (Dashboard.lastn n l ++ [x]))%nat
    then Dashboard.shift (Dashboard.lastn n l ++ [x])
    else Dashboard.lastn n l ++ [x].
Proof.
  rewrite length_app, lastn_length. cbn [length]. unfold Dashboard.lastn, Dashboard.shift.
  rewrite length_app. cbn [length].
  destruct (Nat.ltb_spec n (Nat.min n (length l) + 1)) as [H|H].
  - replace (length l + 1 - n)%nat with (S (length l - n)) by lia.
    rewrite skipn_succ_tl, skipn_app.
    replace (length l - n - length l)%nat with 0%nat by lia. reflexivity.
  - replace (length l + 1 - n)%nat with 0%nat by lia.
    replace (length l - n)%nat with 0%nat by lia. reflexivity.
Qed.

(** X11.  The dashboard's [updateChart] is a sliding window: fed point by
    point from cleared graphs, a chart holds the last 120 points, in order
    of arrival, and its labels and two series stay aligned. *)
Theorem Dashboard_chart_holds_last_120_points
    {T V : Type} (c0 : Dashboard.chart T V) (points : list (T * V * V)) :
  let c := Dashboard.feed (Dashboard.clearGraphs c0) points in
  Dashboard.labels c = Dashboard.lastn 120 (map (fun p => fst (fst p)) points) /\
  Dashboard.voltages c = Dashboard.lastn 120 (map (fun p => snd (fst p)) points) /\
  Dashboard.currents c = Dashboard.lastn 120 (map (fun p => snd p) points) /\
  length (Dashboard.labels c) = Nat.min 120 (length points) /\
  length (Dashboard.voltages c) = length (Dashboard.labels c) /\
  length (Dashboard.currents c) = length (Dashboard.labels c).
Proof.
  cbv zeta.
  assert (H : Dashboard.labels (Dashboard.feed (Dashboard.clearGraphs c0) points)
              = Dashboard.lastn 120 (map (fun p => fst (fst p)) points) /\
              Dashboard.voltages (Dashboard.feed (Dashboard.clearGraphs c0) points)
              = Dashboard.lastn 120 (map (fun p => snd (fst p)) points) /\
              Dashboard.currents (Dashboard.feed (Dashboard.clearGraphs c0) points)
              = Dashboard.lastn 120 (map (fun p => snd p) points)).
  { induction points as [|p points IHp] using rev_ind.
    - repeat split.
    - destruct IHp as (Hl & Hv & Hc). unfold Dashboard.feed in *.
      rewrite fold_left_app. cbn [fold_left].
      set (c := fold_left _ points _) in *. clearbody c.
      unfold Dashboard.updateChart. cbn [fst snd].
      rewrite Hl, Hv, Hc, !map_app. cbn [map].
      rewrite !lastn_push, !length_app, !lastn_length, !length_map.
      change Dashboard.maxPoints with 120%nat. cbn [length].
      destruct (120 <? Nat.min 120 (length points) + 1)%nat; repeat split. }
  destruct H as (Hl & Hv & Hc). rewrite Hl, Hv, Hc, !lastn_length, !length_map.
  repeat split.
Qed.

(** ** A step down at the floor, in the PI + IC variant *)

Lemma Qeq_bool_inject_Z_nonzero (z : Z) : z <> 0 -> Qeq_bool (inject_Z z) 0 = false.
Proof.
  intro H. change (is_zero (of_int z) = false). rewrite is_zero_of_int.
  now apply Z.eqb_neq.
Qed.

(** A regulator step of [PidAvg] from a stored duty cycle that has wrapped
    below zero: with the measured voltage at or above the target and the
    accumulator between -0.15 and 0, it hands over the maximum. *)
Lemma pid_avg_regulator_after_wrap (vl u : Z) (qi : Q) :
  8000 <= vl ->
  (- (15 # 100) <= qi <= 0)%Q ->
  65526 <= u <= 65535 ->
  exists qi',
    pi_update pid_avg_pi_params vl u (Fin qi)
    = ([EvDivide (of_int vl); EvDivide (of_int vl); EvSetDutyCycle 1023],
       Some (1023, Fin qi')).
Proof.
  intros Hvl Hqi Hu.
  unfold pi_update, percent_error, divide.
  cbn [denominator pid_avg_pi_params desiredLowVoltage kp ki DUTY_MIN DUTY_MAX].
  rewrite ddiv_of_int by lia. cbn [bind emit ret app].
  unfold proportional_term, integral_increment, of_int.
  cbn [kp ki pid_avg_pi_params dmul dneg dadd].
  set (rho := (inject_Z (vl - 8000) / inject_Z vl)%Q).
  assert (Hrho : (0 <= rho <= 1)%Q).
  { assert (Hpos : (0 < inject_Z vl)%Q)
      by (change 0%Q with (inject_Z 0); rewrite <- Zlt_Qlt; lia).
    unfold rho. split.
    - apply Qle_shift_div_l; [exact Hpos|]. rewrite Qmult_0_l.
      change 0%Q with (inject_Z 0). rewrite <- Zle_Qle. lia.
    - apply Qle_shift_div_r; [exact Hpos|]. rewrite Qmult_1_l.
      rewrite <- Zle_Qle. lia. }
  set (value := (inject_Z u + inject_Z u * (- ((3 # 10) * rho)
                                            + (qi + - ((5 # 100) * rho))))%Q).
  assert (Hx : (inject_Z 65526 <= inject_Z u <= inject_Z 65535)%Q)
    by (rewrite <- !Zle_Qle; lia).
  assert (Hvalue : (inject_Z 32763 <= value /\ value <= inject_Z 65535)%Q).
  { unfold value. clearbody rho. set (x := inject_Z u) in *. clearbody x.
    change (inject_Z 32763) with (32763 # 1).
    change (inject_Z 65535) with (65535 # 1) in *.
    change (inject_Z 65526) with (65526 # 1) in *.
    destruct Hqi, Hrho, Hx. split; nra. }
  destruct (Qtrunc_bounds value 32763 65535) as [Hlo Hhi]; [lia|tauto|tauto|].
  unfold to_u16. destruct (Z.leb_spec 0 (Qtrunc value)); [|lia].
  destruct (Z.leb_spec (Qtrunc value) 65535); [|lia].
  cbn [andb bind emit ret app].
  assert (E : constrain (Qtrunc value) 10 1023 = 1023) by (unfold constrain; zcases).
  rewrite E. eexists. reflexivity.
Qed.

(** X13.  The wrap of X1 also exists in the PI + IC variant.  When the
    regulator's output is below 20 and the engine, in its first branch,
    steps down on the interrupt that closes a window, the stored duty cycle
    wraps to [65516 + w]; on the next interrupt, with the measured voltage
    at or above the target and the accumulator between -0.15 and 0, the
    regulator hands the maximum 1023 to the actuator. *)
Theorem PidAvg_step_down_at_floor_yields_maximum
    (c : avg_config) (rd1 rd2 : PidAvg.reading) (st st1 : PidAvg.state)
    (w : Z) (qi : Q) :
  SAFETY_ENABLE c = false ->
  DUTY_CYCLE_INCREMENT (ic c) = 20 ->
  PidAvg.avgCount st = NUM_AVERAGES c ->
  in_voltage_band (ic c) (PidAvg_closing_dV c st) ->
  PidAvg_closing_dI c st < - CURRENT_ERROR_RANGE (ic c) ->
  0 <= CURRENT_ERROR_RANGE (ic c) ->
  result (PidAvg.controlUpdate c rd1 st) = Some st1 ->
  duty_writes (trace (PidAvg.controlUpdate c rd1 st)) = [w] ->
  w < 20 ->
  PidAvg.integralControl st1 = Fin qi ->
  (- (15 # 100) <= qi <= 0)%Q ->
  8000 <= PidAvg.regulatorVL rd2 ->
  PidAvg.dutyCycle st1 = w + 65516 /\
  duty_writes (trace (PidAvg.controlUpdate c rd2 st1)) = [1023].
Proof.
  intros Hc Hstep Hn Hband Hdown Hrange Hres Hw Hw20 Hi Hqi Hvl.
  assert (Hduty : PidAvg.dutyCycle st1 = w + 65516).
  { revert Hres Hw. unfold PidAvg.controlUpdate. rewrite Hc. cbn [andb].
    destruct (pi_update_shape pid_avg_pi_params (PidAvg.regulatorVL rd1)
                (PidAvg.dutyCycle st) (PidAvg.integralControl st))
      as [H|(x & i' & H)]; cbv zeta in H; rewrite H; [discriminate|].
    apply Z.eqb_eq in Hn. rewrite Hn. cbv zeta.
    unfold PidAvg_closing_dV in Hband. rewrite ic_delta_branch1 by exact Hband.
    unfold PidAvg_closing_dI in Hdown.
    destruct (Z.gtb_spec (PidAvg.avgLowCurrentSum st ÷ (NUM_AVERAGES c + 1)
                          - PidAvg.avgPrevLowCurrent st)
                (CURRENT_ERROR_RANGE (ic c))); [lia|].
    destruct (Z.ltb_spec (PidAvg.avgLowCurrentSum st ÷ (NUM_AVERAGES c + 1)
                          - PidAvg.avgPrevLowCurrent st)
                (- CURRENT_ERROR_RANGE (ic c))); [|lia].
    assert (Hx : 10 <= constrain x 10 1023 <= 1023)
      by (apply constrain_bounds; lia).
    cbn [DUTY_MIN DUTY_MAX pid_avg_pi_params] in *.
    destruct (_ >? LOW_SIDE_MAX_VOLTAGE c);
      cbn [bind emit ret app result trace fst snd duty_writes flat_map];
      intros Hres Hwr; injection Hres as <-; injection Hwr as <-;
      cbn [PidAvg.dutyCycle]; rewrite Hstep, u16_below_zero by lia; lia. }
  split; [exact Hduty|].
  unfold PidAvg.controlUpdate. rewrite Hc. cbn [andb]. rewrite Hi, Hduty.
  assert (Hw10 : 10 <= w).
  { revert Hw. unfold PidAvg.controlUpdate. rewrite Hc. cbn [andb].
    destruct (pi_update_shape pid_avg_pi_params (PidAvg.regulatorVL rd1)
                (PidAvg.dutyCycle st) (PidAvg.integralControl st))
      as [H|(x & i' & H)]; cbv zeta in H; rewrite H; [discriminate|].
    assert (Hx : 10 <= constrain x 10 1023 <= 1023)
      by (apply constrain_bounds; lia).
    cbn [DUTY_MIN DUTY_MAX pid_avg_pi_params] in *.
    destruct (PidAvg.avgCount st =? NUM_AVERAGES c).
    - match goal with
      | |- context [ic_delta ?p ?a ?b ?u ?v] =>
          destruct (ic_delta_three_valued p a b u v)
            as (l & delta & E & Hwr & _ & _); rewrite E
      end.
      destruct (_ >? LOW_SIDE_MAX_VOLTAGE c);
        cbn [bind emit ret app trace fst];
        unfold duty_writes in *; cbn [flat_map app];
        rewrite ?flat_map_app, ?Hwr; cbn [flat_map app];
        intro Hwr'; injection Hwr' as <-; lia.
    - cbn [bind emit ret app trace fst duty_writes flat_map].
      intro Hwr'. injection Hwr' as <-. lia. }
  destruct (pid_avg_regulator_after_wrap (PidAvg.regulatorVL rd2) (w + 65516) qi Hvl Hqi)
    as (qi' & Hstep2); [lia|].
  rewrite Hstep2.
  destruct (PidAvg.avgCount st1 =? NUM_AVERAGES c).
  - match goal with
    | |- context [ic_delta ?p ?a ?b ?u ?v] =>
        destruct (ic_delta_three_valued p a b u v)
          as (l & delta & E & Hwr & _ & _); rewrite E
    end.
    destruct (_ >? LOW_SIDE_MAX_VOLTAGE c);
      cbn [bind emit ret app trace fst];
      unfold duty_writes in *; cbn [flat_map app];
      rewrite ?flat_map_app, ?Hwr; reflexivity.
  - reflexivity.
Qed.

Lemma PidAvg_step_down_at_floor_yields_maximum_witness :
  let rd := {| PidAvg.regulatorVL := 8000;
               PidAvg.sample := {| IL := 0; IH := 0; VL := 8000; VH := 12000 |} |} in
  PidAvg.avgCount pid_at_floor = NUM_AVERAGES shipped /\
  PidAvg_closing_dI shipped pid_at_floor < - CURRENT_ERROR_RANGE (ic shipped) /\
  exists st1,
    result (PidAvg.controlUpdate shipped rd pid_at_floor) = Some st1 /\
    duty_writes (trace (PidAvg.controlUpdate shipped rd pid_at_floor)) = [10] /\
    PidAvg.dutyCycle st1 = 10 + 65516 /\
    duty_writes (trace (PidAvg.controlUpdate shipped rd st1)) = [1023].
Proof.
  intro rd. split; [reflexivity|]. split; [reflexivity|].
  eexists.
  assert (Hres : result (PidAvg.controlUpdate shipped rd pid_at_floor) = Some _)
    by (vm_compute; reflexivity).
  assert (Hw : duty_writes (trace (PidAvg.controlUpdate shipped rd pid_at_floor)) = [10])
    by (vm_compute; reflexivity).
  split; [exact Hres|]. split; [exact Hw|].
  refine (PidAvg_step_down_at_floor_yields_maximum shipped rd rd pid_at_floor _ 10 _
            eq_refl eq_refl eq_refl _ eq_refl _ Hres Hw eq_refl eq_refl _ _).
  - unfold in_voltage_band. vm_compute. split; reflexivity.
  - discriminate.
  - split; discriminate.
  - simpl. lia.
Defined.

(** ** The first draft's engine over whole interrupts *)

(** X14.  In the first draft the IC block never divides (its second branch
    is dead code) and it steps on every interrupt: an interrupt that
    completes writes the regulator's clamped output [w] once and stores
    [w + 20] for a current rise above 200 mA and [w - 20] (modulo 2^16) for
    anything below 200 mA; the stored duty cycle equals the written one
    only when the current rose by exactly 200 mA. *)
Theorem Old_engine_holds_only_at_200 (rd : sensors) (st st' : Old.state) :
  result (Old.controlUpdate rd st) = Some st' ->
  let rise := IL rd - Old.prevActualLowCurrent st in
  exists w,
    trace (Old.controlUpdate rd st)
    = [EvDivide (of_int (VL rd)); EvDivide (of_int (VL rd)); EvSetDutyCycle w;
       EvTransmit; EvSetLED (Old.ledState st)] /\
    within 10 1014 w /\
    Old.dutyCycle st'
    = u16 (w + (if rise >? 200 then 20 else if rise <? 200 then -20 else 0)) /\
    (Old.dutyCycle st' = w <-> rise = 200).
Proof.
  intros Hres rise. revert Hres. unfold Old.controlUpdate.
  destruct (pi_update_shape old_pi_params (VL rd)
              (Old.dutyCycle st) (Old.integralControl st))
    as [H|(x & i' & H)]; cbv zeta in H; rewrite H; [discriminate|].
  rewrite ic_delta_old_branch1 by (simpl; lia).
  cbn [bind emit ret app result trace fst snd].
  intro Hres. injection Hres as <-.
  cbn [Old.dutyCycle DUTY_MIN DUTY_MAX old_pi_params CURRENT_ERROR_RANGE
       DUTY_CYCLE_INCREMENT old_ic_params denominator].
  fold rise.
  assert (Hw : 10 <= constrain x 10 1014 <= 1014) by (apply constrain_bounds; lia).
  exists (constrain x 10 1014). split; [reflexivity|]. split; [exact Hw|].
  split; [reflexivity|].
  destruct (Z.gtb_spec rise 200); [|destruct (Z.ltb_spec rise 200)].
  - rewrite u16_small by lia. lia.
  - destruct (Z.ltb_spec (constrain x 10 1014) 20).
    + rewrite u16_below_zero by lia. lia.
    + rewrite u16_small by lia. lia.
  - rewrite Z.add_0_r, u16_small by lia. lia.
Qed.

Lemma Old_engine_holds_only_at_200_witness :
  let rd := {| IL := 1; IH := 0; VL := 8000; VH := 12000 |} in
  exists st',
    result (Old.controlUpdate rd (Old.init 682)) = Some st' /\
    exists w,
      within 10 1014 w /\
      (Old.dutyCycle st' = w <-> IL rd - Old.prevActualLowCurrent (Old.init 682) = 200).
Proof.
  intro rd. eexists.
  assert (Hres : result (Old.controlUpdate rd (Old.init 682)) = Some _)
    by (vm_compute; reflexivity).
  split; [exact Hres|].
  destruct (Old_engine_holds_only_at_200 rd (Old.init 682) _ Hres)
    as (w & _ & Hw & _ & Hiff).
  exists w. split; [exact Hw|exact Hiff].
Defined.

(** ** The cadence of the IC controller with averaging *)

Lemma AvgIC_tick_summary (c : avg_config) (rd : sensors) (st : AvgIC.state) :
  SAFETY_ENABLE c = false ->
  exists tr st',
    AvgIC.controlUpdate c rd st = (tr, Some st') /\
    closings tr = (if AvgIC.avgCount st + 1 =? NUM_AVERAGES c then 1%nat else 0%nat) /\
    length (duty_writes tr) = closings tr /\
    Forall (within 10 1023) (duty_writes tr) /\
    AvgIC.avgCount st'
    = (if AvgIC.avgCount st + 1 =? NUM_AVERAGES c then 0 else AvgIC.avgCount st + 1).
Proof.
  intro Hc. unfold AvgIC.controlUpdate. rewrite Hc. cbn [andb].
  destruct (AvgIC.avgCount st + 1 =? NUM_AVERAGES c).
  - match goal with
    | |- context [ic_delta ?p ?a ?b ?x ?y] =>
        destruct (ic_delta_three_valued p a b x y)
          as (l & delta & E & Hwr & Hcl & _); rewrite E
    end.
    destruct (_ >? LOW_SIDE_MAX_VOLTAGE c);
      cbn [bind emit ret app]; eexists _, _; (split; [reflexivity|]);
      unfold closings, duty_writes in *;
      cbn [filter flat_map is_transmit app length];
      rewrite ?filter_app, ?flat_map_app, ?length_app, ?Hwr, ?Hcl;
      cbn [filter flat_map is_transmit app length AvgIC.avgCount];
      (repeat split; try reflexivity);
      repeat constructor; apply constrain_bounds; lia.
  - cbn [bind emit ret app]. eexists _, _. split; [reflexivity|].
    repeat split; constructor.
Qed.

(** On the arithmetic in [Z]: one write and one report per window. *)
Lemma AvgIC_cadence (c : avg_config) (rds : list sensors) :
  SAFETY_ENABLE c = false ->
  forall st,
    0 <= AvgIC.avgCount st < NUM_AVERAGES c ->
    exists tr st',
      run (AvgIC.controlUpdate c) rds st = (tr, Some st') /\
      Z.of_nat (closings tr)
      = (AvgIC.avgCount st + Z.of_nat (length rds)) / NUM_AVERAGES c /\
      length (duty_writes tr) = closings tr /\
      Forall (within 10 1023) (duty_writes tr) /\
      0 <= AvgIC.avgCount st' < NUM_AVERAGES c.
Proof.
  intro Hc. induction rds as [|rd rds IHrds]; intros st Hcount.
  - exists [], st. cbn [run length Z.of_nat closings duty_writes filter flat_map].
    rewrite Z.add_0_r, Z.div_small by lia.
    repeat split; try constructor; lia.
  - destruct (AvgIC_tick_summary c rd st Hc) as (tr1 & st1 & Htick & Hcl1 & Hlen1 & Hb1 & Hn1).
    assert (Hcount1 : 0 <= AvgIC.avgCount st1 < NUM_AVERAGES c)
      by (rewrite Hn1; zcases).
    destruct (IHrds st1 Hcount1) as (tr2 & st2 & Hrun & Hcl2 & Hlen2 & Hb2 & Hn2).
    exists (tr1 ++ tr2), st2. split.
    + cbn [run]. exact (bind_Some _ _ _ _ _ _ Htick Hrun).
    + rewrite closings_app, duty_writes_app, length_app, Hlen1, Hlen2.
      split; [|split; [reflexivity|split; [apply Forall_app; auto|exact Hn2]]].
      rewrite Nat2Z.inj_add, Hcl2, Hcl1, Hn1. cbn [length]. rewrite Nat2Z.inj_succ.
      destruct (Z.eqb_spec (AvgIC.avgCount st + 1) (NUM_AVERAGES c)) as [E|E].
      * replace (AvgIC.avgCount st + Z.succ (Z.of_nat (length rds)))
          with (1 * NUM_AVERAGES c + (0 + Z.of_nat (length rds))) by lia.
        rewrite Z.div_add_l by lia. reflexivity.
      * replace (AvgIC.avgCount st + Z.succ (Z.of_nat (length rds)))
          with (AvgIC.avgCount st + 1 + Z.of_nat (length rds)) by lia.
        reflexivity.
Qed.

(** X15.  With the safety gate compiled out, on a run that keeps every
    signed variable within its type, the IC controller with averaging
    writes the actuator exactly once per [NUM_AVERAGES] interrupts, always
    within 10..1023: the number of writes and of telemetry reports over the
    run is [(avgCount + n) / NUM_AVERAGES]. *)
Theorem AvgIC_writes_once_per_window (c : avg_config) (rds : list sensors)
    (st : AvgIC.state) :
  SAFETY_ENABLE c = false ->
  0 <= AvgIC.avgCount st < NUM_AVERAGES c ->
  AvgIC_run_fits c rds st = true ->
  exists tr st',
    run (AvgIC_controlUpdate_checked c) rds st = (tr, Some st') /\
    Z.of_nat (closings tr)
    = (AvgIC.avgCount st + Z.of_nat (length rds)) / NUM_AVERAGES c /\
    length (duty_writes tr) = closings tr /\
    Forall (within 10 1023) (duty_writes tr) /\
    0 <= AvgIC.avgCount st' < NUM_AVERAGES c.
Proof.
  intros Hc Hcount Hfits.
  rewrite (AvgIC_checked_run c rds st Hfits).
  now apply AvgIC_cadence.
Qed.

Lemma AvgIC_writes_once_per_window_witness :
  let rds := repeat low_current 2500 in
  AvgIC_run_fits shipped rds AvgIC.init = true /\
  exists tr st',
    run (AvgIC_controlUpdate_checked shipped) rds AvgIC.init = (tr, Some st') /\
    closings tr = 2%nat /\
    length (duty_writes tr) = 2%nat.
Proof.
  intro rds.
  assert (Hfits : AvgIC_run_fits shipped rds AvgIC.init = true)
    by (vm_compute; reflexivity).
  split; [exact Hfits|].
  destruct (AvgIC_writes_once_per_window shipped rds AvgIC.init eq_refl)
    as (tr & st' & Hrun & Hcl & Hlen & _).
  - simpl. lia.
  - exact Hfits.
  - exists tr, st'. split; [exact Hrun|].
    assert (E : closings tr = 2%nat).
    { apply Nat2Z.inj. rewrite Hcl. vm_compute. reflexivity. }
    split; [exact E|]. now rewrite Hlen.
Defined.

(** ** The protective duty cycle outside the regulation range *)

(** X16.  The protective duty cycle [(12000 / VH) * 1024], stored in a
    [uint16_t], is always a multiple of 1024 below 65536: whatever the
    high-side voltage, an interrupt taken by the safety gate hands the
    actuator either 0 or a value above the regulation range 10..1023. *)
Theorem protective_duty_is_outside_regulation_range
    (c : avg_config) (rd : sensors) (st : AvgIC.state) :
  SAFETY_ENABLE c = true ->
  AvgIC.VOLTAGE_SAFETY st = true ->
  VH rd <> 0 ->
  exists k,
    0 <= k < 64 /\
    duty_writes (trace (AvgIC.controlUpdate c rd st)) = [1024 * k] /\
    ~ within 10 1023 (1024 * k).
Proof.
  intros Hc Hf Hv.
  destruct (AvgIC_shutdown_tick c rd st Hc Hf Hv) as (st' & E & _).
  rewrite E. cbn [trace fst shutdown_trace duty_writes flat_map app].
  exists ((12000 ÷ VH rd) mod 64).
  assert (Hk : 0 <= (12000 ÷ VH rd) mod 64 < 64) by (apply Z.mod_pos_bound; lia).
  split; [exact Hk|]. split.
  - f_equal. unfold u16. change 65536 with (64 * 1024).
    rewrite Z.mul_mod_distr_r by lia. lia.
  - unfold within. lia.
Qed.

Lemma protective_duty_is_outside_regulation_range_witness :
  let rd := {| IL := 0; IH := 0; VL := 16000; VH := 100 |} in
  VH rd <> 0 /\
  exists k,
    0 <= k < 64 /\
    duty_writes (trace (AvgIC.controlUpdate (with_safety shipped) rd tripped))
    = [1024 * k] /\
    ~ within 10 1023 (1024 * k).
Proof.
  intro rd. assert (Hv : VH rd <> 0) by discriminate.
  split; [exact Hv|].
  exact (protective_duty_is_outside_regulation_range
           (with_safety shipped) rd tripped eq_refl eq_refl Hv).
Defined.
